(** * Moving-average profit/loss calculator: model and verification

    A shallow embedding of [calculate_pl.js] (the calculator and its CSV
    pipeline) and of the header lookup and the accounting loop of
    [calculate_profit_loss.js].

    Conventions.
    - A JavaScript number is an IEEE 754 binary64 value: Rocq's primitive
      [float], with the kernel's own arithmetic and comparisons.
    - A JavaScript string is a [string] whose characters are code units
      below 256.
    - [undefined] is [None]; a [throw] is the [Throw] result.
    - A [Date] is its time value, an integer number of milliseconds ([Z]).
    - What the host decides (collation, date formats) is a [Host]. *)

From Stdlib Require Import ZArith Floats Ascii String List Lia DecimalString.
From stdpp Require Import base option list sorting strings gmap.

(** ** Built-ins of the language *)

Module JS.

(** White space and line terminators of ECMA-262 among code units below 256. *)
Definition isWhiteSpace (c : ascii) : bool :=
  match c with
  | "009" | "010" | "011" | "012" | "013" | " " | "160" => true
  | _ => false
  end%char.

Fixpoint trimStart (s : string) : string :=
  match s with
  | String c s' => if isWhiteSpace c then trimStart s' else s
  | EmptyString => EmptyString
  end.

Fixpoint trimEnd (s : string) : string :=
  match s with
  | EmptyString => EmptyString
  | String c s' =>
      match trimEnd s' with
      | EmptyString => if isWhiteSpace c then EmptyString else String c EmptyString
      | t => String c t
      end
  end.

(** [s.trim()] *)
Definition trim (s : string) : string := trimEnd (trimStart s).

(** [s.replace(/c/g, '')] for a single character [c]. *)
Fixpoint removeAll (c : ascii) (s : string) : string :=
  match s with
  | EmptyString => EmptyString
  | String c' s' => if Ascii.eqb c' c then removeAll c s' else String c' (removeAll c s')
  end.

(** [s.split(sep)] for a single character [sep]. *)
Fixpoint split (sep : ascii) (s : string) : list string :=
  match s with
  | EmptyString => [EmptyString]
  | String c s' =>
      if Ascii.eqb c sep then EmptyString :: split sep s'
      else match split sep s' with
           | f :: fs => String c f :: fs
           | [] => [String c EmptyString]
           end
  end.

(** [s.split(/\r?\n/)] *)
Fixpoint splitLines (s : string) : list string :=
  match s with
  | EmptyString => [EmptyString]
  | String c s' =>
      let rest := splitLines s' in
      if Ascii.eqb c "010" then EmptyString :: rest
      else match s' with
           | String c' _ =>
               if Ascii.eqb c "013" && Ascii.eqb c' "010" then rest
               else match rest with
                    | f :: fs => String c f :: fs
                    | [] => [String c EmptyString]
                    end
           | EmptyString => [String c EmptyString]
           end
  end.

(** [l.join(sep)] *)
Fixpoint join (sep : string) (l : list string) : string :=
  match l with
  | [] => EmptyString
  | [s] => s
  | s :: l' => s +:+ sep +:+ join sep l'
  end.

Fixpoint contains (c : ascii) (s : string) : bool :=
  match s with
  | EmptyString => false
  | String c' s' => Ascii.eqb c' c || contains c s'
  end.

(** Decimal digits of a natural number, without leading zeros. *)
Definition digits (n : N) : string := NilZero.string_of_uint (N.to_uint n).

Definition decimalLength (n : N) : N := N.of_nat (String.length (digits n)).

(** The binary64 value nearest to an integer (ties to even). *)
Definition roundInteger (neg : bool) (n : N) : float :=
  match n with
  | N0 => if neg then (-0)%float else 0%float
  | Npos p => SF2Prim (binary_round prec emax neg p 0)
  end.

(** The binary64 value nearest to [p / q]: the quotient is taken with at
    least 64 significant bits and a last bit that records a remainder. *)
Definition roundRatio (neg : bool) (p q : positive) : float :=
  let k := Z.max 0 (64 + Z.log2 (Zpos q) - Z.log2 (Zpos p)) in
  let num := Z.shiftl (Zpos p) k in
  let m := (2 * (num / Zpos q) + (if num mod Zpos q =? 0 then 0 else 1))%Z in
  match m with
  | Zpos m' => SF2Prim (binary_round prec emax neg m' (- (k + 1)))
  | _ => nan
  end.

(** *** Number.prototype.toFixed(2) *)

Definition e21 : N := 10 ^ 21.

Definition roundsTo (x : float) (c : N) : bool := PrimFloat.eqb (roundInteger false c) x.

(** Number::toString of an integer [X >= 10^21] whose binary64 value is [x]:
    the shortest digit string [s] (of [k] digits, [k] tried in the order of
    [ks]) with [s * 10^(n-k)] rounding to [x], the nearest to [X] when two
    do; the result is [(s, n)]. *)
Fixpoint shortest (x : float) (X : N) (d : N) (ks : list N) : N * N :=
  match ks with
  | [] => (X, d)
  | k :: ks' =>
      let p := (10 ^ (d - k))%N in
      let lo := (X / p)%N in
      let hi := (lo + 1)%N in
      let pick (s : N) := if (s =? 10 ^ k)%N then (10 ^ (k - 1), d + 1)%N else (s, d) in
      match roundsTo x (lo * p), roundsTo x (hi * p) with
      | true, true =>
          match (X - lo * p ?= hi * p - X)%N with
          | Lt => pick lo
          | Gt => pick hi
          | Eq => if N.even lo then pick lo else pick hi
          end
      | true, false => pick lo
      | false, true => pick hi
      | false, false => shortest x X d ks'
      end
  end.

Definition exponential (x : float) (X : N) : string :=
  let '(s, n) := shortest x X (decimalLength X) (map N.of_nat (seq 1 17)) in
  match digits s with
  | String c EmptyString => String c EmptyString
  | String c rest => String c ("." +:+ rest)
  | EmptyString => EmptyString
  end +:+ "e+" +:+ digits (n - 1).

(** [n] hundredths written with two decimals. *)
Definition fixed2 (n : N) : string :=
  let m := digits n in
  let m := match String.length m with
           | 1 => "00" +:+ m
           | 2 => "0" +:+ m
           | _ => m
           end in
  let k := String.length m in
  String.substring 0 (k - 2) m +:+ "." +:+ String.substring (k - 2) 2 m.

(** [x.toFixed(2)]: the exact value of [x], rounded to hundredths with ties
    away from zero; a magnitude of [10^21] or more is printed by
    Number::toString. *)
Definition toFixed2 (x : float) : string :=
  match Prim2SF x with
  | S754_nan => "NaN"
  | S754_infinity neg => if neg then "-Infinity" else "Infinity"
  | S754_zero _ => "0.00"
  | S754_finite neg m e =>
      let num := match e with Zneg _ => Npos m | _ => Z.to_N (Zpos m * 2 ^ e) end in
      let den := match e with Zneg e' => (2 ^ Npos e')%N | _ => 1%N end in
      (if neg then "-" else "") +:+
      (if (e21 * den <=? num)%N then exponential (abs x) (num / den)
       else fixed2 ((200 * num + den) / (2 * den)))
  end.

(** *** Number(s) *)

Definition digitValue (base : N) (c : ascii) : option N :=
  let n := N_of_ascii c in
  let v := if (48 <=? n)%N && (n <=? 57)%N then Some (n - 48)%N
           else if (97 <=? n)%N && (n <=? 102)%N then Some (n - 87)%N
           else if (65 <=? n)%N && (n <=? 70)%N then Some (n - 55)%N
           else None in
  match v with
  | Some d => if (d <? base)%N then Some d else None
  | None => None
  end.

(** The longest run of digits of [base] at the head of [s]: its value on
    top of [acc], how many digits were read, and the rest of [s]. *)
Fixpoint readDigits (base : N) (acc : N) (count : nat) (s : string) : N * nat * string :=
  match s with
  | EmptyString => (acc, count, s)
  | String c s' =>
      match digitValue base c with
      | Some d => readDigits base (base * acc + d)%N (S count) s'
      | None => (acc, count, s)
      end
  end.

Definition readSign (s : string) : bool * string :=
  match s with
  | String "+" s' => (false, s')
  | String "-" s' => (true, s')
  | _ => (false, s)
  end.

Definition readExponent (s : string) : option Z :=
  match s with
  | EmptyString => Some 0%Z
  | String c s' =>
      if Ascii.eqb c "e" || Ascii.eqb c "E" then
        let '(neg, s'') := readSign s' in
        match readDigits 10 0 0 s'' with
        | (_, O, _) => None
        | (v, _, EmptyString) => Some (if neg then - Z.of_N v else Z.of_N v)%Z
        | _ => None
        end
      else None
  end.

(** The binary64 value nearest to [m * 10^e]. *)
Definition roundDecimal (neg : bool) (m : N) (e : Z) : float :=
  match m with
  | N0 => if neg then (-0)%float else 0%float
  | Npos p =>
      let magnitude := (Z.of_N (decimalLength m) + e)%Z in
      if (400 <? magnitude)%Z then (if neg then neg_infinity else infinity)
      else if (magnitude <? -400)%Z then (if neg then (-0)%float else 0%float)
      else match e with
           | Zneg e' => roundRatio neg p (10 ^ e')%positive
           | _ => roundInteger neg (m * 10 ^ Z.to_N e)
           end
  end.

(** [0x], [0o] and [0b] literals; [None] when [s] has no such prefix. *)
Definition readNonDecimal (s : string) : option float :=
  match s with
  | String "0" (String c s') =>
      let base := if Ascii.eqb c "x" || Ascii.eqb c "X" then Some 16%N
                  else if Ascii.eqb c "o" || Ascii.eqb c "O" then Some 8%N
                  else if Ascii.eqb c "b" || Ascii.eqb c "B" then Some 2%N
                  else None in
      match base with
      | Some b =>
          match readDigits b 0 0 s' with
          | (_, O, _) => Some nan
          | (v, _, EmptyString) => Some (roundInteger false v)
          | _ => Some nan
          end
      | None => None
      end
  | _ => None
  end.

Definition readDecimal (s : string) : float :=
  let '(neg, s1) := readSign s in
  if String.eqb s1 "Infinity" then (if neg then neg_infinity else infinity)
  else
    let '(i, ni, s2) := readDigits 10 0 0 s1 in
    let '(m, nf, s3) :=
      match s2 with
      | String "." s2' => let '(m, n, r) := readDigits 10 i 0 s2' in (m, n, r)
      | _ => (i, O, s2)
      end in
    match (ni + nf)%nat with
    | O => nan
    | _ => match readExponent s3 with
           | Some e => roundDecimal neg m (e - Z.of_nat nf)
           | None => nan
           end
    end.

(** [Number(s)] of a string: StringToNumber of ECMA-262, [nan] when [s] is
    not a numeric literal. *)
Definition Number (s : string) : float :=
  match trim s with
  | EmptyString => 0%float
  | t => match readNonDecimal t with
         | Some x => x
         | None => readDecimal t
         end
  end.

(** [String(v)] of a string or [undefined]. *)
Definition toString (v : option string) : string := default "undefined" v.

(** Canonicalize of a case-insensitive regular expression, on code units
    below 256: only the letters a-z have an upper case among them that the
    matcher may use. *)
Definition canonicalize (c : ascii) : ascii :=
  let n := N_of_ascii c in
  if (97 <=? n)%N && (n <=? 122)%N then ascii_of_N (n - 32) else c.

(** [/^pattern$/i.test(s)] for a pattern of literal characters. *)
Fixpoint testWhole (pattern s : string) : bool :=
  match pattern, s with
  | EmptyString, EmptyString => true
  | String p pattern', String c s' =>
      Ascii.eqb (canonicalize p) (canonicalize c) && testWhole pattern' s'
  | _, _ => false
  end.

(** [l[i]] for a number [i] that is an integer. *)
Definition index {A} (l : list A) (i : Z) : option A :=
  if (i <? 0)%Z then None else l !! Z.to_nat i.

(** An array with holes: [None] is a hole, read as [undefined]. *)
Definition get {A} (arr : list (option A)) (i : nat) : option A := mjoin (arr !! i).

(** [arr[i] = v]: a write past the end extends the array with holes. *)
Definition set {A} (arr : list (option A)) (i : nat) (v : A) : list (option A) :=
  if decide (i < length arr) then <[i := Some v]> arr
  else arr ++ replicate (i - length arr) None ++ [Some v].

End JS.

(** ** What the host decides *)

Class Host := {
  (** [a.localeCompare(b)]: negative, zero or positive. *)
  localeCompare : string → string → Z;
  (** The time value of [new Date(s)], [None] for an invalid date. *)
  dateParse : string → option Z;
}.

(** ** Errors and results *)

(** The errors the calculator throws, each with what its message names. *)
Inductive Error :=
  | InvalidNumber (value : string)
  | InvalidDate (value : string)
  | MissingColumns (missing : list string)
  | NonPositiveSellQuantity (code : string)
  | NoExistingPosition (code : string)
  | OversoldPosition (code : string)
  | EmptyInput
  | NoDataRows.

Definition message (e : Error) : string :=
  match e with
  | InvalidNumber value => "Unable to parse numeric value: " +:+ value
  | InvalidDate value => "Invalid Trade Date: " +:+ value
  | MissingColumns missing => "Missing required columns: " +:+ JS.join ", " missing
  | NonPositiveSellQuantity code => "Sell quantity must be positive for " +:+ code
  | NoExistingPosition code => "Sell encountered without existing position for " +:+ code
  | OversoldPosition code => "Sell quantity exceeds position for " +:+ code
  | EmptyInput => "Input CSV is empty"
  | NoDataRows => "Input CSV has no data rows"
  end.

Inductive result (A : Type) :=
  | Ok (a : A)
  | Throw (e : Error).
Arguments Ok {A} a.
Arguments Throw {A} e.

#[global] Instance result_ret : MRet result := @Ok.
#[global] Instance result_bind : MBind result := λ A B f m,
  match m with
  | Ok a => f a
  | Throw e => Throw e
  end.
#[global] Instance result_fmap : FMap result := λ A B f m,
  match m with
  | Ok a => Ok (f a)
  | Throw e => Throw e
  end.

(** ** Data *)

Record ColumnInfo := {
  headerCols : list string;
  columnIndex : gmap string nat;
  asxIdx : nat;
  orderTypeIdx : nat;
  tradeDateIdx : nat;
  avgPriceIdx : nat;
  qtyIdx : nat;
  confirmationIdx : Z;
}.

Record TradeRecord := {
  originalIndex : nat;
  line : string;
  cols : list string;
  asxCode : option string;
  orderType : option string;
  tradeDate : Z;
  avgPrice : float;
  quantity : float;
}.

Module Position.

Record t := make { quantity : float; totalCost : float }.

Definition zero : t := {| quantity := 0; totalCost := 0 |}.

End Position.

(** The two variables of the accounting loop. *)
Record State := {
  positions : gmap string Position.t;
  profitLossByIndex : list (option string);
}.

(** [1e-8] and [1e-6] as the binary64 values the literals denote. *)
Definition quantityEpsilon : float := 0x1.5798ee2308c3ap-27%float.
Definition costEpsilon : float := 0x1.0c6f7a0b5ed8dp-20%float.

Definition quote : ascii := "034"%char.

(** ** calculate_pl.js *)

Section Calculator.
Context {host : Host}.

Definition parseCsvLine (line : string) : list string := JS.split "," line.

Definition toNumber (value : option string) : result float :=
  match value with
  | None => Ok 0%float
  | Some v =>
      let trimmed := JS.trim (JS.removeAll quote v) in
      match trimmed with
      | EmptyString => Ok 0%float
      | _ =>
          let parsed := JS.Number trimmed in
          if is_nan parsed then Throw (InvalidNumber v) else Ok parsed
      end
  end.

Definition parseTradeDate (value : option string) : result Z :=
  let trimmed := JS.trim (default EmptyString value) in
  match trimmed with
  | EmptyString => Ok 0%Z
  | _ =>
      match dateParse trimmed with
      | None => Throw (InvalidDate (JS.toString value))
      | Some date => Ok date
      end
  end.

Definition requiredColumns : list string :=
  ["AsxCode"; "Order Type"; "Trade Date"; "Avg Price"; "Quantity"].

(** [headerCols.forEach((name, i) => index[name] = i)] from position [i]. *)
Fixpoint indexColumns (i : nat) (names : list string) (index : gmap string nat)
  : gmap string nat :=
  match names with
  | [] => index
  | name :: names' => indexColumns (S i) names' (<[name := i]> index)
  end.

Definition ensureRequiredColumns (headerCols : list string) : result ColumnInfo :=
  let index := indexColumns 0 headerCols ∅ in
  let missing := filter (λ name, index !! name = None) requiredColumns in
  match index !! "AsxCode", index !! "Order Type", index !! "Trade Date",
        index !! "Avg Price", index !! "Quantity" with
  | Some asx, Some orderType, Some tradeDate, Some avgPrice, Some qty =>
      Ok {| headerCols := headerCols;
            columnIndex := index;
            asxIdx := asx;
            orderTypeIdx := orderType;
            tradeDateIdx := tradeDate;
            avgPriceIdx := avgPrice;
            qtyIdx := qty;
            confirmationIdx :=
              match index !! "Confirmation Number" with
              | Some i => Z.of_nat i
              | None => -1
              end |}
  | _, _, _, _, _ => Throw (MissingColumns missing)
  end.

Definition parseRecord (columnInfo : ColumnInfo) (originalIndex : nat) (line : string)
  : result TradeRecord :=
  let cols := parseCsvLine line in
  tradeDate ← parseTradeDate (cols !! tradeDateIdx columnInfo);
  avgPrice ← toNumber (cols !! avgPriceIdx columnInfo);
  quantity ← toNumber (cols !! qtyIdx columnInfo);
  Ok {| originalIndex := originalIndex;
        line := line;
        cols := cols;
        asxCode := cols !! asxIdx columnInfo;
        orderType := cols !! orderTypeIdx columnInfo;
        tradeDate := tradeDate;
        avgPrice := avgPrice;
        quantity := quantity |}.

(** [lines.map((line, originalIndex) => ...)] from position [i]; the first
    line that throws ends the map. *)
Fixpoint parseRecordsFrom (i : nat) (lines : list string) (columnInfo : ColumnInfo)
  : result (list TradeRecord) :=
  match lines with
  | [] => Ok []
  | l :: lines' =>
      record ← parseRecord columnInfo i l;
      records ← parseRecordsFrom (S i) lines' columnInfo;
      Ok (record :: records)
  end.

Definition parseRecords (lines : list string) (columnInfo : ColumnInfo)
  : result (list TradeRecord) :=
  parseRecordsFrom 0 lines columnInfo.

(** The comparator of [sortRecords]. *)
Definition compareRecords (columnInfo : ColumnInfo) (a b : TradeRecord) : Z :=
  let tDiff := (tradeDate a - tradeDate b)%Z in
  if (tDiff =? 0)%Z then
    let aConf := default EmptyString (JS.index (cols a) (confirmationIdx columnInfo)) in
    let bConf := default EmptyString (JS.index (cols b) (confirmationIdx columnInfo)) in
    if negb (confirmationIdx columnInfo =? -1)%Z && negb (String.eqb aConf bConf)
    then localeCompare aConf bConf
    else (Z.of_nat (originalIndex a) - Z.of_nat (originalIndex b))%Z
  else tDiff.

(** [Array.prototype.sort] is a stable sort: an element goes before the
    first element of the sorted rest that does not compare below it. (For a
    comparator that is no consistent order the language leaves the result
    to the implementation; this is one such result.) *)
Fixpoint insertSorted (compare : TradeRecord → TradeRecord → Z)
  (x : TradeRecord) (l : list TradeRecord) : list TradeRecord :=
  match l with
  | [] => [x]
  | y :: l' =>
      if (compare x y <=? 0)%Z then x :: l else y :: insertSorted compare x l'
  end.

Definition sortRecords (records : list TradeRecord) (columnInfo : ColumnInfo)
  : list TradeRecord :=
  foldr (insertSorted (compareRecords columnInfo)) [] records.

Definition isBuy (record : TradeRecord) : bool :=
  JS.testWhole "buy" (JS.toString (orderType record)).

Definition isSell (record : TradeRecord) : bool :=
  JS.testWhole "sell" (JS.toString (orderType record)).

(** [positions[code]] after the loop has made sure it exists. *)
Definition positionOf (positions : gmap string Position.t) (code : string) : Position.t :=
  default Position.zero (positions !! code).

(** [if (!positions[code]) positions[code] = { quantity: 0, totalCost: 0 }] *)
Definition ensurePosition (positions : gmap string Position.t) (code : string)
  : gmap string Position.t :=
  match positions !! code with
  | Some _ => positions
  | None => <[code := Position.zero]> positions
  end.

(** [if (Math.abs(x) < epsilon) x = 0] *)
Definition snap (epsilon x : float) : float :=
  if (abs x <? epsilon)%float then 0%float else x.

(** One iteration of the loop of [calculateProfitLossForRecords]. *)
Definition processRecord (st : State) (record : TradeRecord) : result State :=
  match asxCode record with
  | None | Some EmptyString => Ok st
  | Some code =>
      let positions := ensurePosition (positions st) code in
      let position := positionOf positions code in
      if isBuy record then
        let cost := (avgPrice record * quantity record)%float in
        Ok {| positions :=
                <[code := {| Position.quantity := Position.quantity position + quantity record;
                             Position.totalCost := Position.totalCost position + cost |}]>
                  positions;
              profitLossByIndex := profitLossByIndex st |}
      else if isSell record then
        if (quantity record <=? 0)%float then Throw (NonPositiveSellQuantity code)
        else if (Position.quantity position <=? 0)%float
                || (Position.totalCost position <=? 0)%float
        then Throw (NoExistingPosition code)
        else if (quantityEpsilon <? quantity record - Position.quantity position)%float
        then Throw (OversoldPosition code)
        else
          let averageCostPerShare :=
            (Position.totalCost position / Position.quantity position)%float in
          let proceeds := (avgPrice record * quantity record)%float in
          let costBasis := (averageCostPerShare * quantity record)%float in
          let profitLoss := (proceeds - costBasis)%float in
          Ok {| positions :=
                  <[code := {| Position.quantity :=
                                 snap quantityEpsilon
                                   (Position.quantity position - quantity record);
                               Position.totalCost :=
                                 snap costEpsilon
                                   (Position.totalCost position - costBasis) |}]>
                    positions;
                profitLossByIndex :=
                  JS.set (profitLossByIndex st) (originalIndex record)
                    (JS.toFixed2 profitLoss) |}
      else Ok {| positions := positions; profitLossByIndex := profitLossByIndex st |}
  end.

(** The loop over the records in the order given: the first throw ends it. *)
Fixpoint processRecords (st : State) (records : list TradeRecord) : result State :=
  match records with
  | [] => Ok st
  | record :: records' =>
      st' ← processRecord st record;
      processRecords st' records'
  end.

Definition initialState (n : nat) : State :=
  {| positions := ∅; profitLossByIndex := replicate n (Some EmptyString) |}.

Definition calculateProfitLossForRecords (records : list TradeRecord)
  (columnInfo : ColumnInfo) : result (list (option string)) :=
  profitLossByIndex <$>
    processRecords (initialState (length records)) (sortRecords records columnInfo).

(** The lines that [buildOutputCsv] joins. *)
Definition outputLines (headerLine : string) (records : list TradeRecord)
  (profitLossByIndex : list (option string)) : list string :=
  (headerLine +:+ ",ProfitLoss") ::
  map (λ record,
         line record +:+ "," +:+
         default EmptyString (JS.get profitLossByIndex (originalIndex record)))
      records.

Definition buildOutputCsv (headerLine : string) (records : list TradeRecord)
  (profitLossByIndex : list (option string)) : string :=
  JS.join (String "010" EmptyString) (outputLines headerLine records profitLossByIndex)
  +:+ String "010" EmptyString.

Definition isBlank (s : string) : bool :=
  match JS.trim s with
  | EmptyString => true
  | _ => false
  end.

Definition calculateProfitLossCsv (inputCsv : string) : result string :=
  if isBlank inputCsv then Throw EmptyInput
  else
    match filter (λ l, isBlank l = false) (JS.splitLines (JS.trimEnd inputCsv)) with
    | [] => Throw EmptyInput
    | headerLine :: dataLines =>
        match dataLines with
        | [] => Throw NoDataRows
        | _ =>
            columnInfo ← ensureRequiredColumns (parseCsvLine headerLine);
            records ← parseRecords dataLines columnInfo;
            profitLossByIndex ← calculateProfitLossForRecords records columnInfo;
            Ok (buildOutputCsv headerLine records profitLossByIndex)
        end
    end.

End Calculator.

(** ** calculate_profit_loss.js

    The script's [main] sorts with the comparator of [sortRecords] and then
    runs its own accounting loop, which never throws. *)

Section Script.
Context {host : Host}.

(** One iteration of the loop of [main]. *)
Definition mainStep (st : State) (rec : TradeRecord) : State :=
  match asxCode rec with
  | None | Some EmptyString => st
  | Some code =>
      let positions := ensurePosition (positions st) code in
      let pos := positionOf positions code in
      if isBuy rec then
        let cost := (avgPrice rec * quantity rec)%float in
        {| positions :=
             <[code := {| Position.quantity := Position.quantity pos + quantity rec;
                          Position.totalCost := Position.totalCost pos + cost |}]>
               positions;
           profitLossByIndex := profitLossByIndex st |}
      else if isSell rec then
        let avgCostPerShare :=
          if (0 <? Position.quantity pos)%float && (0 <? Position.totalCost pos)%float
          then (Position.totalCost pos / Position.quantity pos)%float
          else 0%float in
        let proceeds := (avgPrice rec * quantity rec)%float in
        let costBasis := (avgCostPerShare * quantity rec)%float in
        let pl := (proceeds - costBasis)%float in
        {| positions :=
             <[code := {| Position.quantity :=
                            snap quantityEpsilon (Position.quantity pos - quantity rec);
                          Position.totalCost :=
                            snap costEpsilon (Position.totalCost pos - costBasis) |}]>
               positions;
           profitLossByIndex :=
             JS.set (profitLossByIndex st) (originalIndex rec) (JS.toFixed2 pl) |}
      else {| positions := positions; profitLossByIndex := profitLossByIndex st |}
  end.

Definition mainLoop (st : State) (sorted : list TradeRecord) : State :=
  foldl mainStep st sorted.

(** [plByIndex] at the end of [main], for the records [main] has parsed. *)
Definition mainProfitLoss (records : list TradeRecord) (columnInfo : ColumnInfo)
  : list (option string) :=
  profitLossByIndex
    (mainLoop (initialState (length records)) (sortRecords records columnInfo)).

End Script.

(** ** Vocabulary of the specification *)

Inductive OrderKind := Buy | Sell | Other.

Definition orderKind (record : TradeRecord) : OrderKind :=
  if isBuy record then Buy else if isSell record then Sell else Other.

(** Letter case folded away: A-Z become a-z. *)
Definition lowerLetter (c : ascii) : ascii :=
  let n := N_of_ascii c in
  if (65 <=? n)%N && (n <=? 90)%N then ascii_of_N (n + 32) else c.

Fixpoint lowerCase (s : string) : string :=
  match s with
  | EmptyString => EmptyString
  | String c s' => String (lowerLetter c) (lowerCase s')
  end.

(** The tie-break field of a record: empty when the row has none. *)
Definition tieBreak (columnInfo : ColumnInfo) (record : TradeRecord) : string :=
  default EmptyString (JS.index (cols record) (confirmationIdx columnInfo)).

Definition hasTieBreak (columnInfo : ColumnInfo) : Prop := confirmationIdx columnInfo ≠ (-1)%Z.

(** The processing order in the words of the specification, for a
    comparison [before] of tie-break texts: trade date, then the tie-break
    text when the column exists, then the original position. *)
Definition chronological (before : string → string → Prop)
  (columnInfo : ColumnInfo) (a b : TradeRecord) : Prop :=
  (tradeDate a < tradeDate b)%Z ∨
  (tradeDate a = tradeDate b ∧
   ((hasTieBreak columnInfo ∧ tieBreak columnInfo a ≠ tieBreak columnInfo b ∧
     before (tieBreak columnInfo a) (tieBreak columnInfo b)) ∨
    ((¬ hasTieBreak columnInfo ∨ tieBreak columnInfo a = tieBreak columnInfo b) ∧
     originalIndex a ≤ originalIndex b))).

(** Text order by code units. *)
Definition ordinalBefore (a b : string) : Prop := (a ?= b)%string = Lt.

(** The host's collation order. *)
Definition collatesBefore {host : Host} (a b : string) : Prop := (localeCompare a b < 0)%Z.

(** A collation that orders texts strictly and totally. *)
Class StrictCollation {host : Host} : Prop := {
  collation_zero a b : localeCompare a b = 0%Z → a = b;
  collation_flip a b : (0 < localeCompare a b)%Z → (localeCompare b a < 0)%Z;
  collation_asym a b : (localeCompare a b < 0)%Z → (0 < localeCompare b a)%Z;
  collation_trans a b c :
    (localeCompare a b < 0)%Z → (localeCompare b c < 0)%Z → (localeCompare a c < 0)%Z;
}.

(** A record at another place of the input. *)
Definition withIndex (i : nat) (r : TradeRecord) : TradeRecord :=
  {| originalIndex := i;
     line := line r;
     cols := cols r;
     asxCode := asxCode r;
     orderType := orderType r;
     tradeDate := tradeDate r;
     avgPrice := avgPrice r;
     quantity := quantity r |}.

(** The records as [parseRecords] numbers them: each by its place. *)
Definition reindex (records : list TradeRecord) : list TradeRecord :=
  imap withIndex records.

(** What orders a record before the original position is consulted. *)
Definition sortKey (columnInfo : ColumnInfo) (r : TradeRecord) : Z * string :=
  (tradeDate r, if decide (hasTieBreak columnInfo) then tieBreak columnInfo r else EmptyString).

(** [parseAmount] in the words of the specification: quote characters and
    white space are stripped where they surround the text. *)
Definition isQuoteOrSpace (c : ascii) : bool := Ascii.eqb c quote || JS.isWhiteSpace c.

Fixpoint stripStart (s : string) : string :=
  match s with
  | String c s' => if isQuoteOrSpace c then stripStart s' else s
  | EmptyString => EmptyString
  end.

Fixpoint stripEnd (s : string) : string :=
  match s with
  | EmptyString => EmptyString
  | String c s' =>
      match stripEnd s' with
      | EmptyString => if isQuoteOrSpace c then EmptyString else String c EmptyString
      | t => String c t
      end
  end.

Definition parseAmount (text : string) : result float :=
  match stripEnd (stripStart text) with
  | EmptyString => Ok 0%float
  | t => if is_nan (JS.Number t) then Throw (InvalidNumber text) else Ok (JS.Number t)
  end.

(** The sales the strict engine accepts, in the words used for them: a
    positive quantity, a position whose quantity and cost are positive, and
    a quantity that does not exceed the position's by more than [1e-8]. The
    positions are those the loop of [main] reaches. *)
Definition saleAllowed (st : State) (r : TradeRecord) : Prop :=
  match asxCode r with
  | None | Some EmptyString => True
  | Some code =>
      if negb (isBuy r) && isSell r then
        let pos := positionOf (positions st) code in
        (0 <? quantity r)%float = true ∧
        (0 <? Position.quantity pos)%float = true ∧
        (0 <? Position.totalCost pos)%float = true ∧
        (quantityEpsilon <? quantity r - Position.quantity pos)%float = false
      else True
  end.

Fixpoint salesAllowed (st : State) (sorted : list TradeRecord) : Prop :=
  match sorted with
  | [] => True
  | r :: sorted' => saleAllowed st r ∧ salesAllowed (mainStep st r) sorted'
  end.

(** ** Hosts *)

Definition ordinalCompare (a b : string) : Z :=
  match (a ?= b)%string with
  | Lt => -1
  | Eq => 0
  | Gt => 1
  end.

(** Letters compare without their case first and lower case goes first
    among equals, as the root collation of CLDR orders them. *)
Definition caseFirstCompare (a b : string) : Z :=
  match (lowerCase a ?= lowerCase b)%string with
  | Lt => -1
  | Gt => 1
  | Eq => ordinalCompare b a
  end.

Definition daysFromCivil (y m d : Z) : Z :=
  let y' := if (m <=? 2)%Z then (y - 1)%Z else y in
  let era := (y' / 400)%Z in
  let yoe := (y' - era * 400)%Z in
  let mp := ((m + 9) mod 12)%Z in
  let doy := ((153 * mp + 2) / 5 + d - 1)%Z in
  let doe := (yoe * 365 + yoe / 4 - yoe / 100 + doy)%Z in
  (era * 146097 + doe - 719468)%Z.

Definition daysInMonth (y m : Z) : Z :=
  if (m =? 2)%Z then
    if ((y mod 4 =? 0) && negb (y mod 100 =? 0) || (y mod 400 =? 0))%Z then 29 else 28
  else if ((m =? 4) || (m =? 6) || (m =? 9) || (m =? 11))%Z then 30 else 31.

(** The date-only form [YYYY-MM-DD] of ECMA-262, read as midnight UTC;
    every other text is an invalid date for this host. *)
Definition isoDate (s : string) : option Z :=
  match JS.readDigits 10 0 0 s with
  | (y, 4, String "-" s1) =>
      match JS.readDigits 10 0 0 s1 with
      | (m, 2, String "-" s2) =>
          match JS.readDigits 10 0 0 s2 with
          | (d, 2, EmptyString) =>
              let '(y, m, d) := (Z.of_N y, Z.of_N m, Z.of_N d) in
              if ((1 <=? m) && (m <=? 12) && (1 <=? d) && (d <=? daysInMonth y m))%Z
              then Some (daysFromCivil y m d * 86400000)%Z
              else None
          | _ => None
          end
      | _ => None
      end
  | _ => None
  end.

Definition ordinalHost : Host :=
  {| localeCompare := ordinalCompare; dateParse := isoDate |}.

Definition caseFirstHost : Host :=
  {| localeCompare := caseFirstCompare; dateParse := isoDate |}.

(** ** Collation of the texts of a ledger *)

(** The host's collation is a strict total order on the texts of a list:
    what [sortRecords] needs of [localeCompare] for the texts it compares. *)
Definition strictOn {host : Host} (texts : list string) : Prop :=
  ∀ a b, a ∈ texts → b ∈ texts →
    (localeCompare a b = 0%Z → a = b) ∧
    ((0 < localeCompare a b)%Z → (localeCompare b a < 0)%Z) ∧
    ((localeCompare a b < 0)%Z → (0 < localeCompare b a)%Z) ∧
    ∀ c, c ∈ texts →
         (localeCompare a b < 0)%Z → (localeCompare b c < 0)%Z → (localeCompare a c < 0)%Z.

(** The tie-break texts of the records are strictly ordered by the
    collation. Nothing is asked of the host when there is no tie-break
    column: [localeCompare] is not called then. *)
Definition tieBreaksCollate {host : Host} (columnInfo : ColumnInfo)
  (records : list TradeRecord) : Prop :=
  hasTieBreak columnInfo → strictOn (tieBreak columnInfo <$> records).

(** A record whose tie-break text is one of [texts]. *)
Definition tieBreakAmong (columnInfo : ColumnInfo) (texts : list string) (r : TradeRecord)
  : Prop :=
  hasTieBreak columnInfo → tieBreak columnInfo r ∈ texts.

(** A collation that ignores the control character U+0001, as the collations
    of the usual hosts ignore control characters: texts that differ in it
    only compare as equal, so it is no strict order of all texts. *)
Definition lenientCompare (a b : string) : Z :=
  ordinalCompare (JS.removeAll "001" a) (JS.removeAll "001" b).

Definition lenientHost : Host :=
  {| localeCompare := lenientCompare; dateParse := isoDate |}.

(** A host whose collation finds every two texts equal. *)
Definition indifferentHost : Host :=
  {| localeCompare := λ _ _, 0%Z; dateParse := isoDate |}.

(** ** Ledgers of the test suite *)

Definition baseHeader : string :=
  JS.join ","
    ["Account Number"; "Account Name"; "AsxCode"; "Confirmation Number"; "Order Type";
     "As at Date"; "Trade Date"; "Settlement Date"; "Avg Price"; "Exch Rate"; "Price";
     "Quantity"; "Brokerage"; "GST"; "Stampduty"; "Application Fee"; "OtherCharge";
     "Fee"; "Discount"; "Consideration"; "Reverse Confirmation Number"].

Definition buildRow (asxCode confirmationNumber orderType tradeDate avgPrice quantity : string)
  : string :=
  JS.join ","
    ["722178"; "MR TEST"; asxCode; confirmationNumber; orderType; EmptyString; tradeDate;
     EmptyString; avgPrice; "1.000000"; EmptyString; quantity; "0.00"; "0.00"; "0.00";
     "0.00"; "0.00"; "0.00"; "0.00"; "0.00"; "0"].

(** The columns of [baseHeader]. *)
Definition baseColumns : ColumnInfo :=
  {| headerCols := JS.split "," baseHeader;
     columnIndex := indexColumns 0 (JS.split "," baseHeader) ∅;
     asxIdx := 2; orderTypeIdx := 4; tradeDateIdx := 6; avgPriceIdx := 8; qtyIdx := 11;
     confirmationIdx := 3 |}.

(** The columns of a ledger without a confirmation number. *)
Definition plainColumns : ColumnInfo :=
  {| headerCols := ["AsxCode"; "Order Type"; "Trade Date"; "Avg Price"; "Quantity"];
     columnIndex :=
       indexColumns 0 ["AsxCode"; "Order Type"; "Trade Date"; "Avg Price"; "Quantity"] ∅;
     asxIdx := 0; orderTypeIdx := 1; tradeDateIdx := 2; avgPriceIdx := 3; qtyIdx := 4;
     confirmationIdx := -1 |}.

(** A record of a ledger with [plainColumns], dated in days. *)
Definition trade (originalIndex : nat) (code kind : string) (day : Z) (price qty : float)
  : TradeRecord :=
  {| originalIndex := originalIndex;
     line := EmptyString;
     cols := [];
     asxCode := Some code;
     orderType := Some kind;
     tradeDate := (day * 86400000)%Z;
     avgPrice := price;
     quantity := qty |}.

(** A record of a ledger with [baseColumns] that has only its confirmation
    number filled in. *)
Definition confirmed (originalIndex : nat) (confirmation : string) : TradeRecord :=
  {| originalIndex := originalIndex;
     line := EmptyString;
     cols := [EmptyString; EmptyString; EmptyString; confirmation];
     asxCode := None;
     orderType := None;
     tradeDate := 0;
     avgPrice := 0;
     quantity := 0 |}.

(** Buy 10 at 10 and buy 10 at 20, then sell 10 at 30, one day after the
    other, given with the sale first. *)
Definition averageLedger : list TradeRecord :=
  [trade 0 "ABC" "Sell" 3 30 10; trade 1 "ABC" "Buy" 2 20 10; trade 2 "ABC" "Buy" 1 10 10].

(** The state in which the sale of [averageLedger] is processed. *)
Definition afterTwoBuys : State :=
  {| positions := {[ "ABC" := {| Position.quantity := 20; Position.totalCost := 300 |} ]};
     profitLossByIndex := [Some EmptyString; Some EmptyString; Some EmptyString] |}.

(** A sale with nothing bought before. *)
Definition nakedSale : list TradeRecord := [trade 0 "XYZ" "Sell" 1 10 1].

(** A dividend row, a Buy row without a code, and rows whose order type is
    padded or quoted. *)
Definition dividendRow : TradeRecord := trade 1 "AAA" "Dividend" 2 1 1.

Definition blankCodeRow : TradeRecord := trade 0 EmptyString "Buy" 1 10 10.

Definition paddedBuy : string := " Buy".

Definition quotedSell : string := String quote ("Sell" +:+ String quote EmptyString).

(** Every code unit below 256. *)
Definition codeUnits : list ascii := map ascii_of_nat (seq 0 256).

(** A purchase of a negative quantity. *)
Definition negativeBuy : list TradeRecord := [trade 0 "A" "Buy" 1 10 (-5)].

(** A purchase of [1e-8] units and a sale of twice as many: the excess is
    the tolerance itself. *)
Definition toleratedOversale : list TradeRecord :=
  [trade 0 "A" "Buy" 1 1 quantityEpsilon; trade 1 "A" "Sell" 2 1 (2 * quantityEpsilon)].

(** A purchase of one unit for a million and a sale of [1.00000001] units
    (its binary64 value: a little less than [1e-8] more than is held). *)
Definition costlyOversale : list TradeRecord :=
  [trade 0 "A" "Buy" 1 1000000 1; trade 1 "A" "Sell" 2 1 0x1.0000002af31dcp+0].

(** Three rows of one day whose confirmation numbers are 2, 1 and 3. *)
Definition sameDayLedger : list TradeRecord :=
  [confirmed 0 "2"; confirmed 1 "1"; confirmed 2 "3"].

(** Two rows of one day confirmed as B and as a. *)
Definition mixedCaseLedger : list TradeRecord := [confirmed 0 "B"; confirmed 1 "a"].

(** A record without its place in the input. *)
Definition content (r : TradeRecord) : TradeRecord := withIndex 0 r.

(** Two purchases and a sale of one day, and the same rows with the sale
    given second. *)
Definition sameDayTrades : list TradeRecord :=
  [trade 0 "A" "Buy" 1 10 10; trade 0 "A" "Buy" 1 20 10; trade 0 "A" "Sell" 1 30 10].

Definition sameDayTradesReordered : list TradeRecord :=
  [trade 0 "A" "Buy" 1 10 10; trade 0 "A" "Sell" 1 30 10; trade 0 "A" "Buy" 1 20 10].

(** The rows of [averageLedger] in another order. *)
Definition averageLedgerReordered : list TradeRecord :=
  [trade 2 "ABC" "Buy" 1 10 10; trade 0 "ABC" "Sell" 3 30 10; trade 1 "ABC" "Buy" 2 20 10].

(** The digits 1 and 2 with a quote character between them. *)
Definition quoteInside : string := String "1" (String quote "2").

(** The field [10.50] followed by a blank, between quotes. *)
Definition quotedAmount : string := String quote ("10.50 " +:+ String quote EmptyString).

(** The characters [toFixed] writes. *)
Definition numericChars : string := "0123456789.-+eNaInfity".

(** Every character of [s] is one of [alphabet]. *)
Fixpoint madeOf (alphabet s : string) : bool :=
  match s with
  | EmptyString => true
  | String c s' => JS.contains c alphabet && madeOf alphabet s'
  end.

Definition newline : string := String "010" EmptyString.

(** The ledger of the end-to-end test: buy 10 at 10, then sell 4 at 12. *)
Definition sampleCsv : string :=
  JS.join newline
    [baseHeader;
     buildRow "AAA" "1" "Buy" "2024-01-01" "10" "10";
     buildRow "AAA" "2" "Sell" "2024-01-02" "12" "4"] +:+ newline.

Definition sampleOutput : string :=
  JS.join newline
    [baseHeader +:+ ",ProfitLoss";
     buildRow "AAA" "1" "Buy" "2024-01-01" "10" "10" +:+ ",";
     buildRow "AAA" "2" "Sell" "2024-01-02" "12" "4" +:+ ",8.00"] +:+ newline.

(** Every result written so far is made of the characters of [toFixed]. *)
Definition numericCells (results : list (option string)) : Prop :=
  ∀ j v, JS.get results j = Some v → madeOf numericChars v = true.

(** The field appended to the row of a record. *)
Definition appendedField (profitLossByIndex : list (option string)) (record : TradeRecord)
  : string :=
  default EmptyString (JS.get profitLossByIndex (originalIndex record)).

(** Two result arrays hold the same at the places a record has in two
    inputs. *)
Definition sameByRecord (records records' : list TradeRecord)
  (res res' : list (option string)) : Prop :=
  ∀ i j r, records !! i = Some r → records' !! j = Some r → JS.get res i = JS.get res' j.

(** ** Vocabulary of the further properties *)

(** How often a character occurs in a text. *)
Fixpoint occurrences (c : ascii) (s : string) : nat :=
  match s with
  | EmptyString => 0
  | String c' s' => (if Ascii.eqb c' c then 1 else 0) + occurrences c s'
  end.

(** A Sell record that has an instrument code: the records the loop gives
    a result to. *)
Definition sellWithCode (r : TradeRecord) : bool :=
  match asxCode r with
  | Some (String _ _) => isSell r
  | _ => false
  end.

(** The lines of an input that are not blank, as [calculateProfitLossCsv]
    takes them. *)
Definition nonBlankLines (inputCsv : string) : list string :=
  filter (λ l, isBlank l = false) (JS.splitLines (JS.trimEnd inputCsv)).

(** A text with every line feed preceded by a carriage return. *)
Fixpoint crlf (s : string) : string :=
  match s with
  | EmptyString => EmptyString
  | String c s' =>
      if Ascii.eqb c "010" then String "013" (String "010" (crlf s'))
      else String c (crlf s')
  end.

(** The ledger of the test with two instruments. *)
Definition twoInstruments : list TradeRecord :=
  [trade 0 "AAA" "Buy" 1 10 10; trade 1 "AAA" "Buy" 2 20 10; trade 2 "BBB" "Buy" 1 5 4;
   trade 3 "AAA" "Sell" 3 25 5; trade 4 "BBB" "Sell" 2 6 4].

(** The place of the last column of a name in a header. *)
Definition lastOccurrence (names : list string) (name : string) (i : nat) : Prop :=
  names !! i = Some name ∧ ∀ j, i < j → names !! j ≠ Some name.

(** A header that names the Quantity column twice. *)
Definition repeatedHeader : list string :=
  ["Quantity"; "AsxCode"; "Order Type"; "Trade Date"; "Avg Price"; "Quantity"].

(** A Buy of a negative quantity. *)
Definition negativeBuyRow : TradeRecord := trade 2 "AAA" "Buy" 3 10 (-5).

(** The data rows of the end-to-end test. *)
Definition sampleRows : list string :=
  [buildRow "AAA" "1" "Buy" "2024-01-01" "10" "10";
   buildRow "AAA" "2" "Sell" "2024-01-02" "12" "4"].

(** A text of white space only. *)
Fixpoint blank (s : string) : bool :=
  match s with
  | EmptyString => true
  | String c s' => JS.isWhiteSpace c && blank s'
  end.

(** The input of the end-to-end test with blank lines put in. *)
Definition sampleCsvSpaced : string :=
  JS.join newline
    [" "; baseHeader; EmptyString;
     buildRow "AAA" "1" "Buy" "2024-01-01" "10" "10"; "  ";
     buildRow "AAA" "2" "Sell" "2024-01-02" "12" "4"; EmptyString; EmptyString].
(** ** calculate_profit_loss.js: the header

    [main] of the script looks its columns up with [indexOf] and throws one
    error, without a list of names, when one of the five is missing. *)

(** [l.indexOf(x)]: the first place of [x] in [l], or -1. *)
Definition indexOf (l : list string) (x : string) : Z :=
  match list_find (λ y, y = x) l with
  | Some (i, _) => Z.of_nat i
  | None => -1
  end.

Record MainColumns := {
  mainAsxIdx : Z;
  mainOrderTypeIdx : Z;
  mainTradeDateIdx : Z;
  mainAvgPriceIdx : Z;
  mainQtyIdx : Z;
  mainConfirmationIdx : Z;
}.

(** The column indices of [main]; [None] when it throws. *)
Definition mainColumns (headerCols : list string) : option MainColumns :=
  let asxIdx := indexOf headerCols "AsxCode" in
  let orderTypeIdx := indexOf headerCols "Order Type" in
  let tradeDateIdx := indexOf headerCols "Trade Date" in
  let avgPriceIdx := indexOf headerCols "Avg Price" in
  let qtyIdx := indexOf headerCols "Quantity" in
  let confirmationIdx := indexOf headerCols "Confirmation Number" in
  if existsb (λ i, i =? -1)%Z [asxIdx; orderTypeIdx; tradeDateIdx; avgPriceIdx; qtyIdx]
  then None
  else Some {| mainAsxIdx := asxIdx;
               mainOrderTypeIdx := orderTypeIdx;
               mainTradeDateIdx := tradeDateIdx;
               mainAvgPriceIdx := avgPriceIdx;
               mainQtyIdx := qtyIdx;
               mainConfirmationIdx := confirmationIdx |}.

(** The place of the first column of a name in a header. *)
Definition firstOccurrence (names : list string) (name : string) (i : nat) : Prop :=
  names !! i = Some name ∧ ∀ j, j < i → names !! j ≠ Some name.

(** The names of the columns the two programs look up. *)
Definition trackedColumns : list string := "Confirmation Number" :: requiredColumns.

(** No two records of one instrument share both their trade date and their
    tie-break text. *)
Definition instrumentKeysDistinct (columnInfo : ColumnInfo) (records : list TradeRecord)
  : Prop :=
  ∀ code, code ≠ EmptyString →
    NoDup (sortKey columnInfo <$> filter (λ r, asxCode r = Some code) records).

(** The ledger [twoInstruments] with the rows of the second instrument
    given first. *)
Definition twoInstrumentsReordered : list TradeRecord :=
  [trade 2 "BBB" "Buy" 1 5 4; trade 4 "BBB" "Sell" 2 6 4; trade 0 "AAA" "Buy" 1 10 10;
   trade 1 "AAA" "Buy" 2 20 10; trade 3 "AAA" "Sell" 3 25 5].

(** A record of a ledger with [baseColumns]: an order of the instrument A,
    of the first day, with its confirmation number. *)
Definition confirmedTrade (originalIndex : nat) (confirmation kind : string)
  (price qty : float) : TradeRecord :=
  {| originalIndex := originalIndex;
     line := EmptyString;
     cols := [EmptyString; EmptyString; EmptyString; confirmation];
     asxCode := Some "A";
     orderType := Some kind;
     tradeDate := 0;
     avgPrice := price;
     quantity := qty |}.

(** Two purchases and a sale of one day whose confirmation numbers differ
    in the character U+0001 only, and the same rows with the sale given
    second. *)
Definition collatedAlike : list TradeRecord :=
  [confirmedTrade 0 "1" "Buy" 10 10;
   confirmedTrade 0 (String "001" "1") "Buy" 20 10;
   confirmedTrade 0 (String "001" (String "001" "1")) "Sell" 30 10].

Definition collatedAlikeReordered : list TradeRecord :=
  [confirmedTrade 0 "1" "Buy" 10 10;
   confirmedTrade 0 (String "001" (String "001" "1")) "Sell" 30 10;
   confirmedTrade 0 (String "001" "1") "Buy" 20 10].

(** Two rows of one day whose confirmation numbers differ in the character
    U+0001 only, the later row given first. *)
Definition alikeLedger : list TradeRecord :=
  [confirmed 1 (String "001" "1"); confirmed 0 "1"].

(** A ledger whose last row ends with a blank, and the output for it. *)
Definition paddedCsv : string :=
  JS.join newline
    [baseHeader;
     buildRow "AAA" "1" "Buy" "2024-01-01" "10" "10";
     buildRow "AAA" "2" "Sell" "2024-01-02" "12" "4" +:+ " "] +:+ newline.

(** * Verification *)

(** ** Arrays, floats and positions *)

Lemma get_set {A} (arr : list (option A)) (i j : nat) (v : A) :
  JS.get (JS.set arr i v) j = if decide (i = j) then Some v else JS.get arr j.
Proof.
  unfold JS.get, JS.set.
  destruct (decide (i < length arr)) as [Hin|Hout].
  - destruct (decide (i = j)) as [->|Hne].
    + by rewrite list_lookup_insert_eq.
    + by rewrite list_lookup_insert_ne.
  - destruct (decide (i = j)) as [<-|Hne].
    + rewrite lookup_app_r by lia.
      rewrite lookup_app_r by (rewrite length_replicate; lia).
      rewrite length_replicate, Nat.sub_diag. done.
    + destruct (decide (j < length arr)) as [Hj|Hj].
      * by rewrite lookup_app_l.
      * rewrite lookup_app_r by lia.
        rewrite (lookup_ge_None_2 arr j) by lia.
        destruct (decide (j < i)) as [Hlt|Hge].
        -- rewrite lookup_app_l by (rewrite length_replicate; lia).
           rewrite lookup_replicate_2 by lia. done.
        -- rewrite lookup_app_r by (rewrite length_replicate; lia).
           rewrite length_replicate.
           destruct (j - length arr - (i - length arr)) as [|k] eqn:Hk; [lia|done].
Qed.

(** A positive number is not at most zero; the converse fails for NaN. *)
Lemma positive_not_leb_zero (x : float) :
  (0 <? x)%float = true → (x <=? 0)%float = false.
Proof.
  rewrite ltb_spec, leb_spec. unfold SFltb, SFleb.
  change (Prim2SF 0) with (S754_zero false).
  destruct (Prim2SF x) as [s|s| |s m e]; simpl; try discriminate;
    destruct s; simpl; try discriminate; reflexivity.
Qed.

Lemma positionOf_ensurePosition (ps : gmap string Position.t) (code code' : string) :
  positionOf (ensurePosition ps code) code' = positionOf ps code'.
Proof.
  unfold positionOf, ensurePosition.
  destruct (ps !! code) as [p|] eqn:Hp; [done|].
  destruct (decide (code = code')) as [<-|Hne].
  - by rewrite lookup_insert_eq, Hp.
  - by rewrite lookup_insert_ne.
Qed.

Lemma positionOf_insert (ps : gmap string Position.t) (code code' : string) (p : Position.t) :
  positionOf (<[code := p]> ps) code' =
  if decide (code = code') then p else positionOf ps code'.
Proof.
  unfold positionOf. destruct (decide (code = code')) as [<-|Hne].
  - by rewrite lookup_insert_eq.
  - by rewrite lookup_insert_ne.
Qed.

Lemma testWhole_length (pattern s : string) :
  JS.testWhole pattern s = true → String.length s = String.length pattern.
Proof.
  revert s. induction pattern as [|p pattern IH]; intros [|c s]; simpl; try done.
  intros [_ Hs]%andb_prop. by rewrite (IH s Hs).
Qed.

Lemma isSell_not_isBuy (r : TradeRecord) : isSell r = true → isBuy r = false.
Proof.
  unfold isSell, isBuy. intros Hs%testWhole_length.
  destruct (JS.testWhole "buy" _) eqn:Hb; [|done].
  apply testWhole_length in Hb. rewrite Hs in Hb. discriminate.
Qed.

(** ** The loop body, case by case *)

Lemma processRecord_no_code (st : State) (r : TradeRecord) :
  asxCode r = None ∨ asxCode r = Some EmptyString → processRecord st r = Ok st.
Proof. unfold processRecord. by intros [-> | ->]. Qed.

Lemma processRecord_buy (st : State) (r : TradeRecord) (code : string) :
  asxCode r = Some code → code ≠ EmptyString → isBuy r = true →
  processRecord st r =
  Ok {| positions :=
          <[code := {| Position.quantity :=
                         Position.quantity (positionOf (positions st) code) + quantity r;
                       Position.totalCost :=
                         Position.totalCost (positionOf (positions st) code)
                         + avgPrice r * quantity r |}]>
            (ensurePosition (positions st) code);
        profitLossByIndex := profitLossByIndex st |}.
Proof.
  intros Hcode Hne Hbuy. unfold processRecord. rewrite Hcode.
  destruct code as [|c code]; [done|]. rewrite Hbuy.
  by rewrite positionOf_ensurePosition.
Qed.

Lemma processRecord_sell (st : State) (r : TradeRecord) (code : string) :
  asxCode r = Some code → code ≠ EmptyString → isSell r = true →
  processRecord st r =
  let position := positionOf (positions st) code in
  if (quantity r <=? 0)%float then Throw (NonPositiveSellQuantity code)
  else if (Position.quantity position <=? 0)%float
          || (Position.totalCost position <=? 0)%float
  then Throw (NoExistingPosition code)
  else if (quantityEpsilon <? quantity r - Position.quantity position)%float
  then Throw (OversoldPosition code)
  else
    let costBasis :=
      (Position.totalCost position / Position.quantity position * quantity r)%float in
    Ok {| positions :=
            <[code := {| Position.quantity :=
                           snap quantityEpsilon (Position.quantity position - quantity r);
                         Position.totalCost :=
                           snap costEpsilon (Position.totalCost position - costBasis) |}]>
              (ensurePosition (positions st) code);
          profitLossByIndex :=
            JS.set (profitLossByIndex st) (originalIndex r)
              (JS.toFixed2 (avgPrice r * quantity r - costBasis)) |}.
Proof.
  intros Hcode Hne Hsell. unfold processRecord. rewrite Hcode.
  destruct code as [|c code]; [done|].
  rewrite (isSell_not_isBuy r Hsell), Hsell.
  by rewrite positionOf_ensurePosition.
Qed.

Lemma processRecord_other (st : State) (r : TradeRecord) (code : string) :
  asxCode r = Some code → code ≠ EmptyString → orderKind r = Other →
  processRecord st r =
  Ok {| positions := ensurePosition (positions st) code;
        profitLossByIndex := profitLossByIndex st |}.
Proof.
  intros Hcode Hne Hkind. unfold processRecord. rewrite Hcode.
  destruct code as [|c code]; [done|].
  unfold orderKind in Hkind.
  destruct (isBuy r); [done|]. destruct (isSell r); done.
Qed.

Lemma processRecords_app (st : State) (l1 l2 : list TradeRecord) :
  processRecords st (l1 ++ l2) = (processRecords st l1 ≫= λ st', processRecords st' l2).
Proof.
  revert st. induction l1 as [|r l1 IH]; intros st; simpl; [done|].
  destruct (processRecord st r) as [st'|e]; simpl; [apply IH|done].
Qed.

(** ** The sale *)

(** C2. A Sell record with a code is refused with NonPositiveSellQuantity
    when its quantity is at most zero; otherwise with NoExistingPosition
    when the held quantity or the total cost is at most zero; otherwise with
    OversoldPosition when its quantity minus the held quantity is above
    1e-8; and the refusal is the outcome of the whole run. *)
Theorem sell_checks_abort_run (st : State) (record : TradeRecord) (code : string) :
  asxCode record = Some code → code ≠ EmptyString → isSell record = true →
  let position := positionOf (positions st) code in
  ((quantity record <=? 0)%float = true →
   processRecord st record = Throw (NonPositiveSellQuantity code)) ∧
  ((quantity record <=? 0)%float = false →
   (Position.quantity position <=? 0)%float = true
   ∨ (Position.totalCost position <=? 0)%float = true →
   processRecord st record = Throw (NoExistingPosition code)) ∧
  ((quantity record <=? 0)%float = false →
   (Position.quantity position <=? 0)%float = false →
   (Position.totalCost position <=? 0)%float = false →
   (quantityEpsilon <? quantity record - Position.quantity position)%float = true →
   processRecord st record = Throw (OversoldPosition code)) ∧
  (∀ (host : Host) (e : Error) (records : list TradeRecord) (columnInfo : ColumnInfo)
     (earlier later : list TradeRecord),
     processRecord st record = Throw e →
     sortRecords records columnInfo = earlier ++ record :: later →
     processRecords (initialState (length records)) earlier = Ok st →
     calculateProfitLossForRecords records columnInfo = Throw e).
Proof.
  intros Hcode Hne Hsell position.
  rewrite (processRecord_sell st record code Hcode Hne Hsell). cbv zeta.
  fold position. repeat split.
  - by intros ->.
  - intros -> Hnone.
    assert ((Position.quantity position <=? 0)%float
            || (Position.totalCost position <=? 0)%float = true) as ->; [|done].
    destruct Hnone as [-> | ->]; [done|by rewrite orb_true_r].
  - by intros -> -> -> ->.
  - intros host e records columnInfo earlier later Hthrow Hsorted Hearlier.
    unfold calculateProfitLossForRecords.
    rewrite Hsorted, processRecords_app, Hearlier. simpl.
    rewrite (processRecord_sell st record code Hcode Hne Hsell). cbv zeta.
    fold position. by rewrite Hthrow.
Qed.

Lemma sell_checks_abort_run_witness :
  calculateProfitLossForRecords (host := ordinalHost) nakedSale plainColumns
  = Throw (NoExistingPosition "XYZ").
Proof.
  destruct (sell_checks_abort_run (initialState 1) (trade 0 "XYZ" "Sell" 1 10 1) "XYZ")
    as (_ & Hnone & _ & Habort); [reflexivity | discriminate | reflexivity |].
  apply (Habort ordinalHost _ nakedSale plainColumns [] []); [|reflexivity..].
  apply Hnone; [reflexivity | left; reflexivity].
Defined.

(** ** Records that take no part *)

(** A record without a code, or whose kind is Other, is passed over: the
    results are kept, and so is every position, a code not seen before
    counting as the zero position the loop creates for it. *)
Lemma processRecord_inert (st : State) (record : TradeRecord) :
  (asxCode record = None ∨ asxCode record = Some EmptyString) ∨ orderKind record = Other →
  ∃ st', processRecord st record = Ok st' ∧
    profitLossByIndex st' = profitLossByIndex st ∧
    (∀ code, positionOf (positions st') code = positionOf (positions st) code) ∧
    (positions st' = positions st
     ∨ ∃ code, asxCode record = Some code ∧ positions st !! code = None
               ∧ positions st' = <[code := Position.zero]> (positions st)).
Proof.
  intros Hinert.
  destruct (asxCode record) as [code|] eqn:Hcode.
  - destruct (decide (code = EmptyString)) as [->|Hne].
    + exists st. rewrite processRecord_no_code by auto. auto.
    + destruct Hinert as [[?|?]|Hother]; [congruence..|].
      rewrite (processRecord_other st record code Hcode Hne Hother).
      eexists. split; [reflexivity|]. simpl. split; [done|]. split.
      * intros code'. apply positionOf_ensurePosition.
      * unfold ensurePosition. destruct (positions st !! code) eqn:Hp; [by left|].
        right. by exists code.
  - exists st. rewrite processRecord_no_code by auto. auto.
Qed.

(** C7. Processing a record with an empty instrument code or with order
    kind Other writes no result and leaves every instrument's position as it
    was, an instrument not seen before counting as the zero position it is
    created with: the table of positions is the same, or has gained that
    zero position for the record's code. A record without a code leaves the
    whole state as it was. *)
Theorem inert_records_change_nothing (st : State) (record : TradeRecord) :
  (asxCode record = None ∨ asxCode record = Some EmptyString) ∨ orderKind record = Other →
  ∃ st', processRecord st record = Ok st' ∧
    profitLossByIndex st' = profitLossByIndex st ∧
    JS.get (profitLossByIndex st') (originalIndex record)
    = JS.get (profitLossByIndex st) (originalIndex record) ∧
    (∀ code, positionOf (positions st') code = positionOf (positions st) code) ∧
    (positions st' = positions st
     ∨ ∃ code, asxCode record = Some code ∧ positions st !! code = None
               ∧ positions st' = <[code := Position.zero]> (positions st)) ∧
    (asxCode record = None ∨ asxCode record = Some EmptyString → st' = st).
Proof.
  intros Hinert.
  destruct (processRecord_inert st record Hinert) as (st' & Hstep & Hres & Hpos & Htable).
  exists st'. repeat split; try done.
  - by rewrite Hres.
  - intros Hno. rewrite processRecord_no_code in Hstep by done. congruence.
Qed.

Lemma inert_records_change_nothing_witness :
  ∃ st', processRecord afterTwoBuys dividendRow = Ok st' ∧
    profitLossByIndex st' = profitLossByIndex afterTwoBuys ∧
    positionOf (positions st') "AAA" = Position.zero ∧
    positionOf (positions st') "ABC" = positionOf (positions afterTwoBuys) "ABC".
Proof.
  destruct (inert_records_change_nothing afterTwoBuys dividendRow)
    as (st' & Hstep & Hres & _ & Hpos & _ & _); [right; reflexivity|].
  exists st'. split; [exact Hstep|]. split; [exact Hres|].
  split; [rewrite Hpos; reflexivity | apply Hpos].
Defined.

(** ** Order kinds *)

Lemma canonicalize_lowerLetter_all :
  forallb (λ p, forallb (λ c,
    Bool.eqb (Ascii.eqb (JS.canonicalize p) (JS.canonicalize c))
             (Ascii.eqb (lowerLetter p) (lowerLetter c))) codeUnits) codeUnits = true.
Proof. vm_compute. reflexivity. Qed.

Lemma codeUnits_complete (c : ascii) : In c codeUnits.
Proof.
  unfold codeUnits. rewrite <- (ascii_nat_embedding c).
  apply in_map, in_seq. pose proof (nat_ascii_bounded c). lia.
Qed.

Lemma canonicalize_lowerLetter (p c : ascii) :
  Ascii.eqb (JS.canonicalize p) (JS.canonicalize c) = true ↔ lowerLetter p = lowerLetter c.
Proof.
  pose proof canonicalize_lowerLetter_all as Hall.
  rewrite forallb_forall in Hall. specialize (Hall p (codeUnits_complete p)).
  rewrite forallb_forall in Hall. specialize (Hall c (codeUnits_complete c)).
  apply Bool.eqb_prop in Hall. rewrite Hall. apply Ascii.eqb_eq.
Qed.

Lemma testWhole_lowerCase (pattern s : string) :
  JS.testWhole pattern s = true ↔ lowerCase s = lowerCase pattern.
Proof.
  revert s. induction pattern as [|p pattern IH]; intros [|c s]; simpl; try done.
  rewrite andb_true_iff, canonicalize_lowerLetter, IH.
  split.
  - intros [-> ->]. done.
  - intros [= -> ->]. done.
Qed.

(** C9. The order type is matched as it stands, without trimming or
    unquoting: a record is a Buy (a Sell) exactly when its order-type field
    is "buy" ("sell") up to letter case; a field such as " Buy", or Sell
    between double quotes, makes it Other, and a record of kind Other changes no
    position and writes no result. *)
Theorem order_kind_matches_whole_field (record : TradeRecord) :
  (orderKind record = Buy ↔ ∃ s, orderType record = Some s ∧ lowerCase s = "buy") ∧
  (orderKind record = Sell ↔ ∃ s, orderType record = Some s ∧ lowerCase s = "sell") ∧
  (orderType record = Some paddedBuy ∨ orderType record = Some quotedSell →
   orderKind record = Other) ∧
  (∀ st, orderKind record = Other →
     ∃ st', processRecord st record = Ok st' ∧
       profitLossByIndex st' = profitLossByIndex st ∧
       (∀ code, positionOf (positions st') code = positionOf (positions st) code)).
Proof.
  assert (∀ pattern, pattern = "buy" ∨ pattern = "sell" →
            JS.testWhole pattern (JS.toString (orderType record)) = true ↔
            ∃ s, orderType record = Some s ∧ lowerCase s = pattern) as Hmatch.
  { intros pattern Hpat. rewrite testWhole_lowerCase.
    assert (lowerCase pattern = pattern) as -> by (by destruct Hpat as [-> | ->]).
    destruct (orderType record) as [s|]; simpl.
    - split; [by exists s|]. by intros (s' & [= <-] & ?).
    - split; [by destruct Hpat as [-> | ->]|]. by intros (s' & [=] & ?). }
  repeat split.
  - unfold orderKind. intros Hkind. apply (Hmatch "buy"); [by left|].
    fold (isBuy record). destruct (isBuy record); [done|].
    by destruct (isSell record).
  - intros Hs. apply (Hmatch "buy") in Hs; [|by left].
    unfold orderKind. fold (isBuy record) in Hs. by rewrite Hs.
  - unfold orderKind. intros Hkind. apply (Hmatch "sell"); [by right|].
    fold (isSell record). destruct (isBuy record); [done|].
    by destruct (isSell record).
  - intros Hs. apply (Hmatch "sell") in Hs; [|by right].
    fold (isSell record) in Hs. unfold orderKind.
    by rewrite (isSell_not_isBuy record Hs), Hs.
  - unfold orderKind, isBuy, isSell. by intros [-> | ->].
  - intros st Hother.
    destruct (processRecord_inert st record) as (st' & ? & ? & ? & _); [by right|].
    by exists st'.
Qed.

Lemma order_kind_matches_whole_field_witness :
  orderKind (trade 0 "AAA" paddedBuy 1 10 10) = Other ∧
  ∃ st', processRecord afterTwoBuys (trade 0 "AAA" paddedBuy 1 10 10) = Ok st' ∧
    profitLossByIndex st' = profitLossByIndex afterTwoBuys ∧
    positionOf (positions st') "AAA" = Position.zero.
Proof.
  destruct (order_kind_matches_whole_field (trade 0 "AAA" paddedBuy 1 10 10))
    as (_ & _ & Hpadded & Hinert).
  assert (orderKind (trade 0 "AAA" paddedBuy 1 10 10) = Other) as Hother
    by (apply Hpadded; left; reflexivity).
  split; [exact Hother|].
  destruct (Hinert afterTwoBuys Hother) as (st' & Hstep & Hres & Hpos).
  exists st'. split; [exact Hstep|]. split; [exact Hres|].
  rewrite Hpos. reflexivity.
Defined.

(** ** The two accounting loops *)

Lemma processRecord_mainStep (st : State) (r : TradeRecord) :
  saleAllowed st r → processRecord st r = Ok (mainStep st r).
Proof.
  unfold saleAllowed, processRecord, mainStep.
  destruct (asxCode r) as [[|c code]|]; [done| |done].
  rewrite !positionOf_ensurePosition.
  destruct (isBuy r); [done|]. destruct (isSell r); [|done]. simpl.
  intros (Hq & Hheld & Hcost & Hover).
  rewrite (positive_not_leb_zero _ Hq), (positive_not_leb_zero _ Hheld),
    (positive_not_leb_zero _ Hcost), Hover, Hheld, Hcost.
  reflexivity.
Qed.

Lemma processRecords_mainLoop (st : State) (sorted : list TradeRecord) :
  salesAllowed st sorted → processRecords st sorted = Ok (mainLoop st sorted).
Proof.
  revert st. induction sorted as [|r sorted IH]; intros st; simpl; [done|].
  intros [Hr Hrest]. rewrite (processRecord_mainStep st r Hr). simpl.
  by apply IH.
Qed.

(** C10. When every Sell of the run has a positive quantity, finds a
    position whose held quantity and total cost are positive, and does not
    exceed the held quantity by more than 1e-8, the loop of
    [calculateProfitLossForRecords] and the loop of the script's [main]
    give the same profit/loss at every original position. *)
Theorem engines_agree_on_allowed_sales {host : Host}
  (records : list TradeRecord) (columnInfo : ColumnInfo) :
  salesAllowed (initialState (length records)) (sortRecords records columnInfo) →
  calculateProfitLossForRecords records columnInfo
  = Ok (mainProfitLoss records columnInfo).
Proof.
  intros Hallowed. unfold calculateProfitLossForRecords, mainProfitLoss.
  by rewrite (processRecords_mainLoop _ _ Hallowed).
Qed.

Lemma engines_agree_on_allowed_sales_witness :
  calculateProfitLossForRecords (host := ordinalHost) averageLedger plainColumns
  = Ok (mainProfitLoss (host := ordinalHost) averageLedger plainColumns)
  ∧ mainProfitLoss (host := ordinalHost) averageLedger plainColumns
    = [Some "150.00"; Some EmptyString; Some EmptyString].
Proof.
  split; [|vm_compute; reflexivity].
  apply (engines_agree_on_allowed_sales (host := ordinalHost) averageLedger plainColumns).
  vm_compute. repeat split.
Defined.

(** ** Positions during a run *)

(** Three runs the engine completes with a negative position: a purchase
    of a negative quantity; a sale that exceeds the holding by exactly the
    tolerance, which leaves -1e-8 units; a sale that exceeds it by less,
    which leaves a negative cost. *)
Lemma positions_go_negative :
  (∃ st, processRecords (initialState 1) (sortRecords (host := ordinalHost) negativeBuy plainColumns)
         = Ok st ∧
     calculateProfitLossForRecords (host := ordinalHost) negativeBuy plainColumns
     = Ok [Some EmptyString] ∧
     Position.quantity (positionOf (positions st) "A") = (-5)%float ∧
     Position.totalCost (positionOf (positions st) "A") = (-50)%float ∧
     (0 <=? Position.quantity (positionOf (positions st) "A"))%float = false ∧
     (0 <=? Position.totalCost (positionOf (positions st) "A"))%float = false) ∧
  (∃ st, processRecords (initialState 2)
           (sortRecords (host := ordinalHost) toleratedOversale plainColumns) = Ok st ∧
     Position.quantity (positionOf (positions st) "A") = (- quantityEpsilon)%float ∧
     (0 <=? Position.quantity (positionOf (positions st) "A"))%float = false) ∧
  (∃ st, processRecords (initialState 2)
           (sortRecords (host := ordinalHost) costlyOversale plainColumns) = Ok st ∧
     (0 <=? Position.totalCost (positionOf (positions st) "A"))%float = false).
Proof.
  repeat split; eexists; (split; [vm_compute; reflexivity|]);
    repeat split; vm_compute; reflexivity.
Qed.

(** ** The processing order *)

Section Sorting.
Context {host : Host}.

Lemma insertSorted_Permutation (compare : TradeRecord → TradeRecord → Z)
  (x : TradeRecord) (l : list TradeRecord) :
  insertSorted compare x l ≡ₚ x :: l.
Proof.
  induction l as [|y l IH]; simpl; [done|].
  destruct (compare x y <=? 0)%Z; [done|].
  rewrite IH. apply Permutation_swap.
Qed.

Lemma sortRecords_Permutation (records : list TradeRecord) (columnInfo : ColumnInfo) :
  sortRecords records columnInfo ≡ₚ records.
Proof.
  unfold sortRecords. induction records as [|r records IH]; simpl; [done|].
  by rewrite insertSorted_Permutation, IH.
Qed.

End Sorting.

Lemma string_compare_lt_trans (a b c : string) :
  (a ?= b)%string = Lt → (b ?= c)%string = Lt → (a ?= c)%string = Lt.
Proof.
  intros Hab Hbc.
  assert (String.le a c) as Hac.
  { trans b; unfold String.le, String.leb; [by rewrite Hab|by rewrite Hbc]. }
  unfold String.le, String.leb in Hac.
  destruct (a ?= c)%string eqn:Hcmp; [|done..].
  apply String.compare_eq_iff in Hcmp as ->.
  rewrite String.compare_antisym, Hab in Hbc. done.
Qed.

Lemma ordinal_strict : StrictCollation (host := ordinalHost).
Proof.
  split; simpl; unfold ordinalCompare.
  - intros a b. destruct (a ?= b)%string eqn:Hcmp; [|done..].
    intros _. by apply String.compare_eq_iff.
  - intros a b. rewrite (String.compare_antisym a b).
    destruct (b ?= a)%string; simpl; lia.
  - intros a b. rewrite (String.compare_antisym a b).
    destruct (b ?= a)%string; simpl; lia.
  - intros a b c.
    destruct (a ?= b)%string eqn:Hab; [lia| |lia].
    destruct (b ?= c)%string eqn:Hbc; [lia| |lia].
    by rewrite (string_compare_lt_trans a b c).
Qed.

Lemma elem_of_NoDup_fmap {A B} (f : A → B) (l : list A) (x y : A) :
  NoDup (f <$> l) → x ∈ l → y ∈ l → f x = f y → x = y.
Proof.
  induction l as [|z l IH]; simpl; [by intros _ ?%elem_of_nil|].
  rewrite NoDup_cons. intros [Hz Hl] Hx Hy Hf.
  apply elem_of_cons in Hx as [->|Hx], Hy as [->|Hy]; [done| | |by apply IH].
  - exfalso. apply Hz. rewrite Hf. by apply list_elem_of_fmap_2.
  - exfalso. apply Hz. rewrite <- Hf. by apply list_elem_of_fmap_2.
Qed.

(** Code-unit order of the texts is not the order of the sort: under a
    collation that puts a before B, as the usual collations do, the row
    confirmed as a is processed first, although B is before a by code
    units. And where the collation finds two different tie-break texts
    equal, the rows stay as they are given: neither is before the other by
    date, by collation or by original position. *)
Lemma collation_decides_tie_break :
  sortRecords (host := caseFirstHost) mixedCaseLedger baseColumns
  = [confirmed 1 "a"; confirmed 0 "B"]
  ∧ chronological ordinalBefore baseColumns (confirmed 0 "B") (confirmed 1 "a")
  ∧ ¬ chronological ordinalBefore baseColumns (confirmed 1 "a") (confirmed 0 "B")
  ∧ sortRecords (host := lenientHost) alikeLedger baseColumns = alikeLedger
  ∧ ¬ chronological (collatesBefore (host := lenientHost)) baseColumns
        (confirmed 1 (String "001" "1")) (confirmed 0 "1").
Proof.
  split; [vm_compute; reflexivity|]. split; [|split; [|split]].
  - right. split; [reflexivity|]. left. repeat split; [done|done].
  - unfold chronological, ordinalBefore, hasTieBreak. simpl.
    intros [?|[_ [(_ & _ & Hlt)|[[Hno|Heq] _]]]]; [lia|done| |done].
    by apply Hno.
  - vm_compute. reflexivity.
  - unfold chronological, collatesBefore, hasTieBreak. simpl.
    intros [?|[_ [(_ & _ & Hlt)|[[Hno|Heq] _]]]]; [lia| | |done].
    + vm_compute in Hlt. discriminate.
    + by apply Hno.
Qed.

Lemma strict_strictOn {host : Host} {strict : StrictCollation} (texts : list string) :
  strictOn texts.
Proof.
  intros a b _ _. split; [apply collation_zero|]. split; [apply collation_flip|].
  split; [apply collation_asym|]. intros c _. apply collation_trans.
Qed.

Section LedgerOrder.
Context {host : Host} (columnInfo : ColumnInfo) (texts : list string).
Hypothesis Hstrict : hasTieBreak columnInfo → strictOn texts.

(** The comparator does not ask the host when it finds the order. *)
Lemma chronological_compareRecords (a b : TradeRecord) :
  chronological collatesBefore columnInfo a b → (compareRecords columnInfo a b <= 0)%Z.
Proof.
  unfold compareRecords, chronological, hasTieBreak, collatesBefore.
  fold (tieBreak columnInfo a) (tieBreak columnInfo b).
  destruct (Z.eqb_spec (tradeDate a - tradeDate b)%Z 0%Z) as [Hdate|Hdate]; [|lia].
  destruct (Z.eqb_spec (confirmationIdx columnInfo) (-1)%Z) as [Hidx|Hidx]; simpl.
  { intros [?|[_ [(? & _)|[_ ?]]]]; [lia|done|lia]. }
  destruct (String.eqb_spec (tieBreak columnInfo a) (tieBreak columnInfo b))
    as [Htb|Htb]; simpl.
  { intros [?|[_ [(_ & ? & _)|[_ ?]]]]; [lia|done|lia]. }
  intros [?|[_ [(_ & _ & ?)|[[?|?] _]]]]; [lia|lia|done..].
Qed.

Lemma compareRecords_chronological (a b : TradeRecord) :
  tieBreakAmong columnInfo texts a → tieBreakAmong columnInfo texts b →
  (compareRecords columnInfo a b <= 0)%Z → chronological collatesBefore columnInfo a b.
Proof.
  intros Ha Hb. unfold compareRecords, chronological, collatesBefore.
  fold (tieBreak columnInfo a) (tieBreak columnInfo b).
  destruct (Z.eqb_spec (tradeDate a - tradeDate b)%Z 0%Z) as [Hdate|Hdate];
    [|intros ?; left; lia].
  destruct (Z.eqb_spec (confirmationIdx columnInfo) (-1)%Z) as [Hidx|Hidx]; simpl.
  { intros ?. right. split; [lia|]. right. split; [left; unfold hasTieBreak; lia|lia]. }
  destruct (String.eqb_spec (tieBreak columnInfo a) (tieBreak columnInfo b))
    as [Htb|Htb]; simpl.
  { intros ?. right. split; [lia|]. right. split; [by right|lia]. }
  intros Hle. right. split; [lia|]. left. repeat split; [done..|].
  destruct (Hstrict Hidx _ _ (Ha Hidx) (Hb Hidx)) as (Hzero & _).
  destruct (Z.eq_dec (localeCompare (tieBreak columnInfo a) (tieBreak columnInfo b)) 0%Z)
    as [Hz%Hzero|?]; [done|lia].
Qed.

Lemma chronological_trans (a b c : TradeRecord) :
  tieBreakAmong columnInfo texts a → tieBreakAmong columnInfo texts b →
  tieBreakAmong columnInfo texts c → chronological collatesBefore columnInfo a b →
  chronological collatesBefore columnInfo b c → chronological collatesBefore columnInfo a c.
Proof.
  unfold chronological, collatesBefore.
  intros Ha Hb Hc [Hab|[Hab Hab']] [Hbc|[Hbc Hbc']]; [left; lia..|].
  right. split; [congruence|].
  destruct Hab' as [(Htb & Hne1 & Hlt1)|[Heq1 Hi1]],
           Hbc' as [(Htb' & Hne2 & Hlt2)|[Heq2 Hi2]].
  - destruct (Hstrict Htb _ _ (Ha Htb) (Hb Htb)) as (_ & _ & Hasym & Htrans).
    left. repeat split; [done| |by apply (Htrans _ (Hc Htb))].
    intros Heq. rewrite <- Heq in Hlt2. apply Hasym in Hlt1. lia.
  - destruct Heq2 as [?|Heq2]; [contradiction|]. left. by rewrite <- Heq2.
  - destruct Heq1 as [?|Heq1]; [contradiction|]. left. by rewrite Heq1.
  - right. split; [|lia].
    destruct Heq1 as [?|Heq1]; [by left|]. destruct Heq2 as [?|Heq2]; [by left|].
    right. congruence.
Qed.

Lemma chronological_total (a b : TradeRecord) :
  tieBreakAmong columnInfo texts a → tieBreakAmong columnInfo texts b →
  chronological collatesBefore columnInfo a b ∨ chronological collatesBefore columnInfo b a.
Proof.
  unfold chronological, collatesBefore, hasTieBreak. intros Ha Hb.
  destruct (Z.lt_trichotomy (tradeDate a) (tradeDate b)) as [?|[Hdate|?]];
    [by left; left| |by right; left].
  destruct (Z.eq_dec (confirmationIdx columnInfo) (-1)%Z) as [Hidx|Hidx].
  { destruct (Nat.le_ge_cases (originalIndex a) (originalIndex b));
      [left|right]; right; (split; [done|]); right; (split; [left; lia|done]). }
  destruct (decide (tieBreak columnInfo a = tieBreak columnInfo b)) as [Htb|Htb].
  { destruct (Nat.le_ge_cases (originalIndex a) (originalIndex b));
      [left|right]; right; (split; [done|]); right; (split; [by right|done]). }
  destruct (Hstrict Hidx _ _ (Ha Hidx) (Hb Hidx)) as (Hzero & Hflip & _).
  destruct (Z.lt_trichotomy (localeCompare (tieBreak columnInfo a) (tieBreak columnInfo b)) 0%Z)
    as [Hlt|[Hz%Hzero|Hgt%Hflip]]; [|done|].
  - left. right. split; [done|]. by left.
  - right. right. split; [done|]. left. repeat split; [done| |done]. congruence.
Qed.

Lemma chronological_sortKey (a b : TradeRecord) :
  tieBreakAmong columnInfo texts a → tieBreakAmong columnInfo texts b →
  chronological collatesBefore columnInfo a b →
  chronological collatesBefore columnInfo b a →
  sortKey columnInfo a = sortKey columnInfo b ∧ originalIndex a = originalIndex b.
Proof.
  unfold chronological, collatesBefore, sortKey.
  intros Ha Hb [?|[Hd1 H1]] [?|[Hd2 H2]]; [lia..|]. rewrite Hd1.
  destruct H1 as [(Htb & Hne1 & Hlt1)|[Heq1 Hi1]].
  { destruct H2 as [(_ & _ & Hlt2)|[[?|Heq2] _]]; [|contradiction|congruence].
    destruct (Hstrict Htb _ _ (Ha Htb) (Hb Htb)) as (_ & _ & Hasym & _).
    apply Hasym in Hlt1. lia. }
  destruct H2 as [(Htb & Hne2 & Hlt2)|[Heq2 Hi2]].
  { destruct Heq1 as [?|Heq1]; [contradiction|congruence]. }
  split; [|lia].
  destruct (decide (hasTieBreak columnInfo)) as [Htb|Htb]; [|done].
  destruct Heq1 as [?|Heq1]; [contradiction|]. by rewrite Heq1.
Qed.

Lemma insertSorted_sorted (x : TradeRecord) (l : list TradeRecord) :
  tieBreakAmong columnInfo texts x → Forall (tieBreakAmong columnInfo texts) l →
  StronglySorted (chronological collatesBefore columnInfo) l →
  StronglySorted (chronological collatesBefore columnInfo)
    (insertSorted (compareRecords columnInfo) x l).
Proof.
  intros Hx Hl. induction 1 as [|y l Hsorted IH Hy]; cbn [insertSorted].
  - repeat constructor.
  - apply Forall_cons in Hl as [Hy' Hl].
    destruct (Z.leb_spec (compareRecords columnInfo x y) 0) as [Hle|Hgt].
    + apply compareRecords_chronological in Hle; [|done..].
      constructor; [by constructor|]. constructor; [done|].
      rewrite Forall_forall in Hy, Hl |- *. intros z Hz.
      apply (chronological_trans x y z); [done|done|by apply Hl|done|by apply Hy].
    + constructor; [by apply IH|]. rewrite insertSorted_Permutation.
      constructor; [|done].
      destruct (chronological_total x y) as [Hxy|Hyx]; [done..| |done].
      apply chronological_compareRecords in Hxy. lia.
Qed.

Lemma sortRecords_sorted (records : list TradeRecord) :
  Forall (tieBreakAmong columnInfo texts) records →
  StronglySorted (chronological collatesBefore columnInfo) (sortRecords records columnInfo).
Proof.
  unfold sortRecords. induction 1 as [|r records Hr Hrecords IH]; cbn [foldr];
    [constructor|].
  apply insertSorted_sorted; [done| |done].
  fold (sortRecords records columnInfo). by rewrite sortRecords_Permutation.
Qed.

Lemma insertSorted_filter (P : TradeRecord → Prop) `{∀ r, Decision (P r)}
  (x : TradeRecord) (l : list TradeRecord) :
  tieBreakAmong columnInfo texts x → Forall (tieBreakAmong columnInfo texts) l →
  StronglySorted (chronological collatesBefore columnInfo) l →
  filter P (insertSorted (compareRecords columnInfo) x l) =
  if decide (P x) then insertSorted (compareRecords columnInfo) x (filter P l)
  else filter P l.
Proof.
  intros Hx Hl. induction 1 as [|y l Hsorted IH Hy]; cbn [insertSorted].
  { rewrite filter_cons, filter_nil. by destruct (decide (P x)). }
  apply Forall_cons in Hl as [Hy' Hl].
  destruct (Z.leb_spec (compareRecords columnInfo x y) 0) as [Hle|Hgt].
  - rewrite (filter_cons P x). destruct (decide (P x)) as [Hpx|Hpx]; [|done].
    apply compareRecords_chronological in Hle; [|done..].
    assert (Forall (chronological collatesBefore columnInfo x) (filter P (y :: l))) as Hall.
    { apply Forall_forall. intros z [_ Hz]%list_elem_of_filter.
      apply elem_of_cons in Hz as [->|Hz]; [done|].
      rewrite Forall_forall in Hy, Hl.
      apply (chronological_trans x y z); [done|done|by apply Hl|done|by apply Hy]. }
    destruct (filter P (y :: l)) as [|z rest]; [done|].
    cbn [insertSorted]. apply Forall_cons in Hall as [Hz _].
    apply chronological_compareRecords in Hz.
    by destruct (Z.leb_spec (compareRecords columnInfo x z) 0); [|lia].
  - rewrite !(filter_cons P y). destruct (decide (P y)) as [Hpy|Hpy].
    + rewrite IH by done. destruct (decide (P x)); [|done].
      cbn [insertSorted].
      by destruct (Z.leb_spec (compareRecords columnInfo x y) 0); [lia|].
    + by rewrite IH.
Qed.

Lemma sortRecords_filter (P : TradeRecord → Prop) `{∀ r, Decision (P r)}
  (records : list TradeRecord) :
  Forall (tieBreakAmong columnInfo texts) records →
  sortRecords (filter P records) columnInfo = filter P (sortRecords records columnInfo).
Proof.
  unfold sortRecords. induction 1 as [|r records Hr Hrecords IH]; [done|].
  cbn [foldr]. rewrite insertSorted_filter; [|done| |].
  - rewrite filter_cons. destruct (decide (P r)); [|done]. cbn [foldr]. by rewrite IH.
  - fold (sortRecords records columnInfo). by rewrite sortRecords_Permutation.
  - by apply sortRecords_sorted.
Qed.

End LedgerOrder.

(** Records in processing order are returned as they are, whatever the
    host's collation. *)
Lemma sortRecords_in_order {host : Host} (records : list TradeRecord)
  (columnInfo : ColumnInfo) :
  StronglySorted (chronological collatesBefore columnInfo) records →
  sortRecords records columnInfo = records.
Proof.
  unfold sortRecords. induction 1 as [|r records Hsorted IH Hr]; [done|].
  cbn [foldr]. rewrite IH. destruct records as [|y records]; [done|].
  cbn [insertSorted]. apply Forall_cons in Hr as [Hy _].
  apply chronological_compareRecords in Hy.
  by destruct (Z.leb_spec (compareRecords columnInfo r y) 0); [|lia].
Qed.

Lemma tieBreaks_among (columnInfo : ColumnInfo) (records : list TradeRecord) :
  Forall (tieBreakAmong columnInfo (tieBreak columnInfo <$> records)) records.
Proof.
  apply Forall_forall. intros r Hr _. by apply list_elem_of_fmap_2.
Qed.

(** Deciding [strictOn] for the texts of a given ledger. *)
Ltac decide_collation :=
  repeat match goal with
         | H : _ ∈ _ :: _ |- _ => apply elem_of_cons in H as [->|H]
         | H : _ ∈ [] |- _ => by apply elem_of_nil in H
         end;
  vm_compute; intros; first [reflexivity | discriminate | congruence].

Lemma sameDayLedger_collates : tieBreaksCollate (host := lenientHost) baseColumns sameDayLedger.
Proof.
  intros _. change (tieBreak baseColumns <$> sameDayLedger) with ["2"; "1"; "3"].
  intros a b Ha Hb. split; [|split; [|split; [|intros c Hc]]]; decide_collation.
Qed.

(** C4. The processing order holds the records of the input sorted by
    trade date ascending; among equal dates, when the tie-break column
    exists, by the tie-break field as the host collates it
    ([localeCompare], not code-unit order), a missing field counting as
    empty; and among equal dates and equal tie-break fields, or without the
    column, by original position. This asks of the host that its collation
    orders the tie-break texts of the input strictly and totally, and
    nothing of it when there is no tie-break column. With distinct original
    positions the processing order is the only such ordering of the
    input. *)
Theorem sortRecords_is_chronological {host : Host}
  (records : list TradeRecord) (columnInfo : ColumnInfo) :
  tieBreaksCollate columnInfo records →
  sortRecords records columnInfo ≡ₚ records ∧
  StronglySorted (chronological collatesBefore columnInfo) (sortRecords records columnInfo) ∧
  (NoDup (originalIndex <$> records) →
   ∀ l, l ≡ₚ records → StronglySorted (chronological collatesBefore columnInfo) l →
        l = sortRecords records columnInfo).
Proof.
  intros Hstrict.
  assert (StronglySorted (chronological collatesBefore columnInfo)
            (sortRecords records columnInfo)) as Hsorted.
  { apply (sortRecords_sorted columnInfo _ Hstrict), tieBreaks_among. }
  split; [apply sortRecords_Permutation|]. split; [done|].
  intros Hdistinct l Hperm Hl.
  apply (StronglySorted_unique_strong (chronological collatesBefore columnInfo));
    [|done..|by rewrite sortRecords_Permutation].
  pose proof (tieBreaks_among columnInfo records) as Hamong.
  rewrite Forall_forall in Hamong.
  intros x y Hx Hy Hxy Hyx. rewrite Hperm in Hx.
  rewrite sortRecords_Permutation in Hy.
  apply (elem_of_NoDup_fmap originalIndex records); [done..|].
  by apply (chronological_sortKey columnInfo _ Hstrict x y); [apply Hamong..| |].
Qed.

Lemma sortRecords_is_chronological_witness :
  @localeCompare lenientHost (String "001" "1") "1" = 0%Z ∧
  (sortRecords (host := lenientHost) sameDayLedger baseColumns ≡ₚ sameDayLedger ∧
   StronglySorted (chronological (collatesBefore (host := lenientHost)) baseColumns)
     (sortRecords (host := lenientHost) sameDayLedger baseColumns) ∧
   sortRecords (host := lenientHost) sameDayLedger baseColumns
   = [confirmed 1 "1"; confirmed 0 "2"; confirmed 2 "3"]) ∧
  (StronglySorted (chronological (collatesBefore (host := indifferentHost)) plainColumns)
     (sortRecords (host := indifferentHost) averageLedger plainColumns) ∧
   sortRecords (host := indifferentHost) averageLedger plainColumns
   = [trade 2 "ABC" "Buy" 1 10 10; trade 1 "ABC" "Buy" 2 20 10;
      trade 0 "ABC" "Sell" 3 30 10]).
Proof.
  destruct (sortRecords_is_chronological (host := lenientHost) sameDayLedger baseColumns
              sameDayLedger_collates) as (Hperm & Hsorted & _).
  destruct (sortRecords_is_chronological (host := indifferentHost) averageLedger plainColumns)
    as (_ & Hsorted' & _).
  { intros Hcolumn. exfalso. by apply Hcolumn. }
  split; [vm_compute; reflexivity|].
  split; [split; [exact Hperm|split; [exact Hsorted|vm_compute; reflexivity]]|].
  split; [exact Hsorted'|vm_compute; reflexivity].
Defined.

(** ** The order of the input *)

Lemma content_withIndex (i : nat) (r : TradeRecord) : content (withIndex i r) = content r.
Proof. done. Qed.

Lemma content_imap (g : nat → TradeRecord → TradeRecord) (l : list TradeRecord) :
  (∀ i r, content (g i r) = content r) → content <$> imap g l = content <$> l.
Proof.
  revert g. induction l as [|r l IH]; intros g Hg; simpl; [done|].
  rewrite Hg. f_equal. apply IH. intros i r'. apply Hg.
Qed.

Lemma content_reindex (l : list TradeRecord) : content <$> reindex l = content <$> l.
Proof. apply content_imap. intros i r. apply content_withIndex. Qed.

Lemma sortKey_content (columnInfo : ColumnInfo) (r : TradeRecord) :
  sortKey columnInfo (content r) = sortKey columnInfo r.
Proof. done. Qed.

Lemma elem_of_reindex (l : list TradeRecord) (a : TradeRecord) :
  a ∈ reindex l → ∃ r, l !! originalIndex a = Some r ∧ content r = content a.
Proof.
  intros (i & r & -> & Hr)%elem_of_lookup_imap_1. by exists r.
Qed.

(** The input order matters when rows of one instrument share their date
    and tie-break: the sale of [sameDayTrades] is processed after both
    purchases and earns 150.00; given second, it is processed after the
    first purchase only and earns 200.00. It matters as well when their
    tie-break texts differ and the host's collation finds them equal, as
    for the rows of [collatedAlike]. *)
Lemma input_order_breaks_ties :
  (sameDayTrades ≡ₚ sameDayTradesReordered ∧
   sameDayTrades !! 2 = Some (trade 0 "A" "Sell" 1 30 10) ∧
   sameDayTradesReordered !! 1 = Some (trade 0 "A" "Sell" 1 30 10) ∧
   (λ pl, JS.get pl 2) <$>
     calculateProfitLossForRecords (host := ordinalHost) (reindex sameDayTrades) plainColumns
   = Ok (Some "150.00") ∧
   (λ pl, JS.get pl 1) <$>
     calculateProfitLossForRecords (host := ordinalHost) (reindex sameDayTradesReordered)
       plainColumns
   = Ok (Some "200.00")) ∧
  (collatedAlike ≡ₚ collatedAlikeReordered ∧
   instrumentKeysDistinct baseColumns collatedAlike ∧
   (λ pl, JS.get pl 2) <$>
     calculateProfitLossForRecords (host := lenientHost) (reindex collatedAlike) baseColumns
   = Ok (Some "150.00") ∧
   (λ pl, JS.get pl 1) <$>
     calculateProfitLossForRecords (host := lenientHost) (reindex collatedAlikeReordered)
       baseColumns
   = Ok (Some "200.00")).
Proof.
  split.
  - split; [|repeat split; vm_compute; reflexivity].
    unfold sameDayTrades, sameDayTradesReordered. apply perm_skip, perm_swap.
  - split; [unfold collatedAlike, collatedAlikeReordered; apply perm_skip, perm_swap|].
    split; [|split; vm_compute; reflexivity].
    intros code _. destruct (decide (code = "A")) as [->|Hcode].
    + apply (bool_decide_unpack (NoDup _)). vm_compute. reflexivity.
    + unfold collatedAlike.
      repeat (rewrite filter_cons, decide_False by (cbn; congruence)).
      rewrite filter_nil. constructor.
Qed.

(** ** The field parsers *)

(** [toNumber] drops a quote character wherever it stands: the text 1, a
    quote, 2 is read as 12, where stripping the surrounding quotes leaves
    a text that is no number. *)
Lemma toNumber_drops_inner_quotes :
  toNumber (Some quoteInside) = Ok 12%float ∧
  parseAmount quoteInside = Throw (InvalidNumber quoteInside) ∧
  toNumber (Some quotedAmount) = Ok 10.5%float ∧
  parseAmount quotedAmount = Ok 10.5%float.
Proof. repeat split; vm_compute; reflexivity. Qed.

Lemma toNumber_unfold (value : option string) :
  toNumber value =
  match JS.trim (JS.removeAll quote (default EmptyString value)) with
  | EmptyString => Ok 0%float
  | unquoted =>
      if is_nan (JS.Number unquoted)
      then Throw (InvalidNumber (default EmptyString value))
      else Ok (JS.Number unquoted)
  end.
Proof.
  destruct value as [v|]; [|done]. unfold toNumber. simpl.
  by destruct (JS.trim (JS.removeAll quote v)).
Qed.

Lemma parseTradeDate_unfold {host : Host} (value : option string) :
  parseTradeDate value =
  match JS.trim (default EmptyString value) with
  | EmptyString => Ok 0%Z
  | trimmed =>
      match dateParse trimmed with
      | None => Throw (InvalidDate (default EmptyString value))
      | Some date => Ok date
      end
  end.
Proof.
  destruct value as [v|]; [|done]. unfold parseTradeDate. simpl.
  by destruct (JS.trim v).
Qed.

(** C8. [toNumber] removes every double-quote character of the text and
    trims the rest; it returns 0 when nothing is left, the number read when
    the rest is a numeric literal, and throws InvalidNumber exactly when the
    rest is not empty and is not a numeric literal. [parseTradeDate] trims
    the text; it returns the epoch when nothing is left, the date read when
    the host reads one, and throws InvalidDate exactly when the rest is not
    empty and the host reads no date. *)
Theorem field_parsers_total {host : Host} (value : option string) :
  let unquoted := JS.trim (JS.removeAll quote (default EmptyString value)) in
  let trimmed := JS.trim (default EmptyString value) in
  (unquoted = EmptyString → toNumber value = Ok 0%float) ∧
  (unquoted ≠ EmptyString → is_nan (JS.Number unquoted) = false →
   toNumber value = Ok (JS.Number unquoted)) ∧
  (∀ e, toNumber value = Throw e ↔
        unquoted ≠ EmptyString ∧ is_nan (JS.Number unquoted) = true
        ∧ e = InvalidNumber (default EmptyString value)) ∧
  (trimmed = EmptyString → parseTradeDate value = Ok 0%Z) ∧
  (∀ date, trimmed ≠ EmptyString → dateParse trimmed = Some date →
           parseTradeDate value = Ok date) ∧
  (∀ e, parseTradeDate value = Throw e ↔
        trimmed ≠ EmptyString ∧ dateParse trimmed = None
        ∧ e = InvalidDate (default EmptyString value)).
Proof.
  intros unquoted trimmed.
  rewrite toNumber_unfold, parseTradeDate_unfold. fold unquoted trimmed.
  clearbody unquoted trimmed.
  split; [by intros ->|]. split.
  { intros Hne Hnan. destruct unquoted; [done|]. cbv beta iota zeta. by rewrite Hnan. }
  split.
  { intros e. destruct unquoted as [|c u]; [split; [done|by intros (? & _)]|].
    cbv beta iota zeta. destruct (is_nan (JS.Number (String c u))).
    - split; [by intros [= <-]|by intros (_ & _ & ->)].
    - split; [done|by intros (_ & ? & _)]. }
  split; [by intros ->|]. split.
  { intros date Hne Hdate. destruct trimmed; [done|]. cbv beta iota zeta. by rewrite Hdate. }
  intros e. destruct trimmed as [|c t]; [split; [done|by intros (? & _)]|].
  cbv beta iota zeta. destruct (dateParse (String c t)).
  - split; [done|by intros (_ & ? & _)].
  - split; [by intros [= <-]|by intros (_ & _ & ->)].
Qed.

(** ** Texts *)

Lemma contains_app (c : ascii) (s t : string) :
  JS.contains c (s +:+ t) = JS.contains c s || JS.contains c t.
Proof.
  induction s as [|c' s IH]; [done|].
  change (String c' s +:+ t) with (String c' (s +:+ t)). simpl.
  by rewrite IH, orb_assoc.
Qed.

Lemma split_nonempty (sep : ascii) (s : string) : JS.split sep s ≠ [].
Proof.
  destruct s as [|c s]; simpl; [done|].
  destruct (Ascii.eqb c sep); [done|]. by destruct (JS.split sep s).
Qed.

Lemma split_without (sep : ascii) (s : string) :
  JS.contains sep s = false → JS.split sep s = [s].
Proof.
  induction s as [|c s IH]; simpl; [done|].
  intros [Hc Hs]%orb_false_elim. rewrite Hc, (IH Hs). done.
Qed.

Lemma split_app (sep : ascii) (s t : string) :
  JS.split sep (s +:+ String sep t) = JS.split sep s ++ JS.split sep t.
Proof.
  induction s as [|c s IH].
  - change ("" +:+ String sep t) with (String sep t). simpl.
    by rewrite Ascii.eqb_refl.
  - change (String c s +:+ String sep t) with (String c (s +:+ String sep t)).
    simpl. rewrite IH. destruct (Ascii.eqb c sep); [done|].
    pose proof (split_nonempty sep s). by destruct (JS.split sep s).
Qed.

Lemma split_join (sep : ascii) (ls : list string) :
  ls ≠ [] → Forall (λ l, JS.contains sep l = false) ls →
  JS.split sep (JS.join (String sep EmptyString) ls) = ls.
Proof.
  induction ls as [|l ls IH]; [done|]. intros _ [Hl Hls]%Forall_cons.
  destruct ls as [|l' ls]; [by apply split_without|].
  change (JS.join (String sep "") (l :: l' :: ls))
    with (l +:+ String sep "" +:+ JS.join (String sep "") (l' :: ls)).
  change (String sep "" +:+ ?t) with (String sep t).
  rewrite split_app, (split_without sep l Hl), IH; done.
Qed.

Lemma split_join_terminated (sep : ascii) (ls : list string) :
  ls ≠ [] → Forall (λ l, JS.contains sep l = false) ls →
  JS.split sep (JS.join (String sep EmptyString) ls +:+ String sep EmptyString)
  = ls ++ [EmptyString].
Proof.
  intros Hne Hls. by rewrite split_app, split_join.
Qed.

Lemma split_append_field (sep : ascii) (l f : string) :
  JS.contains sep f = false →
  JS.split sep (l +:+ String sep EmptyString +:+ f) = JS.split sep l ++ [f].
Proof.
  intros Hf. change (String sep "" +:+ f) with (String sep f).
  by rewrite split_app, (split_without sep f Hf).
Qed.

Lemma madeOf_app (alphabet s t : string) :
  madeOf alphabet (s +:+ t) = madeOf alphabet s && madeOf alphabet t.
Proof.
  induction s as [|c s IH]; [done|].
  change (String c s +:+ t) with (String c (s +:+ t)). simpl.
  by rewrite IH, andb_assoc.
Qed.

Lemma madeOf_substring (alphabet s : string) (n m : nat) :
  madeOf alphabet s = true → madeOf alphabet (String.substring n m s) = true.
Proof.
  revert n m. induction s as [|c s IH]; intros [|n] [|m]; simpl; try done.
  - intros [Hc Hs]%andb_prop. rewrite Hc. by apply IH.
  - intros [_ Hs]%andb_prop. by apply IH.
  - intros [_ Hs]%andb_prop. by apply IH.
Qed.

Lemma madeOf_contains (alphabet s : string) (c : ascii) :
  madeOf alphabet s = true → JS.contains c alphabet = false → JS.contains c s = false.
Proof.
  intros Hs Hc. induction s as [|c' s IH]; simpl; [done|].
  simpl in Hs. apply andb_prop in Hs as [Hc' Hs]. rewrite (IH Hs), orb_false_r.
  destruct (Ascii.eqb_spec c' c) as [->|]; [congruence|done].
Qed.

Lemma madeOf_uint (d : Decimal.uint) :
  madeOf numericChars (NilEmpty.string_of_uint d) = true.
Proof. induction d; simpl; try done; by rewrite IHd. Qed.

Lemma madeOf_digits (n : N) : madeOf numericChars (JS.digits n) = true.
Proof.
  unfold JS.digits, NilZero.string_of_uint.
  destruct (N.to_uint n) eqn:Hn; try (rewrite <- Hn; apply madeOf_uint). done.
Qed.

Lemma madeOf_fixed2 (n : N) : madeOf numericChars (JS.fixed2 n) = true.
Proof.
  unfold JS.fixed2. pose proof (madeOf_digits n) as Hd.
  set (m := match String.length (JS.digits n) with
            | 1 => "00" +:+ JS.digits n
            | 2 => "0" +:+ JS.digits n
            | _ => JS.digits n
            end).
  assert (madeOf numericChars m = true) as Hm.
  { unfold m. destruct (String.length (JS.digits n)) as [|[|[|k]]];
      rewrite ?madeOf_app, ?Hd; done. }
  cbv zeta. rewrite !madeOf_app, !madeOf_substring; done.
Qed.

Lemma madeOf_cons (alphabet : string) (c : ascii) (s : string) :
  madeOf alphabet (String c s) = JS.contains c alphabet && madeOf alphabet s.
Proof. done. Qed.

Lemma madeOf_exponential (x : float) (X : N) :
  madeOf numericChars (JS.exponential x X) = true.
Proof.
  unfold JS.exponential. destruct (JS.shortest _ _ _ _) as [s n].
  rewrite !madeOf_app, madeOf_digits. pose proof (madeOf_digits s) as Hs.
  destruct (JS.digits s) as [|c [|c' rest]]; [done|by rewrite Hs|].
  change ("." +:+ String c' rest) with (String "." (String c' rest)).
  rewrite madeOf_cons in Hs. apply andb_prop in Hs as [Hc Hs].
  rewrite !(madeOf_cons _ c), Hc, (madeOf_cons _ "."), Hs. done.
Qed.

Lemma madeOf_toFixed2 (x : float) : madeOf numericChars (JS.toFixed2 x) = true.
Proof.
  unfold JS.toFixed2. destruct (Prim2SF x) as [s|s| |s m e]; [done|by destruct s|done|].
  cbv zeta. rewrite madeOf_app.
  destruct (_ <=? _)%N; rewrite ?madeOf_exponential, ?madeOf_fixed2; by destruct s.
Qed.

(** ** The report *)

Lemma processRecord_results (st st' : State) (r : TradeRecord) :
  processRecord st r = Ok st' →
  profitLossByIndex st' = profitLossByIndex st
  ∨ ∃ x, profitLossByIndex st'
         = JS.set (profitLossByIndex st) (originalIndex r) (JS.toFixed2 x).
Proof.
  unfold processRecord.
  destruct (asxCode r) as [[|c code]|]; [by intros [= <-]; left| |by intros [= <-]; left].
  destruct (isBuy r); [by intros [= <-]; left|].
  destruct (isSell r); [|by intros [= <-]; left].
  destruct (quantity r <=? 0)%float; [done|].
  destruct (_ || _); [done|].
  destruct (quantityEpsilon <? _)%float; [done|].
  intros [= <-]. right. eexists. cbn [profitLossByIndex]. reflexivity.
Qed.

Lemma processRecords_numericCells (st st' : State) (l : list TradeRecord) :
  numericCells (profitLossByIndex st) → processRecords st l = Ok st' →
  numericCells (profitLossByIndex st').
Proof.
  revert st. induction l as [|r l IH]; intros st Hst; simpl; [by intros [= <-]|].
  destruct (processRecord st r) as [st1|e] eqn:Hstep; simpl; [|done].
  apply IH. destruct (processRecord_results st st1 r Hstep) as [->|[x ->]]; [done|].
  intros j v. rewrite get_set. destruct (decide (originalIndex r = j)); [|apply Hst].
  intros [= <-]. apply madeOf_toFixed2.
Qed.

Lemma calculateProfitLossForRecords_numericCells {host : Host}
  (records : list TradeRecord) (columnInfo : ColumnInfo) (pl : list (option string)) :
  calculateProfitLossForRecords records columnInfo = Ok pl → numericCells pl.
Proof.
  unfold calculateProfitLossForRecords.
  destruct (processRecords _ _) as [st|e] eqn:Hrun; simpl; [|done]. intros [= <-].
  apply (λ Hinit, processRecords_numericCells _ _ _ Hinit Hrun).
  intros j v. unfold JS.get. simpl.
  destruct (decide (j < length records)) as [Hj|Hj].
  - rewrite lookup_replicate_2 by done. by intros [= <-].
  - rewrite (proj1 (lookup_replicate_None _ _ _)); [done|lia].
Qed.

Lemma appendedField_numeric (pl : list (option string)) (r : TradeRecord) :
  numericCells pl → madeOf numericChars (appendedField pl r) = true.
Proof.
  intros Hpl. unfold appendedField.
  destruct (JS.get pl (originalIndex r)) as [v|] eqn:Hv; [|done].
  exact (Hpl _ v Hv).
Qed.

Lemma splitLines_no_newline (s : string) :
  Forall (λ l, JS.contains "010" l = false) (JS.splitLines s).
Proof.
  induction s as [|c s IH]; [by repeat constructor|].
  change (JS.splitLines (String c s)) with
    (if Ascii.eqb c "010" then EmptyString :: JS.splitLines s
     else match s with
          | String c' _ =>
              if Ascii.eqb c "013" && Ascii.eqb c' "010" then JS.splitLines s
              else match JS.splitLines s with
                   | f :: fs => String c f :: fs
                   | [] => [String c EmptyString]
                   end
          | EmptyString => [String c EmptyString]
          end).
  assert (JS.contains "010" (String c "") = Ascii.eqb c "010") as Hone
    by (simpl; by rewrite orb_false_r).
  destruct (Ascii.eqb c "010") eqn:Hc; [by constructor|].
  destruct s as [|c' s]; [by repeat constructor|].
  destruct (Ascii.eqb c "013" && Ascii.eqb c' "010"); [done|].
  destruct (JS.splitLines (String c' s)) as [|f fs]; [by repeat constructor|].
  apply Forall_cons in IH as [Hf Hfs]. constructor; [|done].
  change (JS.contains "010" (String c f)) with (Ascii.eqb c "010" || JS.contains "010" f).
  by rewrite Hc, Hf.
Qed.

Lemma parseRecordsFrom_lines {host : Host} (i : nat) (lines : list string)
  (columnInfo : ColumnInfo) (records : list TradeRecord) :
  parseRecordsFrom i lines columnInfo = Ok records →
  line <$> records = lines ∧ originalIndex <$> records = seq i (length lines).
Proof.
  revert i records. induction lines as [|l lines IH]; intros i records.
  { by intros [= <-]. }
  cbn [parseRecordsFrom]. unfold parseRecord, mbind, result_bind.
  destruct (parseTradeDate _) as [date|]; [|done].
  destruct (toNumber _) as [price|]; [|done].
  destruct (toNumber _) as [qty|]; [|done].
  destruct (parseRecordsFrom (S i) lines columnInfo) as [rest|] eqn:Hrest; [|done].
  intros [= <-]. destruct (IH _ _ Hrest) as [Hlines Hidx].
  rewrite !fmap_cons. cbn [line originalIndex length seq]. by rewrite Hlines, Hidx.
Qed.

Lemma outputLines_rows (headerLine : string) (records : list TradeRecord)
  (pl : list (option string)) :
  outputLines headerLine records pl =
  (headerLine +:+ ",ProfitLoss")
  :: zip_with (λ l f, l +:+ "," +:+ f) (line <$> records) (appendedField pl <$> records).
Proof.
  unfold outputLines. f_equal.
  induction records as [|r records IH]; [done|]. csimpl. by rewrite IH.
Qed.

Lemma numeric_no_separator (f : string) :
  madeOf numericChars f = true →
  JS.contains "," f = false ∧ JS.contains "010" f = false.
Proof. intros Hf. split; by apply (madeOf_contains numericChars). Qed.

(** ** The test suite

    The expectations of [calculate_pl.test.js], evaluated on the model with
    a host that reads ISO dates and collates by code units. *)

Example test_toNumber :
  toNumber (Some quotedAmount) = Ok 10.5%float ∧ toNumber (Some " 0 ") = Ok 0%float ∧
  toNumber (Some EmptyString) = Ok 0%float ∧ toNumber None = Ok 0%float ∧
  toNumber (Some "abc") = Throw (InvalidNumber "abc").
Proof. repeat split; vm_compute; reflexivity. Qed.

Example test_parseTradeDate :
  parseTradeDate (host := ordinalHost) (Some "2024-01-02") = Ok 1704153600000%Z ∧
  parseTradeDate (host := ordinalHost) (Some "not-a-date") = Throw (InvalidDate "not-a-date").
Proof. repeat split; vm_compute; reflexivity. Qed.

Example test_ensureRequiredColumns :
  confirmationIdx <$> ensureRequiredColumns (parseCsvLine baseHeader) = Ok 3%Z ∧
  asxIdx <$> ensureRequiredColumns ["AsxCode"; "Order Type"; "Avg Price"; "Quantity"]
  = Throw (MissingColumns ["Trade Date"]).
Proof. repeat split; vm_compute; reflexivity. Qed.

Example test_sortRecords :
  (λ records, (λ r, cols r !! 3) <$> sortRecords (host := ordinalHost) records baseColumns)
    <$> parseRecords (host := ordinalHost)
          [buildRow "ABC" "2" "Buy" "2024-01-02" "10" "1";
           buildRow "ABC" "1" "Buy" "2024-01-02" "10" "1";
           buildRow "ABC" "3" "Buy" "2024-01-01" "10" "1"] baseColumns
  = Ok [Some "3"; Some "1"; Some "2"].
Proof. vm_compute. reflexivity. Qed.

Example test_moving_average :
  (parseRecords (host := ordinalHost)
     [buildRow "ABC" "3" "Sell" "2024-01-03" "30" "10";
      buildRow "ABC" "2" "Buy" "2024-01-02" "20" "10";
      buildRow "ABC" "1" "Buy" "2024-01-01" "10" "10"] baseColumns
   ≫= λ records, calculateProfitLossForRecords (host := ordinalHost) records baseColumns)
  = Ok [Some "150.00"; Some EmptyString; Some EmptyString].
Proof. vm_compute. reflexivity. Qed.

Example test_partial_sells :
  (parseRecords (host := ordinalHost)
     [buildRow "AAA" "1" "Buy" "2024-01-01" "10" "10";
      buildRow "AAA" "2" "Buy" "2024-01-02" "20" "10";
      buildRow "BBB" "3" "Buy" "2024-01-01" "5" "4";
      buildRow "AAA" "4" "Sell" "2024-01-03" "25" "5";
      buildRow "BBB" "5" "Sell" "2024-01-02" "6" "4"] baseColumns
   ≫= λ records, calculateProfitLossForRecords (host := ordinalHost) records baseColumns)
  = Ok [Some EmptyString; Some EmptyString; Some EmptyString; Some "50.00"; Some "4.00"].
Proof. vm_compute. reflexivity. Qed.

Example test_sell_without_position :
  (parseRecords (host := ordinalHost)
     [buildRow "XYZ" "1" "Sell" "2024-01-01" "10" "1"] baseColumns
   ≫= λ records, calculateProfitLossForRecords (host := ordinalHost) records baseColumns)
  = Throw (NoExistingPosition "XYZ").
Proof. vm_compute. reflexivity. Qed.

Example test_sell_more_than_position :
  (parseRecords (host := ordinalHost)
     [buildRow "XYZ" "1" "Buy" "2024-01-01" "10" "5";
      buildRow "XYZ" "2" "Sell" "2024-01-02" "12" "6"] baseColumns
   ≫= λ records, calculateProfitLossForRecords (host := ordinalHost) records baseColumns)
  = Throw (OversoldPosition "XYZ").
Proof. vm_compute. reflexivity. Qed.

Example test_ignored_rows :
  (parseRecords (host := ordinalHost)
     [buildRow EmptyString "1" "Buy" "2024-01-01" "10" "10";
      buildRow "AAA" "2" "Dividend" "2024-01-02" "1" "1";
      buildRow "AAA" "3" "Sell" "2024-01-03" "10" "1";
      buildRow "AAA" "4" "Buy" "2024-01-01" "5" "1"] baseColumns
   ≫= λ records, calculateProfitLossForRecords (host := ordinalHost) records baseColumns)
  = Ok [Some EmptyString; Some EmptyString; Some "5.00"; Some EmptyString].
Proof. vm_compute. reflexivity. Qed.

Example test_end_to_end :
  calculateProfitLossCsv (host := ordinalHost) sampleCsv = Ok sampleOutput ∧
  calculateProfitLossCsv (host := ordinalHost) EmptyString = Throw EmptyInput ∧
  calculateProfitLossCsv (host := ordinalHost) baseHeader = Throw NoDataRows.
Proof. repeat split; vm_compute; reflexivity. Qed.

(** * Further properties *)

(** ** Splitting a line *)

Lemma join_split (sep : ascii) (s : string) :
  JS.join (String sep EmptyString) (JS.split sep s) = s.
Proof.
  induction s as [|c s IH]; [done|]. cbn [JS.split].
  pose proof (split_nonempty sep s) as Hne.
  destruct (Ascii.eqb_spec c sep) as [->|Hc].
  - destruct (JS.split sep s) as [|f fs]; [done|].
    change (JS.join (String sep "") ("" :: f :: fs))
      with (String sep (JS.join (String sep "") (f :: fs))).
    by rewrite IH.
  - destruct (JS.split sep s) as [|f fs]; [done|]. rewrite <- IH.
    by destruct fs.
Qed.

Lemma split_length (sep : ascii) (s : string) :
  length (JS.split sep s) = S (occurrences sep s).
Proof.
  induction s as [|c s IH]; [done|]. cbn [JS.split occurrences].
  pose proof (split_nonempty sep s) as Hne.
  destruct (Ascii.eqb c sep); [rewrite length_cons, IH; lia|].
  destruct (JS.split sep s) as [|f fs]; [done|]. cbn [length] in *. lia.
Qed.

Lemma split_fields (sep : ascii) (s : string) :
  Forall (λ f, JS.contains sep f = false) (JS.split sep s).
Proof.
  induction s as [|c s IH]; [by repeat constructor|]. cbn [JS.split].
  destruct (Ascii.eqb c sep) eqn:Hc; [by constructor|].
  destruct (JS.split sep s) as [|f fs]; [repeat constructor; cbn; by rewrite Hc|].
  apply Forall_cons in IH as [Hf Hfs]. constructor; [|done].
  cbn [JS.contains]. by rewrite Hc, Hf.
Qed.

(** X1. [parseCsvLine] cuts a line at its commas and nowhere else: joining
    the fields with commas gives the line back, there is one field more
    than the line has commas, and no field holds a comma. *)
Theorem parseCsvLine_round_trip (line : string) :
  JS.join "," (parseCsvLine line) = line ∧
  length (parseCsvLine line) = S (occurrences "," line) ∧
  Forall (λ f, JS.contains "," f = false) (parseCsvLine line).
Proof.
  split; [apply (join_split ",")|]. split; [apply split_length|apply split_fields].
Qed.

(** ** The columns of the header *)

(** The place of the last [name] among [names]. *)
Lemma indexColumns_lookup (i : nat) (names : list string) (index : gmap string nat)
  (name : string) (k : nat) :
  indexColumns i names index !! name = Some k ↔
  (∃ j, k = i + j ∧ lastOccurrence names name j) ∨ ((name ∉ names) ∧ index !! name = Some k).
Proof.
  revert i index. induction names as [|n names IH]; intros i index; simpl.
  { split.
    - intros Hk. right. split; [|done]. apply not_elem_of_nil.
    - intros [(j & _ & Hj & _)|[_ ?]]; [done|done]. }
  rewrite IH. split.
  - intros [(j & -> & Hj & Hlast)|[Hnot Hk]].
    + left. exists (S j). split; [lia|]. split; [done|].
      intros [|j'] Hlt; [lia|]. apply Hlast. lia.
    + destruct (decide (n = name)) as [->|Hne].
      * rewrite lookup_insert_eq in Hk. injection Hk as <-.
        left. exists 0. split; [lia|]. split; [done|].
        intros [|j'] Hlt Hj'; [lia|]. apply Hnot. by eapply list_elem_of_lookup_2.
      * rewrite lookup_insert_ne in Hk by done. right. split; [|done].
        by apply not_elem_of_cons.
  - intros [(j & -> & Hj & Hlast)|[[Hne Hnot]%not_elem_of_cons Hk]].
    + destruct j as [|j].
      * injection Hj as ->. right. split.
        -- intros [j' Hj']%list_elem_of_lookup_1. by apply (Hlast (S j')); [lia|].
        -- rewrite lookup_insert_eq. f_equal. lia.
      * left. exists j. split; [lia|]. split; [done|].
        intros j' Hlt. apply (Hlast (S j')). lia.
    + right. split; [done|]. by rewrite lookup_insert_ne.
Qed.

Lemma indexColumns_None (i : nat) (names : list string) (index : gmap string nat)
  (name : string) :
  indexColumns i names index !! name = None ↔ (name ∉ names) ∧ index !! name = None.
Proof.
  revert i index. induction names as [|n names IH]; intros i index; simpl.
  { split; [|by intros [_ ?]]. intros Hk. split; [|done]. apply not_elem_of_nil. }
  rewrite IH, not_elem_of_cons. destruct (decide (n = name)) as [->|Hne].
  - rewrite lookup_insert_eq. split; [by intros [_ ?]|by intros [[? _] _]].
  - rewrite lookup_insert_ne by done. split; [by intros [? ?]|by intros [[_ ?] ?]].
Qed.

Lemma requiredColumns_elem (name : string) :
  name ∈ requiredColumns ↔
  name = "AsxCode" ∨ name = "Order Type" ∨ name = "Trade Date" ∨ name = "Avg Price"
  ∨ name = "Quantity".
Proof.
  unfold requiredColumns. rewrite !elem_of_cons, elem_of_nil. tauto.
Qed.

Lemma header_index_None (headerCols : list string) (name : string) :
  indexColumns 0 headerCols ∅ !! name = None ↔ name ∉ headerCols.
Proof.
  rewrite indexColumns_None, lookup_empty. tauto.
Qed.

Lemma header_index_Some (headerCols : list string) (name : string) (k : nat) :
  indexColumns 0 headerCols ∅ !! name = Some k ↔ lastOccurrence headerCols name k.
Proof.
  rewrite indexColumns_lookup, lookup_empty. split.
  - intros [(j & -> & Hj)|[_ ?]]; [done|done].
  - intros Hk. left. by exists k.
Qed.

(** The two outcomes of [ensureRequiredColumns]. *)
Lemma ensureRequiredColumns_cases (headerCols : list string) :
  (∃ asx orderType tradeDate avgPrice qty,
     lastOccurrence headerCols "AsxCode" asx ∧
     lastOccurrence headerCols "Order Type" orderType ∧
     lastOccurrence headerCols "Trade Date" tradeDate ∧
     lastOccurrence headerCols "Avg Price" avgPrice ∧
     lastOccurrence headerCols "Quantity" qty ∧
     ensureRequiredColumns headerCols =
     Ok {| headerCols := headerCols;
           columnIndex := indexColumns 0 headerCols ∅;
           asxIdx := asx;
           orderTypeIdx := orderType;
           tradeDateIdx := tradeDate;
           avgPriceIdx := avgPrice;
           qtyIdx := qty;
           confirmationIdx :=
             match indexColumns 0 headerCols ∅ !! "Confirmation Number" with
             | Some i => Z.of_nat i
             | None => -1
             end |}) ∨
  (∃ name, name ∈ requiredColumns ∧ (name ∉ headerCols) ∧
     ensureRequiredColumns headerCols =
     Throw (MissingColumns (filter (λ name, name ∉ headerCols) requiredColumns))).
Proof.
  unfold ensureRequiredColumns. cbv zeta.
  rewrite (list_filter_iff (λ name, indexColumns 0 headerCols ∅ !! name = None)
             (λ name, name ∉ headerCols) requiredColumns (header_index_None headerCols)).
  destruct (indexColumns 0 headerCols ∅ !! "AsxCode") as [asx|] eqn:H1;
    [|right; exists "AsxCode"; rewrite <- header_index_None, requiredColumns_elem; tauto].
  destruct (indexColumns 0 headerCols ∅ !! "Order Type") as [orderType|] eqn:H2;
    [|right; exists "Order Type"; rewrite <- header_index_None, requiredColumns_elem; tauto].
  destruct (indexColumns 0 headerCols ∅ !! "Trade Date") as [tradeDate|] eqn:H3;
    [|right; exists "Trade Date"; rewrite <- header_index_None, requiredColumns_elem; tauto].
  destruct (indexColumns 0 headerCols ∅ !! "Avg Price") as [avgPrice|] eqn:H4;
    [|right; exists "Avg Price"; rewrite <- header_index_None, requiredColumns_elem; tauto].
  destruct (indexColumns 0 headerCols ∅ !! "Quantity") as [qty|] eqn:H5;
    [|right; exists "Quantity"; rewrite <- header_index_None, requiredColumns_elem; tauto].
  left. exists asx, orderType, tradeDate, avgPrice, qty.
  rewrite <- !header_index_Some. tauto.
Qed.

(** X2. [ensureRequiredColumns] succeeds exactly when the header holds the
    five required names; otherwise the error lists the required names the
    header lacks, all of them, in the order AsxCode, Order Type, Trade
    Date, Avg Price, Quantity. *)
Theorem ensureRequiredColumns_reports_all_missing (headerCols : list string) :
  ((∀ name, name ∈ requiredColumns → name ∈ headerCols) ↔
   ∃ columnInfo, ensureRequiredColumns headerCols = Ok columnInfo) ∧
  (∀ e, ensureRequiredColumns headerCols = Throw e →
        e = MissingColumns (filter (λ name, name ∉ headerCols) requiredColumns) ∧
        filter (λ name, name ∉ headerCols) requiredColumns ≠ [] ∧
        ∀ name, name ∈ filter (λ name, name ∉ headerCols) requiredColumns ↔
                name ∈ requiredColumns ∧ (name ∉ headerCols)).
Proof.
  destruct (ensureRequiredColumns_cases headerCols)
    as [(a & o & t & p & q & Ha & Ho & Ht & Hp & Hq & ->)|(name & Hreq & Hnot & ->)].
  - split; [|done]. split; [by eexists|]. intros _ name.
    rewrite requiredColumns_elem.
    intros [-> | [-> | [-> | [-> | ->]]]]; eapply list_elem_of_lookup_2;
      [apply Ha|apply Ho|apply Ht|apply Hp|apply Hq].
  - split.
    + split; [|by intros [? ?]]. intros Hall. by destruct Hnot; apply Hall.
    + intros e [= <-]. split; [done|]. split.
      * intros Hnil. by apply (filter_nil_not_elem_of _ _ name Hnil Hnot).
      * intros name'. rewrite list_elem_of_filter. tauto.
Qed.

(** X3. When [ensureRequiredColumns] succeeds, each index it returns is
    the place of the last column of that name in the header, and the
    confirmation index is the place of the last Confirmation Number column,
    or -1 when the header has none. *)
Theorem ensureRequiredColumns_finds_last_columns
  (header : list string) (columnInfo : ColumnInfo) :
  ensureRequiredColumns header = Ok columnInfo →
  headerCols columnInfo = header ∧
  lastOccurrence header "AsxCode" (asxIdx columnInfo) ∧
  lastOccurrence header "Order Type" (orderTypeIdx columnInfo) ∧
  lastOccurrence header "Trade Date" (tradeDateIdx columnInfo) ∧
  lastOccurrence header "Avg Price" (avgPriceIdx columnInfo) ∧
  lastOccurrence header "Quantity" (qtyIdx columnInfo) ∧
  (("Confirmation Number" ∉ header) ∧ confirmationIdx columnInfo = (-1)%Z
   ∨ ∃ i, confirmationIdx columnInfo = Z.of_nat i
          ∧ lastOccurrence header "Confirmation Number" i).
Proof.
  destruct (ensureRequiredColumns_cases header)
    as [(a & o & t & p & q & Ha & Ho & Ht & Hp & Hq & ->)|(name & _ & _ & ->)]; [|done].
  intros [= <-]. cbn [headerCols asxIdx orderTypeIdx tradeDateIdx avgPriceIdx qtyIdx
                       confirmationIdx].
  repeat (split; [done|]).
  destruct (indexColumns 0 header ∅ !! "Confirmation Number") as [i|] eqn:Hc.
  - right. exists i. split; [done|]. by apply header_index_Some.
  - left. split; [|done]. by apply header_index_None.
Qed.

Lemma ensureRequiredColumns_finds_last_columns_witness :
  lastOccurrence (parseCsvLine baseHeader) "AsxCode" 2 ∧
  lastOccurrence (parseCsvLine baseHeader) "Quantity" 11 ∧
  lastOccurrence repeatedHeader "Quantity" 5.
Proof.
  destruct (ensureRequiredColumns_finds_last_columns (parseCsvLine baseHeader) baseColumns)
    as (_ & Hasx & _ & _ & _ & Hqty & _); [vm_compute; reflexivity|].
  split; [exact Hasx|]. split; [exact Hqty|].
  destruct (ensureRequiredColumns repeatedHeader) as [columnInfo|e] eqn:Hok;
    [|vm_compute in Hok; discriminate].
  destruct (ensureRequiredColumns_finds_last_columns repeatedHeader columnInfo Hok)
    as (_ & _ & _ & _ & _ & Hq & _).
  assert (qtyIdx columnInfo = 5) as <-; [|exact Hq].
  vm_compute in Hok. by injection Hok as <-.
Defined.

(** ** Parsing the rows *)

Lemma toNumber_not_nan (value : option string) (x : float) :
  toNumber value = Ok x → is_nan x = false.
Proof.
  rewrite toNumber_unfold.
  destruct (JS.trim (JS.removeAll quote (default EmptyString value))) as [|c u].
  - intros [= <-]. reflexivity.
  - cbv beta iota zeta. destruct (is_nan (JS.Number (String c u))) eqn:Hnan; [done|].
    by intros [= <-].
Qed.

Lemma parseRecord_Ok {host : Host} (columnInfo : ColumnInfo) (i : nat) (l : string)
  (r : TradeRecord) :
  parseRecord columnInfo i l = Ok r ↔
  originalIndex r = i ∧ line r = l ∧ cols r = parseCsvLine l ∧
  asxCode r = parseCsvLine l !! asxIdx columnInfo ∧
  orderType r = parseCsvLine l !! orderTypeIdx columnInfo ∧
  parseTradeDate (parseCsvLine l !! tradeDateIdx columnInfo) = Ok (tradeDate r) ∧
  toNumber (parseCsvLine l !! avgPriceIdx columnInfo) = Ok (avgPrice r) ∧
  toNumber (parseCsvLine l !! qtyIdx columnInfo) = Ok (quantity r).
Proof.
  unfold parseRecord, mbind, result_bind. split.
  - destruct (parseTradeDate (parseCsvLine l !! tradeDateIdx columnInfo)) as [date|]; [|done].
    destruct (toNumber (parseCsvLine l !! avgPriceIdx columnInfo)) as [price|]; [|done].
    destruct (toNumber (parseCsvLine l !! qtyIdx columnInfo)) as [qty|]; [|done].
    by intros [= <-].
  - destruct r as [ri rl rc ra ro rd rp rq]. cbn.
    intros (-> & -> & -> & -> & -> & -> & -> & ->). done.
Qed.

(** Of the three fields parsed in a row, the date is parsed first, then
    the price, then the quantity: the row throws the error of the first of
    them that does. *)
Lemma parseRecord_Throw {host : Host} (columnInfo : ColumnInfo) (i : nat) (l : string)
  (e : Error) :
  parseRecord columnInfo i l = Throw e ↔
  parseTradeDate (parseCsvLine l !! tradeDateIdx columnInfo) = Throw e
  ∨ (∃ date, parseTradeDate (parseCsvLine l !! tradeDateIdx columnInfo) = Ok date)
    ∧ (toNumber (parseCsvLine l !! avgPriceIdx columnInfo) = Throw e
       ∨ (∃ price, toNumber (parseCsvLine l !! avgPriceIdx columnInfo) = Ok price)
         ∧ toNumber (parseCsvLine l !! qtyIdx columnInfo) = Throw e).
Proof.
  unfold parseRecord, mbind, result_bind.
  destruct (parseTradeDate (parseCsvLine l !! tradeDateIdx columnInfo)) as [date|e1].
  2:{ split; [intros [= <-]; by left|]. intros [Hd|[[? Hd] _]]; congruence. }
  destruct (toNumber (parseCsvLine l !! avgPriceIdx columnInfo)) as [price|e2].
  2:{ split; [intros [= <-]; right; split; [by eexists|by left]|].
      intros [Hd|[_ [Hp|[[? Hp] _]]]]; congruence. }
  destruct (toNumber (parseCsvLine l !! qtyIdx columnInfo)) as [qty|e3].
  - split; [done|]. intros [Hd|[_ [Hp|[_ Hq]]]]; congruence.
  - split.
    + intros [= <-]. right. split; [by eexists|]. right. split; [by eexists|done].
    + intros [Hd|[_ [Hp|[_ Hq]]]]; congruence.
Qed.

Lemma parseRecordsFrom_rows {host : Host} (i : nat) (lines : list string)
  (columnInfo : ColumnInfo) (records : list TradeRecord) :
  parseRecordsFrom i lines columnInfo = Ok records ↔
  length records = length lines ∧
  ∀ k l, lines !! k = Some l → ∃ r, records !! k = Some r
                                    ∧ parseRecord columnInfo (i + k) l = Ok r.
Proof.
  revert i records. induction lines as [|l lines IH]; intros i records.
  { cbn [parseRecordsFrom]. split.
    - intros [= <-]. done.
    - intros [Hlen _]. destruct records; [done|discriminate]. }
  cbn [parseRecordsFrom]. unfold mbind, result_bind. split.
  - destruct (parseRecord columnInfo i l) as [r|] eqn:Hr; [|done].
    destruct (parseRecordsFrom (S i) lines columnInfo) as [rest|] eqn:Hrest; [|done].
    intros [= <-]. apply IH in Hrest as [Hlen Hrows]. split; [cbn; by rewrite Hlen|].
    intros [|k] l'.
    + intros [= <-]. exists r. by rewrite Nat.add_0_r.
    + intros Hl'. destruct (Hrows k l' Hl') as (r' & Hr' & Hp). exists r'.
      split; [done|]. by rewrite <- Nat.add_succ_comm.
  - intros [Hlen Hrows]. destruct records as [|r rest]; [discriminate|].
    destruct (Hrows 0 l eq_refl) as (r0 & [= <-] & Hr). rewrite Nat.add_0_r in Hr.
    rewrite Hr. assert (parseRecordsFrom (S i) lines columnInfo = Ok rest) as ->; [|done].
    apply IH. split; [by injection Hlen|]. intros k l' Hl'.
    destruct (Hrows (S k) l' Hl') as (r' & Hr' & Hp). exists r'. split; [done|].
    by rewrite Nat.add_succ_comm.
Qed.

Lemma parseRecordsFrom_Throw {host : Host} (i : nat) (lines : list string)
  (columnInfo : ColumnInfo) (e : Error) :
  parseRecordsFrom i lines columnInfo = Throw e ↔
  ∃ k l, lines !! k = Some l ∧ parseRecord columnInfo (i + k) l = Throw e ∧
         ∀ j l', j < k → lines !! j = Some l' →
                 ∃ r, parseRecord columnInfo (i + j) l' = Ok r.
Proof.
  revert i. induction lines as [|l lines IH]; intros i.
  { cbn [parseRecordsFrom]. split; [done|]. by intros (k & l & ? & _). }
  cbn [parseRecordsFrom]. unfold mbind, result_bind.
  destruct (parseRecord columnInfo i l) as [r|e0] eqn:Hr.
  - destruct (parseRecordsFrom (S i) lines columnInfo) as [rest|e1] eqn:Hrest.
    + split; [done|]. intros (k & l' & Hl' & Hthrow & Hbefore).
      destruct k as [|k].
      * injection Hl' as <-. rewrite Nat.add_0_r in Hthrow. congruence.
      * assert (parseRecordsFrom (S i) lines columnInfo = Throw e) as Hcontra; [|congruence].
        apply IH. exists k, l'. split; [done|]. split; [by rewrite Nat.add_succ_comm|].
        intros j l'' Hj Hl''. rewrite Nat.add_succ_comm.
        apply (Hbefore (S j) l''); [lia|done].
    + split.
      * intros [= <-]. apply IH in Hrest as (k & l' & Hl' & Hthrow & Hbefore).
        exists (S k), l'. split; [done|]. split; [by rewrite <- Nat.add_succ_comm|].
        intros [|j] l'' Hj Hl''.
        -- injection Hl'' as <-. exists r. by rewrite Nat.add_0_r.
        -- rewrite <- Nat.add_succ_comm. apply (Hbefore j l''); [lia|done].
      * intros (k & l' & Hl' & Hthrow & Hbefore). f_equal.
        destruct k as [|k].
        -- injection Hl' as <-. rewrite Nat.add_0_r in Hthrow. congruence.
        -- assert (parseRecordsFrom (S i) lines columnInfo = Throw e) as Hsame;
             [|congruence].
           apply IH. exists k, l'. split; [done|]. split; [by rewrite Nat.add_succ_comm|].
           intros j l'' Hj Hl''. rewrite Nat.add_succ_comm.
           apply (Hbefore (S j) l''); [lia|done].
  - split.
    + intros [= <-]. exists 0, l. split; [done|]. split; [by rewrite Nat.add_0_r|].
      intros j l' Hj. lia.
    + intros (k & l' & Hl' & Hthrow & Hbefore). f_equal. destruct k as [|k].
      * injection Hl' as <-. rewrite Nat.add_0_r in Hthrow. congruence.
      * destruct (Hbefore 0 l) as [r Hr0]; [lia|done|].
        rewrite Nat.add_0_r in Hr0. congruence.
Qed.

(** X4. The records [parseRecords] returns are the rows, one for one and
    in their order: the record at place [i] has original index [i], keeps
    its line and the fields the line splits into, takes its code and order
    type from the resolved columns, and its date, price and quantity are
    what the field parsers read there; a price or quantity is never NaN. *)
Theorem parseRecords_keeps_rows {host : Host} (lines : list string)
  (columnInfo : ColumnInfo) (records : list TradeRecord) :
  parseRecords lines columnInfo = Ok records →
  length records = length lines ∧
  ∀ i r, records !! i = Some r →
    originalIndex r = i ∧ lines !! i = Some (line r) ∧
    cols r = parseCsvLine (line r) ∧
    asxCode r = cols r !! asxIdx columnInfo ∧
    orderType r = cols r !! orderTypeIdx columnInfo ∧
    parseTradeDate (cols r !! tradeDateIdx columnInfo) = Ok (tradeDate r) ∧
    toNumber (cols r !! avgPriceIdx columnInfo) = Ok (avgPrice r) ∧
    toNumber (cols r !! qtyIdx columnInfo) = Ok (quantity r) ∧
    is_nan (avgPrice r) = false ∧ is_nan (quantity r) = false.
Proof.
  unfold parseRecords. intros [Hlen Hrows]%parseRecordsFrom_rows. split; [done|].
  intros i r Hr.
  assert (is_Some (lines !! i)) as [l Hl].
  { apply lookup_lt_is_Some. rewrite <- Hlen. by eapply lookup_lt_Some. }
  destruct (Hrows i l Hl) as (r' & Hr' & Hparse). assert (r' = r) as -> by congruence.
  apply parseRecord_Ok in Hparse
    as (Hidx & Hline & Hcols & Hasx & Htype & Hdate & Hprice & Hqty).
  rewrite Hline, Hcols.
  repeat split; try done; [by eapply toNumber_not_nan..].
Qed.

Lemma parseRecords_keeps_rows_witness :
  ∃ records,
    parseRecords (host := ordinalHost)
      [buildRow "AAA" "1" "Buy" "2024-01-01" quotedAmount "10"] baseColumns = Ok records ∧
    ∀ r, records !! 0 = Some r →
         originalIndex r = 0 ∧ asxCode r = Some "AAA" ∧ avgPrice r = 10.5%float
         ∧ is_nan (quantity r) = false.
Proof.
  destruct (parseRecords (host := ordinalHost)
              [buildRow "AAA" "1" "Buy" "2024-01-01" quotedAmount "10"] baseColumns)
    as [records|e] eqn:Hparse; [|vm_compute in Hparse; discriminate].
  exists records. split; [reflexivity|]. intros r Hr.
  destruct (parseRecords_keeps_rows _ _ _ Hparse) as [_ Hrows].
  destruct (Hrows 0 r Hr) as (Hidx & _ & _ & Hasx & _ & _ & _ & _ & _ & Hnan).
  split; [exact Hidx|]. split; [|split; [|exact Hnan]].
  - vm_compute in Hparse. injection Hparse as <-. by injection Hr as <-.
  - vm_compute in Hparse. injection Hparse as <-. by injection Hr as <-.
Defined.

(** X5. [parseRecords] fails exactly when some row fails, with the error
    of the first such row; in that row the trade date is parsed before the
    price and the price before the quantity, and the error is the first of
    theirs. *)
Theorem parseRecords_fails_at_first_bad_row {host : Host} (lines : list string)
  (columnInfo : ColumnInfo) (e : Error) :
  parseRecords lines columnInfo = Throw e ↔
  ∃ i l, lines !! i = Some l ∧
    (∀ j l', j < i → lines !! j = Some l' → ∃ r, parseRecord columnInfo j l' = Ok r) ∧
    (parseTradeDate (parseCsvLine l !! tradeDateIdx columnInfo) = Throw e
     ∨ (∃ date, parseTradeDate (parseCsvLine l !! tradeDateIdx columnInfo) = Ok date)
       ∧ (toNumber (parseCsvLine l !! avgPriceIdx columnInfo) = Throw e
          ∨ (∃ price, toNumber (parseCsvLine l !! avgPriceIdx columnInfo) = Ok price)
            ∧ toNumber (parseCsvLine l !! qtyIdx columnInfo) = Throw e)).
Proof.
  unfold parseRecords. rewrite parseRecordsFrom_Throw. split.
  - intros (k & l & Hl & Hthrow & Hbefore). exists k, l. split; [done|]. split; [done|].
    by apply parseRecord_Throw in Hthrow.
  - intros (k & l & Hl & Hbefore & Hthrow). exists k, l. split; [done|]. split; [|done].
    by apply parseRecord_Throw.
Qed.

(** ** Sorting what is sorted, and sorting a part *)

(** X6. [sortRecords] returns records that are already in processing order
    as they are. When the host's collation orders the tie-break texts of the
    records strictly and totally (nothing is asked without a tie-break
    column), sorting a second time changes nothing, and the order given to
    a part of the records is the order that part has within the whole,
    whatever the part. *)
Theorem sortRecords_settles_the_order {host : Host}
  (records : list TradeRecord) (columnInfo : ColumnInfo) :
  (StronglySorted (chronological collatesBefore columnInfo) records →
   sortRecords records columnInfo = records) ∧
  (tieBreaksCollate columnInfo records →
   sortRecords (sortRecords records columnInfo) columnInfo = sortRecords records columnInfo ∧
   ∀ keep : TradeRecord → bool,
     sortRecords (filter (λ r, keep r = true) records) columnInfo
     = filter (λ r, keep r = true) (sortRecords records columnInfo)).
Proof.
  split; [apply sortRecords_in_order|]. intros Hstrict. split.
  - apply sortRecords_in_order.
    apply (sortRecords_sorted columnInfo _ Hstrict), tieBreaks_among.
  - intros keep. apply (sortRecords_filter columnInfo _ Hstrict), tieBreaks_among.
Qed.

Lemma sortRecords_settles_the_order_witness :
  sortRecords (host := lenientHost)
    (sortRecords (host := lenientHost) sameDayLedger baseColumns) baseColumns
  = [confirmed 1 "1"; confirmed 0 "2"; confirmed 2 "3"] ∧
  sortRecords (host := indifferentHost)
    (filter (λ r, isSell r = true) twoInstruments) plainColumns
  = [trade 4 "BBB" "Sell" 2 6 4; trade 3 "AAA" "Sell" 3 25 5].
Proof.
  destruct (sortRecords_settles_the_order (host := lenientHost) sameDayLedger baseColumns)
    as [_ Hledger].
  destruct (Hledger sameDayLedger_collates) as [Htwice _].
  destruct (sortRecords_settles_the_order (host := indifferentHost)
              twoInstruments plainColumns) as [_ Hplain].
  destruct Hplain as [_ Hpart]; [intros Hcolumn; exfalso; by apply Hcolumn|].
  split.
  - etrans; [exact Htwice|]. vm_compute. reflexivity.
  - etrans; [exact (Hpart isSell)|]. vm_compute. reflexivity.
Defined.

(** ** One instrument at a time *)

Lemma ensurePosition_lookup (ps : gmap string Position.t) (code code' : string) :
  ensurePosition ps code !! code' =
  if decide (code = code') then Some (positionOf ps code) else ps !! code'.
Proof.
  unfold ensurePosition, positionOf.
  destruct (ps !! code) as [p|] eqn:Hp.
  - destruct (decide (code = code')) as [<-|Hne]; [by rewrite Hp|done].
  - destruct (decide (code = code')) as [<-|Hne].
    + by rewrite lookup_insert_eq.
    + by rewrite lookup_insert_ne.
Qed.

(** What a step does to the state, in one shape for the four kinds of
    record: the position of the record's code may change, no other; the
    results change at the record's place or not at all. *)
Lemma processRecord_shape (st st' : State) (r : TradeRecord) :
  processRecord st r = Ok st' →
  (positions st' = positions st
   ∨ (∃ code p, asxCode r = Some code ∧ code ≠ EmptyString ∧
                positions st' = <[code := p]> (ensurePosition (positions st) code))
   ∨ (∃ code, asxCode r = Some code ∧ code ≠ EmptyString ∧
              positions st' = ensurePosition (positions st) code))
  ∧ (profitLossByIndex st' = profitLossByIndex st
     ∨ ∃ x, sellWithCode r = true ∧
            profitLossByIndex st'
            = JS.set (profitLossByIndex st) (originalIndex r) (JS.toFixed2 x)).
Proof.
  unfold processRecord, sellWithCode.
  destruct (asxCode r) as [[|c code]|];
    [by intros [= <-]; split; left| |by intros [= <-]; split; left].
  destruct (isBuy r).
  { intros [= <-]. cbn [positions profitLossByIndex]. split; [|by left].
    right. left. by eexists _, _. }
  destruct (isSell r).
  2:{ intros [= <-]. cbn [positions profitLossByIndex]. split; [|by left].
      right. right. by eexists. }
  destruct (quantity r <=? 0)%float; [done|].
  destruct (_ || _); [done|].
  destruct (quantityEpsilon <? _)%float; [done|].
  intros [= <-]. cbn [positions profitLossByIndex]. split.
  - right. left. by eexists _, _.
  - right. eexists. split; [done|]. reflexivity.
Qed.

Lemma processRecord_foreign (code : string) (st st' : State) (r : TradeRecord) :
  asxCode r ≠ Some code → processRecord st r = Ok st' →
  positions st' !! code = positions st !! code.
Proof.
  intros Hcode [Hps _]%processRecord_shape.
  destruct Hps as [->|[(c & p & Hc & _ & ->)|(c & Hc & _ & ->)]]; [done|..].
  - assert (c ≠ code) as Hne by congruence.
    rewrite lookup_insert_ne by done. rewrite ensurePosition_lookup.
    by destruct (decide (c = code)).
  - assert (c ≠ code) as Hne by congruence.
    rewrite ensurePosition_lookup. by destruct (decide (c = code)).
Qed.

Lemma processRecord_own (code : string) (st1 st2 st1' : State) (r : TradeRecord) :
  asxCode r = Some code →
  positions st1 !! code = positions st2 !! code →
  processRecord st1 r = Ok st1' →
  ∃ st2', processRecord st2 r = Ok st2' ∧
    positions st1' !! code = positions st2' !! code ∧
    (profitLossByIndex st1' = profitLossByIndex st1 ∧
     profitLossByIndex st2' = profitLossByIndex st2
     ∨ ∃ v, profitLossByIndex st1' = JS.set (profitLossByIndex st1) (originalIndex r) v ∧
            profitLossByIndex st2' = JS.set (profitLossByIndex st2) (originalIndex r) v).
Proof.
  intros Hcode Hsame.
  assert (positionOf (positions st1) code = positionOf (positions st2) code) as Hpos.
  { unfold positionOf. by rewrite Hsame. }
  destruct (decide (code = EmptyString)) as [->|Hne].
  { rewrite !processRecord_no_code by (by right). intros [= <-]. exists st2.
    split; [done|]. split; [done|]. by left. }
  destruct (isBuy r) eqn:Hbuy.
  { rewrite !(processRecord_buy _ r code) by done. rewrite Hpos. intros [= <-].
    eexists. split; [reflexivity|]. cbn [positions profitLossByIndex].
    split; [by rewrite !lookup_insert_eq|]. by left. }
  destruct (isSell r) eqn:Hsell.
  { rewrite !(processRecord_sell _ r code) by done. cbv zeta. rewrite Hpos.
    destruct (quantity r <=? 0)%float; [done|].
    destruct (_ || _); [done|].
    destruct (quantityEpsilon <? _)%float; [done|].
    intros [= <-]. eexists. split; [reflexivity|]. cbn [positions profitLossByIndex].
    split; [by rewrite !lookup_insert_eq|]. right. eexists. split; reflexivity. }
  assert (orderKind r = Other) as Hkind by (unfold orderKind; by rewrite Hbuy, Hsell).
  rewrite !(processRecord_other _ r code) by done. intros [= <-].
  eexists. split; [reflexivity|]. cbn [positions profitLossByIndex].
  split; [|by left]. rewrite !ensurePosition_lookup.
  destruct (decide (code = code)); [by rewrite Hpos|done].
Qed.

Lemma initial_field (n i : nat) :
  default EmptyString (JS.get (replicate n (Some EmptyString)) i) = EmptyString.
Proof.
  unfold JS.get. destruct (decide (i < n)) as [Hi|Hi].
  - by rewrite lookup_replicate_2.
  - by rewrite (proj1 (lookup_replicate_None _ _ _)) by lia.
Qed.

(** The run on the records of one code, and the run on all records: the
    position of the code goes the same way in both, and so does every
    result that no record of another code is placed at. *)
Lemma processRecords_own {B} (f : option string → B) (code : string)
  (l : list TradeRecord) (st1 st2 st1' : State) :
  positions st1 !! code = positions st2 !! code →
  processRecords st1 l = Ok st1' →
  ∃ st2', processRecords st2 (filter (λ r, asxCode r = Some code) l) = Ok st2' ∧
    positions st1' !! code = positions st2' !! code ∧
    ∀ i, (∀ r, r ∈ l → asxCode r ≠ Some code → originalIndex r ≠ i) →
         f (JS.get (profitLossByIndex st1) i) = f (JS.get (profitLossByIndex st2) i) →
         f (JS.get (profitLossByIndex st1') i) = f (JS.get (profitLossByIndex st2') i).
Proof.
  revert st1 st2. induction l as [|r l IH]; intros st1 st2 Hsame.
  { intros [= <-]. exists st2. by rewrite filter_nil. }
  cbn [processRecords]. unfold mbind, result_bind.
  destruct (processRecord st1 r) as [st1a|e] eqn:Hstep; [|done]. intros Hrun.
  rewrite filter_cons. destruct (decide (asxCode r = Some code)) as [Hcode|Hcode].
  - destruct (processRecord_own code st1 st2 st1a r Hcode Hsame Hstep)
      as (st2a & Hstep2 & Hsame' & Hres).
    destruct (IH st1a st2a Hsame' Hrun) as (st2' & Hrun2 & Hsame'' & Hrest).
    exists st2'. cbn [processRecords]. unfold mbind, result_bind. rewrite Hstep2.
    split; [done|]. split; [done|]. intros i Hi Hinit. apply Hrest.
    { intros r' Hr'. apply Hi. by right. }
    destruct Hres as [[-> ->]|(v & -> & ->)]; [done|].
    rewrite !get_set. by destruct (decide (originalIndex r = i)).
  - assert (positions st1a !! code = positions st2 !! code) as Hsame'.
    { by rewrite (processRecord_foreign code st1 st1a r Hcode Hstep). }
    destruct (IH st1a st2 Hsame' Hrun) as (st2' & Hrun2 & Hsame'' & Hrest).
    exists st2'. split; [done|]. split; [done|]. intros i Hi Hinit. apply Hrest.
    { intros r' Hr'. apply Hi. by right. }
    apply processRecord_shape in Hstep as [_ [->|(x & _ & ->)]]; [done|].
    rewrite get_set. destruct (decide (originalIndex r = i)) as [Heq|Hne]; [|done].
    exfalso. by apply (Hi r); [left|..].
Qed.

(** X7. Instruments are accounted for apart from one another. In a run
    that succeeds on records with distinct original positions, the loop
    also succeeds on the records of any one instrument code taken alone in
    their processing order, and stores for each of them the result it
    stores in the run on all records. When the host's collation orders the
    tie-break texts of the records strictly and totally (nothing is asked
    without a tie-break column), that is the run of
    [calculateProfitLossForRecords] on the records of the code. *)
Theorem instruments_are_accounted_apart {host : Host}
  (records : list TradeRecord) (columnInfo : ColumnInfo) (code : string)
  (results : list (option string)) :
  NoDup (originalIndex <$> records) →
  calculateProfitLossForRecords records columnInfo = Ok results →
  (∃ st, processRecords (initialState (length records))
           (filter (λ r, asxCode r = Some code) (sortRecords records columnInfo)) = Ok st ∧
     ∀ r, r ∈ records → asxCode r = Some code →
          JS.get (profitLossByIndex st) (originalIndex r)
          = JS.get results (originalIndex r)) ∧
  (tieBreaksCollate columnInfo records →
   ∃ results',
     calculateProfitLossForRecords (filter (λ r, asxCode r = Some code) records) columnInfo
     = Ok results' ∧
     ∀ r, r ∈ records → asxCode r = Some code →
          appendedField results' r = appendedField results r).
Proof.
  intros Hdistinct. unfold calculateProfitLossForRecords.
  destruct (processRecords (initialState (length records)) _) as [st|e] eqn:Hrun; [|done].
  intros [= <-].
  assert (∀ r, r ∈ records → asxCode r = Some code →
               ∀ r', r' ∈ sortRecords records columnInfo → asxCode r' ≠ Some code →
                     originalIndex r' ≠ originalIndex r) as Hapart.
  { intros r Hr Hcode r' Hr' Hcode' Hidx. rewrite sortRecords_Permutation in Hr'.
    assert (r' = r) as -> by (by apply (elem_of_NoDup_fmap originalIndex records)).
    done. }
  split.
  - destruct (processRecords_own id code (sortRecords records columnInfo)
                (initialState (length records)) (initialState (length records)) st
                eq_refl Hrun) as (st' & Hrun' & _ & Hfields).
    exists st'. split; [done|]. intros r Hr Hcode. symmetry.
    by apply (Hfields (originalIndex r)); [apply Hapart|].
  - intros Hstrict.
    rewrite (sortRecords_filter columnInfo _ Hstrict) by apply tieBreaks_among.
    set (n := length (filter _ records)).
    destruct (processRecords_own (default EmptyString) code (sortRecords records columnInfo)
                (initialState (length records)) (initialState n) st eq_refl Hrun)
      as (st' & Hrun' & _ & Hfields).
    exists (profitLossByIndex st'). rewrite Hrun'. split; [done|].
    intros r Hr Hcode. unfold appendedField. symmetry.
    apply Hfields; [by apply Hapart|].
    cbn [initialState profitLossByIndex]. by rewrite !initial_field.
Qed.

Lemma instruments_are_accounted_apart_witness :
  ∃ results results',
    calculateProfitLossForRecords (host := indifferentHost) twoInstruments plainColumns
    = Ok results ∧
    calculateProfitLossForRecords (host := indifferentHost)
      [trade 0 "AAA" "Buy" 1 10 10; trade 1 "AAA" "Buy" 2 20 10; trade 3 "AAA" "Sell" 3 25 5]
      plainColumns = Ok results' ∧
    appendedField results' (trade 3 "AAA" "Sell" 3 25 5) = "50.00" ∧
    appendedField results (trade 3 "AAA" "Sell" 3 25 5) = "50.00".
Proof.
  destruct (calculateProfitLossForRecords (host := indifferentHost) twoInstruments plainColumns)
    as [results|e] eqn:Hall; [|vm_compute in Hall; discriminate].
  destruct (instruments_are_accounted_apart (host := indifferentHost)
              twoInstruments plainColumns "AAA" results) as [_ Hapart].
  { apply (bool_decide_unpack (NoDup (originalIndex <$> twoInstruments))).
    vm_compute. reflexivity. }
  { exact Hall. }
  destruct Hapart as (results' & Hown & Hsame);
    [intros Hcolumn; exfalso; by apply Hcolumn|].
  exists results, results'. split; [reflexivity|]. split; [exact Hown|].
  assert (appendedField results (trade 3 "AAA" "Sell" 3 25 5) = "50.00") as Hfield.
  { vm_compute in Hall. injection Hall as <-. vm_compute. reflexivity. }
  split; [|exact Hfield]. etrans; [|exact Hfield]. apply Hsame.
  - apply (list_elem_of_lookup_2 twoInstruments 3). reflexivity.
  - reflexivity.
Defined.

(** ** Which rows get a result *)

Lemma append_nonempty (s t : string) : t ≠ EmptyString → s +:+ t ≠ EmptyString.
Proof. destruct s; [done|]. discriminate. Qed.

Lemma toFixed2_nonempty (x : float) : JS.toFixed2 x ≠ EmptyString.
Proof.
  unfold JS.toFixed2. destruct (Prim2SF x) as [s|s| |s m e]; [done|by destruct s|done|].
  apply append_nonempty.
  destruct (_ <=? _)%N.
  - unfold JS.exponential. destruct (JS.shortest _ _ _ _) as [d n].
    by apply append_nonempty.
  - unfold JS.fixed2. cbv zeta. by apply append_nonempty.
Qed.

Lemma set_length {A} (arr : list (option A)) (i : nat) (v : A) :
  i < length arr → length (JS.set arr i v) = length arr.
Proof.
  intros Hi. unfold JS.set. destruct (decide (i < length arr)); [|done].
  by rewrite length_insert.
Qed.

Lemma processRecord_sale (st st' : State) (r : TradeRecord) :
  sellWithCode r = true → processRecord st r = Ok st' →
  (quantity r <=? 0)%float = false ∧
  ∃ x, profitLossByIndex st'
       = JS.set (profitLossByIndex st) (originalIndex r) (JS.toFixed2 x).
Proof.
  unfold sellWithCode. destruct (asxCode r) as [[|c code]|] eqn:Hcode; [done| |done].
  intros Hsell. rewrite (processRecord_sell st r (String c code)) by done. cbv zeta.
  destruct (quantity r <=? 0)%float; [done|].
  destruct (_ || _); [done|].
  destruct (quantityEpsilon <? _)%float; [done|].
  intros [= <-]. split; [done|]. eexists. cbn [profitLossByIndex]. reflexivity.
Qed.

Lemma processRecord_no_sale (st : State) (r : TradeRecord) :
  sellWithCode r = false →
  ∃ st', processRecord st r = Ok st' ∧ profitLossByIndex st' = profitLossByIndex st.
Proof.
  unfold sellWithCode, processRecord.
  destruct (asxCode r) as [[|c code]|]; [by exists st| |by exists st].
  intros ->. destruct (isBuy r); by eexists.
Qed.

Lemma processRecords_sales (l : list TradeRecord) (st st' : State) :
  processRecords st l = Ok st' →
  (∀ i, (∀ r, r ∈ l → sellWithCode r = true → originalIndex r ≠ i) →
        JS.get (profitLossByIndex st') i = JS.get (profitLossByIndex st) i) ∧
  (∀ i, (∃ x, JS.get (profitLossByIndex st) i = Some (JS.toFixed2 x))
        ∨ (∃ r, r ∈ l ∧ sellWithCode r = true ∧ originalIndex r = i) →
        ∃ x, JS.get (profitLossByIndex st') i = Some (JS.toFixed2 x)) ∧
  (∀ r, r ∈ l → sellWithCode r = true → (quantity r <=? 0)%float = false) ∧
  ((∀ r, r ∈ l → originalIndex r < length (profitLossByIndex st)) →
   length (profitLossByIndex st') = length (profitLossByIndex st)).
Proof.
  revert st. induction l as [|r l IH]; intros st.
  { intros [= <-]. split; [done|]. split; [|split; [|done]].
    - intros i [Hx|(r & Hr & _)]; [done|]. by apply elem_of_nil in Hr.
    - intros r Hr. by apply elem_of_nil in Hr. }
  cbn [processRecords]. unfold mbind, result_bind.
  destruct (processRecord st r) as [st1|e] eqn:Hstep; [|done]. intros Hrun.
  destruct (IH st1 Hrun) as (Hkeep & Hset & Hqty & Hlen).
  pose proof (processRecord_shape st st1 r Hstep) as [_ Hres].
  split; [|split; [|split]].
  - intros i Hi. rewrite Hkeep by (intros r' Hr'; apply Hi; by right).
    destruct Hres as [->|(x & Hsell & ->)]; [done|].
    rewrite get_set. destruct (decide (originalIndex r = i)) as [Heq|Hne]; [|done].
    exfalso. by apply (Hi r); [left|..].
  - intros i Hi. apply Hset.
    destruct Hi as [[x Hx]|(r' & Hr' & Hsell & Hidx)].
    + left. destruct Hres as [->|(y & _ & ->)]; [by exists x|].
      rewrite get_set. destruct (decide (originalIndex r = i)); [by exists y|by exists x].
    + apply elem_of_cons in Hr' as [->|Hr']; [|right; by exists r'].
      left. destruct (processRecord_sale st st1 r Hsell Hstep) as [_ [x ->]].
      exists x. rewrite get_set. by destruct (decide (originalIndex r = i)).
  - intros r' [->|Hr']%elem_of_cons Hsell; [|by apply Hqty].
    by destruct (processRecord_sale st st1 r Hsell Hstep).
  - intros Hrange.
    assert (length (profitLossByIndex st1) = length (profitLossByIndex st)) as Hstep_len.
    { destruct Hres as [->|(x & _ & ->)]; [done|]. apply set_length, Hrange. by left. }
    rewrite Hlen, Hstep_len; [done|]. intros r' Hr'. rewrite Hstep_len. apply Hrange.
    by right.
Qed.

Lemma processRecords_no_sales (l : list TradeRecord) (st : State) :
  (∀ r, r ∈ l → sellWithCode r = false) →
  ∃ st', processRecords st l = Ok st' ∧ profitLossByIndex st' = profitLossByIndex st.
Proof.
  revert st. induction l as [|r l IH]; intros st Hl; [by exists st|].
  destruct (processRecord_no_sale st r) as (st1 & Hstep & Hres); [apply Hl; by left|].
  destruct (IH st1) as (st' & Hrun & Hres'); [intros r' Hr'; apply Hl; by right|].
  exists st'. cbn [processRecords]. unfold mbind, result_bind. rewrite Hstep.
  split; [done|]. by rewrite Hres', Hres.
Qed.

Lemma positive_of_not_leb_zero (x : float) :
  is_nan x = false → (x <=? 0)%float = false → (0 <? x)%float = true.
Proof.
  unfold is_nan. rewrite FloatAxioms.eqb_spec, leb_spec, ltb_spec.
  unfold SFeqb, SFleb, SFltb. change (Prim2SF 0) with (S754_zero false).
  destruct (Prim2SF x) as [s|s| |s m e]; try destruct s; simpl; intros Hnan Hle;
    try reflexivity; discriminate.
Qed.

(** X8. After a run that succeeds on records with distinct original
    positions, the records that get a result are exactly the Sell records
    with an instrument code: each of them holds, at its original position,
    the two-decimal text of a number, which is never empty; every other
    record's result field is empty. When the original positions are places
    of the input, the result array has the length of the input. *)
Theorem sales_and_only_sales_get_a_result {host : Host}
  (records : list TradeRecord) (columnInfo : ColumnInfo) (results : list (option string)) :
  NoDup (originalIndex <$> records) →
  calculateProfitLossForRecords records columnInfo = Ok results →
  (∀ r, r ∈ records →
     if sellWithCode r
     then (∃ x, JS.get results (originalIndex r) = Some (JS.toFixed2 x))
          ∧ appendedField results r ≠ EmptyString
     else appendedField results r = EmptyString) ∧
  ((∀ r, r ∈ records → originalIndex r < length records) →
   length results = length records).
Proof.
  intros Hdistinct. unfold calculateProfitLossForRecords.
  destruct (processRecords (initialState (length records)) _) as [st|e] eqn:Hrun; [|done].
  intros [= <-]. apply processRecords_sales in Hrun as (Hkeep & Hset & _ & Hlen).
  split.
  - intros r Hr. destruct (sellWithCode r) eqn:Hsell.
    + destruct (Hset (originalIndex r)) as [x Hx].
      { right. exists r. by rewrite sortRecords_Permutation. }
      split; [by exists x|]. unfold appendedField. rewrite Hx. apply toFixed2_nonempty.
    + unfold appendedField. rewrite Hkeep; [apply initial_field|].
      intros r' Hr' Hsell' Hidx. rewrite sortRecords_Permutation in Hr'.
      assert (r' = r) as -> by (by apply (elem_of_NoDup_fmap originalIndex records)).
      congruence.
  - intros Hrange. rewrite Hlen; [apply length_replicate|].
    intros r Hr. rewrite sortRecords_Permutation in Hr.
    cbn [initialState profitLossByIndex]. rewrite length_replicate. by apply Hrange.
Qed.

Lemma sales_and_only_sales_get_a_result_witness :
  ∃ results,
    calculateProfitLossForRecords (host := ordinalHost) twoInstruments plainColumns
    = Ok results ∧
    appendedField results (trade 0 "AAA" "Buy" 1 10 10) = EmptyString ∧
    appendedField results (trade 4 "BBB" "Sell" 2 6 4) ≠ EmptyString ∧
    length results = 5.
Proof.
  destruct (calculateProfitLossForRecords (host := ordinalHost) twoInstruments plainColumns)
    as [results|e] eqn:Hall; [|vm_compute in Hall; discriminate].
  destruct (sales_and_only_sales_get_a_result (host := ordinalHost)
              twoInstruments plainColumns results) as [Hrows Hlen].
  { apply (bool_decide_unpack (NoDup (originalIndex <$> twoInstruments))).
    vm_compute. reflexivity. }
  { exact Hall. }
  exists results. split; [reflexivity|]. split; [|split].
  - apply (Hrows (trade 0 "AAA" "Buy" 1 10 10)).
    apply (list_elem_of_lookup_2 twoInstruments 0). reflexivity.
  - apply (Hrows (trade 4 "BBB" "Sell" 2 6 4)).
    apply (list_elem_of_lookup_2 twoInstruments 4). reflexivity.
  - apply Hlen. intros r Hr. apply list_elem_of_lookup_1 in Hr as [i Hi].
    do 5 (destruct i as [|i]; [injection Hi as <-; vm_compute; lia|]). discriminate.
Defined.

(** X9. Only a Sell record with an instrument code can make a run fail:
    on records without one, whatever else they hold,
    [calculateProfitLossForRecords] succeeds and every result is the empty
    text. *)
Theorem ledger_without_sales_never_fails {host : Host}
  (records : list TradeRecord) (columnInfo : ColumnInfo) :
  (∀ r, r ∈ records → sellWithCode r = false) →
  calculateProfitLossForRecords records columnInfo
  = Ok (replicate (length records) (Some EmptyString)).
Proof.
  intros Hrecords. unfold calculateProfitLossForRecords.
  destruct (processRecords_no_sales (sortRecords records columnInfo)
              (initialState (length records))) as (st & -> & Hres).
  - intros r Hr. apply Hrecords. by rewrite <- (sortRecords_Permutation records columnInfo).
  - cbn [fmap result_fmap]. by rewrite Hres.
Qed.

Lemma ledger_without_sales_never_fails_witness :
  calculateProfitLossForRecords (host := ordinalHost) [blankCodeRow; dividendRow; negativeBuyRow]
    plainColumns
  = Ok [Some EmptyString; Some EmptyString; Some EmptyString].
Proof.
  apply (ledger_without_sales_never_fails (host := ordinalHost)
           [blankCodeRow; dividendRow; negativeBuyRow] plainColumns).
  intros r Hr. apply list_elem_of_lookup_1 in Hr as [i Hi].
  do 3 (destruct i as [|i]; [injection Hi as <-; vm_compute; reflexivity|]). discriminate.
Defined.

(** X10. A record that [parseRecords] has read and that
    [calculateProfitLossForRecords] accepts as a sale has a quantity
    greater than zero. The check of the loop alone, [quantity <= 0], lets a
    NaN through; it is [toNumber] that never returns one. *)
Theorem accepted_sales_have_positive_quantity {host : Host}
  (lines : list string) (columnInfo : ColumnInfo) (records : list TradeRecord)
  (results : list (option string)) :
  parseRecords lines columnInfo = Ok records →
  calculateProfitLossForRecords records columnInfo = Ok results →
  ∀ r, r ∈ records → sellWithCode r = true → (0 <? quantity r)%float = true.
Proof.
  intros Hparse. unfold calculateProfitLossForRecords.
  destruct (processRecords (initialState (length records)) _) as [st|e] eqn:Hrun; [|done].
  intros _ r Hr Hsell.
  apply processRecords_sales in Hrun as (_ & _ & Hqty & _).
  apply positive_of_not_leb_zero.
  - apply parseRecordsFrom_rows in Hparse as [Hlen Hrows].
    apply list_elem_of_lookup_1 in Hr as [i Hi].
    assert (is_Some (lines !! i)) as [l Hl].
    { apply lookup_lt_is_Some. rewrite <- Hlen. by eapply lookup_lt_Some. }
    destruct (Hrows i l Hl) as (r' & Hr' & Hrow). assert (r' = r) as -> by congruence.
    apply parseRecord_Ok in Hrow as (_ & _ & _ & _ & _ & _ & _ & Hq).
    by eapply toNumber_not_nan.
  - apply Hqty; [|done]. by rewrite sortRecords_Permutation.
Qed.

Lemma accepted_sales_have_positive_quantity_witness :
  ∃ records,
    parseRecords (host := ordinalHost) sampleRows baseColumns = Ok records ∧
    ∀ r, r ∈ records → sellWithCode r = true → (0 <? quantity r)%float = true.
Proof.
  destruct (parseRecords (host := ordinalHost) sampleRows baseColumns)
    as [records|e] eqn:Hparse; [|vm_compute in Hparse; discriminate].
  destruct (calculateProfitLossForRecords (host := ordinalHost) records baseColumns)
    as [results|e] eqn:Hrun.
  - exists records. split; [reflexivity|].
    exact (accepted_sales_have_positive_quantity (host := ordinalHost)
             sampleRows baseColumns records results Hparse Hrun).
  - pose proof Hparse as Hrecords. vm_compute in Hrecords. injection Hrecords as <-.
    vm_compute in Hrun. discriminate.
Defined.

(** ** The sale in a run *)

(** C1. A Sell record that passes the three checks is given, at its
    original position, the two-decimal text of
    [avgPrice * quantity - totalCost / heldQuantity * quantity], computed
    from the position as it stands before the sale. In a run of
    [calculateProfitLossForRecords] that succeeds on records with distinct
    original positions, that position is the one left by the records
    processed earlier, in processing order, and the text is what the
    returned array holds at the record's original position. The ledger
    buy 10 at 10, buy 10 at 20, sell 10 at 30 yields 150.00. *)
Theorem sell_records_average_cost_profit {host : Host} :
  (∀ (st : State) (record : TradeRecord) (code : string),
     asxCode record = Some code → code ≠ EmptyString → isSell record = true →
     (quantity record <=? 0)%float = false →
     (Position.quantity (positionOf (positions st) code) <=? 0)%float = false →
     (Position.totalCost (positionOf (positions st) code) <=? 0)%float = false →
     (quantityEpsilon <?
        quantity record - Position.quantity (positionOf (positions st) code))%float = false →
     ∃ st', processRecord st record = Ok st' ∧
       JS.get (profitLossByIndex st') (originalIndex record) =
       Some (JS.toFixed2
               (avgPrice record * quantity record
                - Position.totalCost (positionOf (positions st) code)
                  / Position.quantity (positionOf (positions st) code)
                  * quantity record)))
  ∧ (∀ (records : list TradeRecord) (columnInfo : ColumnInfo)
       (results : list (option string)) (earlier later : list TradeRecord)
       (record : TradeRecord) (code : string),
       NoDup (originalIndex <$> records) →
       calculateProfitLossForRecords records columnInfo = Ok results →
       sortRecords records columnInfo = earlier ++ record :: later →
       asxCode record = Some code → code ≠ EmptyString → isSell record = true →
       ∃ st, processRecords (initialState (length records)) earlier = Ok st ∧
         (quantity record <=? 0)%float = false ∧
         (Position.quantity (positionOf (positions st) code) <=? 0)%float = false ∧
         (Position.totalCost (positionOf (positions st) code) <=? 0)%float = false ∧
         (quantityEpsilon <?
            quantity record - Position.quantity (positionOf (positions st) code))%float
         = false ∧
         JS.get results (originalIndex record) =
         Some (JS.toFixed2
                 (avgPrice record * quantity record
                  - Position.totalCost (positionOf (positions st) code)
                    / Position.quantity (positionOf (positions st) code)
                    * quantity record)))
  ∧ calculateProfitLossForRecords averageLedger plainColumns
    = Ok [Some "150.00"; Some EmptyString; Some EmptyString].
Proof.
  split; [|split].
  - intros st record code Hcode Hne Hsell Hq Hheld Hcost Hover.
    rewrite (processRecord_sell st record code Hcode Hne Hsell). cbv zeta.
    rewrite Hq, Hheld, Hcost, Hover. simpl.
    eexists. split; [reflexivity|]. simpl.
    rewrite get_set. by rewrite decide_True.
  - intros records columnInfo results earlier later record code
      Hdistinct Hrun Hsorted Hcode Hne Hsell.
    unfold calculateProfitLossForRecords in Hrun.
    rewrite <- (sortRecords_Permutation records columnInfo) in Hdistinct.
    rewrite Hsorted in Hdistinct, Hrun.
    rewrite fmap_app, fmap_cons in Hdistinct.
    apply NoDup_app in Hdistinct as (_ & _ & [Hlater _]%NoDup_cons).
    rewrite processRecords_app in Hrun. unfold mbind, result_bind in Hrun.
    destruct (processRecords (initialState (length records)) earlier) as [st|e];
      [|done].
    exists st. split; [done|]. cbn [processRecords] in Hrun.
    unfold mbind, result_bind in Hrun.
    rewrite (processRecord_sell st record code Hcode Hne Hsell) in Hrun.
    cbv zeta in Hrun.
    destruct (quantity record <=? 0)%float; [done|].
    destruct (Position.quantity (positionOf (positions st) code) <=? 0)%float; [done|].
    destruct (Position.totalCost (positionOf (positions st) code) <=? 0)%float; [done|].
    cbn [orb] in Hrun.
    destruct (quantityEpsilon <? _)%float; [done|].
    repeat (split; [reflexivity|]).
    destruct (processRecords _ later) as [final|e] eqn:Hlast; [|done].
    injection Hrun as <-.
    apply processRecords_sales in Hlast as (Hkeep & _).
    rewrite (Hkeep (originalIndex record)).
    + cbn [profitLossByIndex]. rewrite get_set. by rewrite decide_True.
    + intros r Hr _ Hidx. apply Hlater. rewrite <- Hidx. by apply list_elem_of_fmap_2.
  - vm_compute. reflexivity.
Qed.

Lemma sell_records_average_cost_profit_witness :
  ∃ st, processRecords (initialState 3)
          [trade 2 "ABC" "Buy" 1 10 10; trade 1 "ABC" "Buy" 2 20 10] = Ok st ∧
    positionOf (positions st) "ABC"
    = {| Position.quantity := 20; Position.totalCost := 300 |} ∧
    JS.get [Some "150.00"; Some EmptyString; Some EmptyString] 0
    = Some (JS.toFixed2 (30 * 10 - 300 / 20 * 10)) ∧
    JS.toFixed2 (30 * 10 - 300 / 20 * 10) = "150.00".
Proof.
  destruct (proj1 (proj2 (sell_records_average_cost_profit (host := ordinalHost)))
              averageLedger plainColumns [Some "150.00"; Some EmptyString; Some EmptyString]
              [trade 2 "ABC" "Buy" 1 10 10; trade 1 "ABC" "Buy" 2 20 10] []
              (trade 0 "ABC" "Sell" 3 30 10) "ABC")
    as (st & Hearlier & _ & _ & _ & _ & Hget).
  - apply (bool_decide_unpack (NoDup (originalIndex <$> averageLedger))).
    vm_compute. reflexivity.
  - vm_compute. reflexivity.
  - vm_compute. reflexivity.
  - reflexivity.
  - discriminate.
  - reflexivity.
  - exists st. split; [exact Hearlier|].
    assert (positionOf (positions st) "ABC"
            = {| Position.quantity := 20; Position.totalCost := 300 |}) as Hposition.
    { vm_compute in Hearlier. injection Hearlier as <-. vm_compute. reflexivity. }
    split; [exact Hposition|]. rewrite Hposition in Hget. cbn [Position.quantity
      Position.totalCost] in Hget.
    split; [exact Hget|]. vm_compute. reflexivity.
Defined.

(** ** Positions after each record *)

(** *** Signs in binary64 arithmetic *)

Lemma binary_round_aux_opp (p e : Z) (sx : bool) (m ex : Z) (l : location) :
  binary_round_aux p e (negb sx) m ex l = SFopp (binary_round_aux p e sx m ex l).
Proof.
  unfold binary_round_aux. destruct (shr_fexp p e m ex l) as [mrs' e'].
  destruct (shr_fexp p e _ e' loc_Exact) as [mrs'' e''].
  destruct (shr_m mrs'') as [|m'|m']; [done| |done].
  by destruct (e'' <=? e - p)%Z.
Qed.

Lemma binary_round_aux_sign (p e : Z) (m ex : Z) (l : location) :
  SFltb (binary_round_aux p e false m ex l) (S754_zero false) = false.
Proof.
  unfold binary_round_aux. destruct (shr_fexp p e m ex l) as [mrs' e'].
  destruct (shr_fexp p e _ e' loc_Exact) as [mrs'' e''].
  destruct (shr_m mrs'') as [|m'|m']; [done| |done].
  by destruct (e'' <=? e - p)%Z.
Qed.

Lemma binary_normalize_opp (p e : Z) (m ex : Z) :
  binary_normalize p e (- m) ex false = SFopp (binary_normalize p e m ex false)
  ∨ (m = 0%Z).
Proof.
  destruct m as [|m|m]; [by right|left..].
  - change (- Z.pos m)%Z with (Z.neg m). unfold binary_normalize, binary_round.
    destruct (shl_align _ _ _) as [mz ez].
    apply (binary_round_aux_opp p e false).
  - change (- Z.neg m)%Z with (Z.pos m). unfold binary_normalize, binary_round.
    destruct (shl_align _ _ _) as [mz ez].
    apply (binary_round_aux_opp p e true).
Qed.

Lemma binary_normalize_sign (p e : Z) (m ex : Z) :
  (0 <= m)%Z → SFltb (binary_normalize p e m ex false) (S754_zero false) = false.
Proof.
  destruct m as [|m|m]; [done| |lia]. intros _. unfold binary_normalize, binary_round. destruct (shl_align _ _ _) as [mz ez].
  apply binary_round_aux_sign.
Qed.

(** [y - x] is the opposite of [x - y], up to the sign of a zero. *)
Lemma SFsub_swap (p e : Z) (x y : spec_float) :
  SFsub p e y x = SFopp (SFsub p e x y)
  ∨ ∃ s s', SFsub p e x y = S754_zero s ∧ SFsub p e y x = S754_zero s'.
Proof.
  destruct x as [sx|sx| |sx mx ex], y as [sy|sy| |sy my ey];
    try (left; reflexivity);
    try (destruct sx, sy; (by left) || (right; by eexists _, _)).
  cbn [SFsub]. rewrite (Z.min_comm ey ex).
  set (X := cond_Zopp sx _). set (Y := cond_Zopp sy _).
  replace (Y - X)%Z with (- (X - Y))%Z by lia.
  destruct (binary_normalize_opp p e (X - Y) (Z.min ex ey)) as [Hopp|Hzero];
    [by left|].
  right. rewrite Hzero. by exists false, false.
Qed.

Lemma SFltb_opp (a b : spec_float) : SFltb (SFopp a) (SFopp b) = SFltb b a.
Proof.
  unfold SFltb.
  destruct a as [sa|sa| |sa ma ea], b as [sb|sb| |sb mb eb]; cbn [SFopp SFcompare];
    try reflexivity; try (by destruct sa); try (by destruct sb);
    try (by destruct sa, sb).
  destruct sa, sb; cbn [negb]; try reflexivity.
  - rewrite (Z.compare_antisym ea eb). destruct (ea ?= eb)%Z; cbn [CompOpp]; try reflexivity.
    by rewrite (Pos.compare_cont_antisym mb ma Eq).
  - rewrite (Z.compare_antisym ea eb). destruct (ea ?= eb)%Z; cbn [CompOpp]; try reflexivity.
    by rewrite (Pos.compare_cont_antisym ma mb Eq).
Qed.

(** When [b - a] is not above [eps], [a - b] is not below [- eps]. *)
Lemma sub_not_below (a b eps : float) :
  (eps <? b - a)%float = false → (a - b <? - eps)%float = false.
Proof.
  rewrite !ltb_spec, !sub_spec, opp_spec. unfold SF64sub.
  destruct (SFsub_swap prec emax (Prim2SF b) (Prim2SF a)) as [->|(s & s' & -> & ->)].
  - by rewrite SFltb_opp.
  - unfold SFltb. destruct (Prim2SF eps) as [se|se| |se me ee]; cbn; try done;
      by destruct se.
Qed.

Lemma add_not_negative (a b : float) :
  (a <? 0)%float = false → (b <? 0)%float = false → (a + b <? 0)%float = false.
Proof.
  rewrite !ltb_spec, add_spec. change (Prim2SF 0) with (S754_zero false).
  unfold SF64add.
  destruct (Prim2SF a) as [sa|sa| |sa ma ea], (Prim2SF b) as [sb|sb| |sb mb eb];
    try done; try (by destruct sa, sb); try (by destruct sa); try (by destruct sb).
  destruct sa; [done|]. destruct sb; [done|]. intros _ _.
  cbn [SFadd]. apply binary_normalize_sign. cbn [cond_Zopp]. lia.
Qed.

Lemma mul_not_negative (a b : float) :
  (a <? 0)%float = false → (b <? 0)%float = false → (a * b <? 0)%float = false.
Proof.
  rewrite !ltb_spec, mul_spec. change (Prim2SF 0) with (S754_zero false).
  unfold SF64mul.
  destruct (Prim2SF a) as [sa|sa| |sa ma ea], (Prim2SF b) as [sb|sb| |sb mb eb];
    try done; try (by destruct sa, sb); try (by destruct sa); try (by destruct sb).
  destruct sa; [done|]. destruct sb; [done|]. intros _ _.
  cbn [SFmul xorb]. apply binary_round_aux_sign.
Qed.

Lemma snap_not_below (x : float) :
  (x <? - quantityEpsilon)%float = false →
  (snap quantityEpsilon x <? - quantityEpsilon)%float = false.
Proof. unfold snap. by destruct (abs x <? quantityEpsilon)%float. Qed.

(** *** What a record leaves behind *)

(** C3. The position a record leaves behind, in a run that succeeds. The
    record changes the position of its own code only. After a Sell the
    held quantity of that code is not below -1e-8: a sale may exceed the
    holding by the tolerance. A Buy adds its quantity and its price times
    its quantity, unchecked: it leaves a held quantity and a total cost
    that are not negative when they were not negative before and the
    record's price and quantity are not negative. A record of another kind
    leaves the position as it was. No sign is kept for the total cost after
    a Sell. *)
Theorem positions_after_each_record {host : Host}
  (records : list TradeRecord) (columnInfo : ColumnInfo) (results : list (option string))
  (earlier later : list TradeRecord) (record : TradeRecord) (code : string) :
  calculateProfitLossForRecords records columnInfo = Ok results →
  sortRecords records columnInfo = earlier ++ record :: later →
  asxCode record = Some code → code ≠ EmptyString →
  ∃ st st',
    processRecords (initialState (length records)) earlier = Ok st ∧
    processRecord st record = Ok st' ∧
    let held := positionOf (positions st) code in
    let after := positionOf (positions st') code in
    (∀ other, other ≠ code →
              positionOf (positions st') other = positionOf (positions st) other) ∧
    (isSell record = true →
     (Position.quantity after <? - quantityEpsilon)%float = false) ∧
    (isBuy record = true →
     Position.quantity after = (Position.quantity held + quantity record)%float ∧
     Position.totalCost after
     = (Position.totalCost held + avgPrice record * quantity record)%float ∧
     ((Position.quantity held <? 0)%float = false →
      (quantity record <? 0)%float = false →
      (Position.quantity after <? 0)%float = false) ∧
     ((Position.totalCost held <? 0)%float = false →
      (avgPrice record <? 0)%float = false → (quantity record <? 0)%float = false →
      (Position.totalCost after <? 0)%float = false)) ∧
    (orderKind record = Other → after = held).
Proof.
  unfold calculateProfitLossForRecords. intros Hrun Hsorted Hcode Hne.
  rewrite Hsorted, processRecords_app in Hrun. unfold mbind, result_bind in Hrun.
  destruct (processRecords (initialState (length records)) earlier) as [st|e]; [|done].
  cbn [processRecords] in Hrun. unfold mbind, result_bind in Hrun.
  destruct (processRecord st record) as [st'|e] eqn:Hstep; [|done]. clear Hrun.
  exists st, st'. split; [done|]. split; [done|]. cbv zeta.
  split; [|split; [|split]].
  - intros other Hother. unfold positionOf.
    rewrite (processRecord_foreign other st st' record); [done|congruence|done].
  - intros Hsell. rewrite (processRecord_sell st record code Hcode Hne Hsell) in Hstep.
    cbv zeta in Hstep.
    destruct (quantity record <=? 0)%float; [done|].
    destruct (_ || _); [done|].
    destruct (quantityEpsilon <? _)%float eqn:Hover; [done|].
    injection Hstep as <-. cbn [positions]. rewrite positionOf_insert.
    rewrite decide_True by done. cbn [Position.quantity].
    by apply snap_not_below, sub_not_below.
  - intros Hbuy. rewrite (processRecord_buy st record code Hcode Hne Hbuy) in Hstep.
    injection Hstep as <-. cbn [positions]. rewrite positionOf_insert.
    rewrite decide_True by done. cbn [Position.quantity Position.totalCost].
    split; [done|]. split; [done|]. split.
    + apply add_not_negative.
    + intros Hcost Hprice Hqty. apply add_not_negative; [done|].
      by apply mul_not_negative.
  - intros Hkind. rewrite (processRecord_other st record code Hcode Hne Hkind) in Hstep.
    injection Hstep as <-. cbn [positions]. apply positionOf_ensurePosition.
Qed.

Lemma positions_after_each_record_witness :
  ∃ st st',
    processRecords (initialState 2) [trade 0 "A" "Buy" 1 1 quantityEpsilon] = Ok st ∧
    processRecord st (trade 1 "A" "Sell" 2 1 (2 * quantityEpsilon)) = Ok st' ∧
    Position.quantity (positionOf (positions st') "A") = (- quantityEpsilon)%float ∧
    (Position.quantity (positionOf (positions st') "A") <? - quantityEpsilon)%float = false.
Proof.
  destruct (positions_after_each_record (host := ordinalHost) toleratedOversale plainColumns
              [Some EmptyString; Some "0.00"]
              [trade 0 "A" "Buy" 1 1 quantityEpsilon] []
              (trade 1 "A" "Sell" 2 1 (2 * quantityEpsilon)) "A")
    as (st & st' & Hearlier & Hstep & _ & Hsell & _).
  - vm_compute. reflexivity.
  - vm_compute. reflexivity.
  - reflexivity.
  - discriminate.
  - exists st, st'. split; [exact Hearlier|]. split; [exact Hstep|].
    split; [|exact (Hsell eq_refl)].
    vm_compute in Hearlier. injection Hearlier as <-.
    vm_compute in Hstep. injection Hstep as <-. vm_compute. reflexivity.
Defined.

(** ** Reordering the input *)

(** Records that differ in their place only are processed alike: both
    throw the same error, or both keep the results, or both write the same
    text, each at its own place. *)
Lemma processRecord_content (st st' : State) (a a' : TradeRecord) :
  content a = content a' → positions st = positions st' →
  (∃ e, processRecord st a = Throw e ∧ processRecord st' a' = Throw e) ∨
  (∃ ps, processRecord st a = Ok {| positions := ps; profitLossByIndex := profitLossByIndex st |}
         ∧ processRecord st' a'
           = Ok {| positions := ps; profitLossByIndex := profitLossByIndex st' |}) ∨
  (∃ ps v,
     sellWithCode a = true ∧
     processRecord st a
     = Ok {| positions := ps;
             profitLossByIndex := JS.set (profitLossByIndex st) (originalIndex a) v |}
     ∧ processRecord st' a'
       = Ok {| positions := ps;
               profitLossByIndex := JS.set (profitLossByIndex st') (originalIndex a') v |}).
Proof.
  intros [= Hline Hcols Hcode Htype Hdate Hprice Hqty] Hps.
  destruct st as [ps res], st' as [ps' res']. simpl in Hps. subst ps'.
  unfold processRecord, sellWithCode, isBuy, isSell. cbn [positions profitLossByIndex].
  rewrite <- Hcode, <- Htype, <- Hprice, <- Hqty.
  pose proof (λ ps0 : gmap string Position.t,
    conj (eq_refl (Ok {| positions := ps0; profitLossByIndex := res |}))
         (eq_refl (Ok {| positions := ps0; profitLossByIndex := res' |}))) as Hkeep.
  destruct (asxCode a) as [[|c code]|]; [right; left; eexists; apply Hkeep| |
                                         right; left; eexists; apply Hkeep].
  destruct (JS.testWhole "buy" (JS.toString (orderType a)));
    [right; left; eexists; apply Hkeep|].
  destruct (JS.testWhole "sell" (JS.toString (orderType a)));
    [|right; left; eexists; apply Hkeep].
  destruct (quantity a <=? 0)%float; [left; by eexists|].
  destruct (_ || _); [left; by eexists|].
  destruct (quantityEpsilon <? _)%float; [left; by eexists|].
  right; right. do 2 eexists. split; [reflexivity|]. split; reflexivity.
Qed.

Lemma sellWithCode_content (a a' : TradeRecord) :
  content a = content a' → sellWithCode a = sellWithCode a'.
Proof.
  intros [= _ _ Hcode Htype _ _ _]. unfold sellWithCode, isSell. by rewrite Hcode, Htype.
Qed.

Lemma sellWithCode_code (r : TradeRecord) :
  sellWithCode r = true → ∃ code, asxCode r = Some code ∧ code ≠ EmptyString.
Proof.
  unfold sellWithCode. destruct (asxCode r) as [[|c code]|]; [done| |done].
  intros _. by eexists.
Qed.

(** A refusal is decided by the position of the record's own code. *)
Lemma processRecord_own_Throw (code : string) (st1 st2 : State) (r : TradeRecord)
  (e : Error) :
  asxCode r = Some code →
  positions st1 !! code = positions st2 !! code →
  processRecord st1 r = Throw e → processRecord st2 r = Throw e.
Proof.
  intros Hcode Hsame.
  assert (positionOf (positions st1) code = positionOf (positions st2) code) as Hpos.
  { unfold positionOf. by rewrite Hsame. }
  destruct (decide (code = EmptyString)) as [->|Hne].
  { by rewrite !processRecord_no_code by (by right). }
  destruct (isBuy r) eqn:Hbuy.
  { by rewrite !(processRecord_buy _ r code) by done. }
  destruct (isSell r) eqn:Hsell.
  { rewrite !(processRecord_sell _ r code) by done. cbv zeta. rewrite Hpos.
    destruct (quantity r <=? 0)%float; [done|].
    destruct (_ || _); [done|].
    destruct (quantityEpsilon <? _)%float; done. }
  assert (orderKind r = Other) as Hkind by (unfold orderKind; by rewrite Hbuy, Hsell).
  by rewrite !(processRecord_other _ r code) by done.
Qed.

(** A run that fails, fails on the records of one code alone. *)
Lemma processRecords_Throw_own (l : list TradeRecord) (st : State) (e : Error) :
  processRecords st l = Throw e →
  ∃ code, code ≠ EmptyString ∧
    ∀ st2, positions st2 !! code = positions st !! code →
           processRecords st2 (filter (λ r, asxCode r = Some code) l) = Throw e.
Proof.
  revert st. induction l as [|r l IH]; intros st; [done|].
  cbn [processRecords]. unfold mbind, result_bind.
  destruct (processRecord st r) as [st1|e1] eqn:Hstep.
  - intros (code & Hne & Hcode)%IH. exists code. split; [done|]. intros st2 Hsame.
    rewrite filter_cons. destruct (decide (asxCode r = Some code)) as [Hr|Hr].
    + destruct (processRecord_own code st st2 st1 r Hr (eq_sym Hsame) Hstep)
        as (st2a & Hstep2 & Hsame' & _).
      cbn [processRecords]. unfold mbind, result_bind. rewrite Hstep2.
      by apply Hcode.
    + apply Hcode. by rewrite Hsame, (processRecord_foreign code st st1 r Hr Hstep).
  - intros [= <-]. destruct (asxCode r) as [code|] eqn:Hcode.
    2:{ by rewrite processRecord_no_code in Hstep by (by left). }
    exists code. split.
    { intros ->. by rewrite processRecord_no_code in Hstep by (by right). }
    intros st2 Hsame. rewrite filter_cons, decide_True by done.
    cbn [processRecords]. unfold mbind, result_bind.
    by rewrite (processRecord_own_Throw code st st2 r e1 Hcode (eq_sym Hsame) Hstep).
Qed.

Lemma NoDup_fmap_filter_lookup {A B} (f : A → B) (P : A → Prop) `{∀ x, Decision (P x)}
  (l : list A) (i j : nat) (x y : A) :
  NoDup (f <$> filter P l) → l !! i = Some x → l !! j = Some y →
  P x → P y → f x = f y → i = j.
Proof.
  revert i j. induction l as [|z l IH]; intros i j; [done|].
  rewrite filter_cons. intros Hnd Hi Hj Hx Hy Hf.
  assert (∀ k w, l !! k = Some w → P w → f w ∈ f <$> filter P l) as Hin.
  { intros k w Hk Hw. apply list_elem_of_fmap_2, list_elem_of_filter.
    split; [done|]. by eapply list_elem_of_lookup_2. }
  destruct (decide (P z)) as [Hz|Hz].
  - rewrite fmap_cons in Hnd. apply NoDup_cons in Hnd as [Hfz Hnd].
    destruct i as [|i], j as [|j]; [done| | |f_equal; by apply (IH i j)].
    + injection Hi as <-. exfalso. apply Hfz. rewrite Hf. by apply (Hin j y).
    + injection Hj as <-. exfalso. apply Hfz. rewrite <- Hf. by apply (Hin i x).
  - destruct i as [|i]; [by injection Hi as <-|].
    destruct j as [|j]; [by injection Hj as <-|]. f_equal. by apply (IH i j).
Qed.

Lemma content_filter_imap (g : nat → TradeRecord → TradeRecord) (code : string)
  (l : list TradeRecord) :
  (∀ i r, content (g i r) = content r) →
  content <$> filter (λ r, asxCode r = Some code) (imap g l)
  = content <$> filter (λ r, asxCode r = Some code) l.
Proof.
  revert g. induction l as [|r l IH]; intros g Hg; [done|].
  cbn [imap]. rewrite !filter_cons.
  assert (asxCode (g 0 r) = asxCode r) as Hcode.
  { pose proof (Hg 0 r) as [= _ _ Hcode _ _ _ _]. done. }
  rewrite Hcode. destruct (decide (asxCode r = Some code)).
  - rewrite !fmap_cons, Hg. f_equal. apply IH. intros i r'. apply Hg.
  - apply IH. intros i r'. apply Hg.
Qed.

Lemma sortKey_fmap_content (columnInfo : ColumnInfo) (l : list TradeRecord) :
  sortKey columnInfo <$> (content <$> l) = sortKey columnInfo <$> l.
Proof. rewrite <- list_fmap_compose. by apply list_fmap_ext. Qed.

Lemma chronological_content {host : Host} (columnInfo : ColumnInfo) (a b : TradeRecord) :
  chronological collatesBefore columnInfo a b →
  chronological collatesBefore columnInfo (content a) (content b).
Proof.
  unfold chronological. simpl. fold (tieBreak columnInfo a) (tieBreak columnInfo b).
  intros [?|[? [?|[? _]]]]; [by left|right; split; [done|by left]|].
  right. split; [done|]. right. split; [done|lia].
Qed.

Lemma reindex_among (columnInfo : ColumnInfo) (texts : list string)
  (records : list TradeRecord) :
  Forall (tieBreakAmong columnInfo texts) records →
  Forall (tieBreakAmong columnInfo texts) (reindex records).
Proof.
  rewrite !Forall_forall. intros Hrecords a (i & r & -> & Hr)%elem_of_lookup_imap_1.
  intros Hcolumn. apply (Hrecords r); [by eapply list_elem_of_lookup_2|done].
Qed.

Section InputOrder.
Context {host : Host} (columnInfo : ColumnInfo) (texts : list string).
Hypothesis Hstrict : hasTieBreak columnInfo → strictOn texts.

(** Records with distinct keys have one processing order, wherever they
    stand in the input. *)
Lemma sorted_content_unique (l l' : list TradeRecord) :
  Forall (tieBreakAmong columnInfo texts) l →
  Forall (tieBreakAmong columnInfo texts) l' →
  content <$> l ≡ₚ content <$> l' →
  NoDup (sortKey columnInfo <$> l) →
  content <$> sortRecords l columnInfo = content <$> sortRecords l' columnInfo.
Proof.
  intros Hl Hl' Hperm Hkeys.
  assert (∀ m, Forall (tieBreakAmong columnInfo texts) m →
               StronglySorted (chronological collatesBefore columnInfo)
                 (content <$> sortRecords m columnInfo)) as Hsorted.
  { intros m Hm. eapply StronglySorted_fmap; [apply chronological_content|].
    by apply (sortRecords_sorted columnInfo texts). }
  assert (∀ m, content <$> sortRecords m columnInfo ≡ₚ content <$> m) as Hsame.
  { intros m. by rewrite sortRecords_Permutation. }
  assert (∀ m x, Forall (tieBreakAmong columnInfo texts) m → x ∈ content <$> m →
                 tieBreakAmong columnInfo texts x) as Hamong.
  { intros m x Hm (r & -> & Hr)%list_elem_of_fmap. rewrite Forall_forall in Hm.
    intros Hcolumn. by apply (Hm r). }
  apply (StronglySorted_unique_strong (chronological collatesBefore columnInfo));
    [|by apply Hsorted..|by rewrite !Hsame].
  intros x y Hx Hy Hxy Hyx. rewrite Hsame in Hx. rewrite Hsame, <- Hperm in Hy.
  apply (elem_of_NoDup_fmap (sortKey columnInfo) (content <$> l)); [|done..|].
  - by rewrite sortKey_fmap_content.
  - by apply (chronological_sortKey columnInfo texts Hstrict); [apply (Hamong l)..| |].
Qed.

Context (records records' : list TradeRecord).
Hypothesis Hperm : records ≡ₚ records'.
Hypothesis Hamong : Forall (tieBreakAmong columnInfo texts) records.
Hypothesis Hkeys : instrumentKeysDistinct columnInfo records.

Lemma instrument_order (code : string) :
  code ≠ EmptyString →
  content <$> filter (λ r, asxCode r = Some code) (sortRecords (reindex records) columnInfo)
  = content <$> filter (λ r, asxCode r = Some code)
                  (sortRecords (reindex records') columnInfo).
Proof.
  intros Hcode.
  assert (Forall (tieBreakAmong columnInfo texts) records') as Hamong'
    by (by rewrite <- Hperm).
  rewrite <- !(sortRecords_filter columnInfo texts Hstrict) by (by apply reindex_among).
  apply sorted_content_unique.
  - apply Forall_forall. intros r [_ Hr]%list_elem_of_filter.
    pose proof (reindex_among _ _ _ Hamong) as Hall. rewrite Forall_forall in Hall.
    by apply Hall.
  - apply Forall_forall. intros r [_ Hr]%list_elem_of_filter.
    pose proof (reindex_among _ _ _ Hamong') as Hall. rewrite Forall_forall in Hall.
    by apply Hall.
  - unfold reindex. rewrite !content_filter_imap by apply content_withIndex.
    by rewrite Hperm.
  - rewrite <- sortKey_fmap_content. unfold reindex.
    rewrite content_filter_imap by apply content_withIndex.
    rewrite sortKey_fmap_content. by apply Hkeys.
Qed.

Lemma sale_place (l : list TradeRecord) (i j : nat) (r r' : TradeRecord) :
  instrumentKeysDistinct columnInfo l →
  l !! i = Some r → l !! j = Some r' → content r = content r' →
  sellWithCode r = true → i = j.
Proof.
  intros Hl Hi Hj Hcontent (code & Hcode & Hne)%sellWithCode_code.
  apply (NoDup_fmap_filter_lookup (sortKey columnInfo) (λ r, asxCode r = Some code)
           l i j r r' (Hl code Hne) Hi Hj Hcode).
  - pose proof Hcontent as [= _ _ Hc _ _ _ _]. congruence.
  - by rewrite <- (sortKey_content columnInfo r), Hcontent.
Qed.

Lemma sameByRecord_set (res res' : list (option string)) (a a' : TradeRecord) (v : string) :
  sameByRecord records records' res res' → content a = content a' →
  sellWithCode a = true →
  (∃ r, records !! originalIndex a = Some r ∧ content r = content a) →
  (∃ r, records' !! originalIndex a' = Some r ∧ content r = content a') →
  sameByRecord records records'
    (JS.set res (originalIndex a) v) (JS.set res' (originalIndex a') v).
Proof.
  intros Hsame Hc Hsell (ra & Hra & Hca) (ra' & Hra' & Hca') i j r Hi Hj.
  assert (instrumentKeysDistinct columnInfo records') as Hkeys'.
  { intros code Hcode. rewrite <- Hperm. by apply Hkeys. }
  assert (sellWithCode ra = true) as Hsell_a by (by rewrite (sellWithCode_content ra a)).
  assert (sellWithCode ra' = true) as Hsell_a'
    by (rewrite (sellWithCode_content ra' a'); [|done]; by rewrite <- (sellWithCode_content a a')).
  rewrite !get_set.
  destruct (decide (originalIndex a = i)) as [Hai|Hai],
           (decide (originalIndex a' = j)) as [Haj|Haj]; [done| | |by apply (Hsame i j r)].
  - exfalso. apply Haj. subst i. assert (r = ra) as -> by congruence.
    apply (sale_place records' _ _ ra' ra Hkeys' Hra' Hj); [congruence|done].
  - exfalso. apply Hai. subst j. assert (r = ra') as -> by congruence.
    apply (sale_place records _ _ ra ra' Hkeys Hra Hi); [congruence|done].
Qed.

Lemma processRecords_content (l l' : list TradeRecord) (st st' : State) :
  content <$> l = content <$> l' →
  positions st = positions st' →
  sameByRecord records records' (profitLossByIndex st) (profitLossByIndex st') →
  (∀ a, a ∈ l → ∃ r, records !! originalIndex a = Some r ∧ content r = content a) →
  (∀ a, a ∈ l' → ∃ r, records' !! originalIndex a = Some r ∧ content r = content a) →
  match processRecords st l, processRecords st' l' with
  | Ok s, Ok s' =>
      sameByRecord records records' (profitLossByIndex s) (profitLossByIndex s')
  | Throw e, Throw e' => e = e'
  | _, _ => False
  end.
Proof.
  revert l' st st'. induction l as [|a l IH]; intros [|a' l'] st st' Hl Hps Hsame Hin Hin';
    try discriminate; simpl; [done|].
  rewrite !fmap_cons in Hl.
  assert (content a = content a' ∧ content <$> l = content <$> l') as [Ha Hl']
    by (split; congruence).
  destruct (processRecord_content st st' a a' Ha Hps)
    as [(e & -> & ->)|[(ps & -> & ->)|(ps & v & Hsell & -> & ->)]]; simpl; [done| |].
  - apply IH; [done..| |].
    + intros b Hb. apply Hin. by right.
    + intros b Hb. apply Hin'. by right.
  - apply IH; [done|done| | |].
    + simpl. apply sameByRecord_set; [done..| |].
      * apply Hin. by left.
      * apply Hin'. by left.
    + intros b Hb. apply Hin. by right.
    + intros b Hb. apply Hin'. by right.
Qed.

End InputOrder.

Lemma initial_get (n i : nat) :
  i < n → JS.get (replicate n (Some EmptyString)) i = Some EmptyString.
Proof. intros Hi. unfold JS.get. by rewrite lookup_replicate_2. Qed.

(** The run on the records in one order succeeds when the run on them in
    another order does, and stores the same for every record. *)
Lemma input_order_one_way {host : Host} (columnInfo : ColumnInfo) (texts : list string)
  (records records' : list TradeRecord) (s : State) :
  (hasTieBreak columnInfo → strictOn texts) →
  records ≡ₚ records' →
  Forall (tieBreakAmong columnInfo texts) records →
  instrumentKeysDistinct columnInfo records →
  processRecords (initialState (length records)) (sortRecords (reindex records) columnInfo)
  = Ok s →
  ∃ s', processRecords (initialState (length records'))
          (sortRecords (reindex records') columnInfo) = Ok s' ∧
    sameByRecord records records' (profitLossByIndex s) (profitLossByIndex s').
Proof.
  intros Hstrict Hperm Hamong Hkeys Hrun.
  rewrite <- (Permutation_length Hperm).
  set (init := initialState (length records)) in *.
  set (S := sortRecords (reindex records) columnInfo) in *.
  set (S' := sortRecords (reindex records') columnInfo).
  assert (∀ a, a ∈ S → ∃ r, records !! originalIndex a = Some r ∧ content r = content a)
    as Hplace.
  { intros a Ha. apply elem_of_reindex. by rewrite <- (sortRecords_Permutation _ columnInfo). }
  assert (∀ a, a ∈ S' → ∃ r, records' !! originalIndex a = Some r ∧ content r = content a)
    as Hplace'.
  { intros a Ha. apply elem_of_reindex. by rewrite <- (sortRecords_Permutation _ columnInfo). }
  assert (sameByRecord records records' (profitLossByIndex init) (profitLossByIndex init))
    as Hinit.
  { intros i j r Hi Hj. cbn [init initialState profitLossByIndex].
    rewrite !initial_get; [done|..].
    - rewrite (Permutation_length Hperm). by eapply lookup_lt_Some.
    - by eapply lookup_lt_Some. }
  assert (∀ code sc, code ≠ EmptyString →
            processRecords init (filter (λ r, asxCode r = Some code) S) = Ok sc →
            ∃ sc', processRecords init (filter (λ r, asxCode r = Some code) S') = Ok sc' ∧
              sameByRecord records records' (profitLossByIndex sc) (profitLossByIndex sc'))
    as Hcode.
  { intros code sc Hne Hsc.
    pose proof (processRecords_content columnInfo records records' Hperm Hkeys
                  (filter (λ r, asxCode r = Some code) S)
                  (filter (λ r, asxCode r = Some code) S') init init) as Hboth.
    rewrite Hsc in Hboth.
    destruct (processRecords init (filter (λ r, asxCode r = Some code) S')) as [sc'|e].
    - exists sc'. split; [done|]. apply Hboth; [|done|done| |].
      + by apply (instrument_order columnInfo texts Hstrict records records').
      + intros a [_ Ha]%list_elem_of_filter. by apply Hplace.
      + intros a [_ Ha]%list_elem_of_filter. by apply Hplace'.
    - exfalso. apply Hboth; [|done|done| |].
      + by apply (instrument_order columnInfo texts Hstrict records records').
      + intros a [_ Ha]%list_elem_of_filter. by apply Hplace.
      + intros a [_ Ha]%list_elem_of_filter. by apply Hplace'. }
  destruct (processRecords init S') as [s'|e] eqn:Hrun'.
  2:{ exfalso. apply processRecords_Throw_own in Hrun' as (code & Hne & Hthrow).
      destruct (processRecords_own id code S init init s eq_refl Hrun) as (sc & Hsc & _).
      destruct (Hcode code sc Hne Hsc) as (sc' & Hsc' & _).
      rewrite (Hthrow init eq_refl) in Hsc'. discriminate. }
  exists s'. split; [done|]. intros i j r Hi Hj.
  destruct (sellWithCode r) eqn:Hsell.
  - destruct (sellWithCode_code r Hsell) as (code & Hr & Hne).
    destruct (processRecords_own id code S init init s eq_refl Hrun)
      as (sc & Hsc & _ & Hfields).
    destruct (processRecords_own id code S' init init s' eq_refl Hrun')
      as (sc'' & Hsc'' & _ & Hfields').
    destruct (Hcode code sc Hne Hsc) as (sc' & Hsc' & Hsame).
    assert (sc'' = sc') as -> by congruence.
    transitivity (JS.get (profitLossByIndex sc) i).
    { apply (Hfields i); [|done]. intros a Ha Hother Hidx.
      destruct (Hplace a Ha) as (ra & Hra & Hcontent). rewrite Hidx in Hra.
      assert (ra = r) as -> by congruence.
      pose proof Hcontent as [= _ _ Hc _ _ _ _]. congruence. }
    transitivity (JS.get (profitLossByIndex sc') j); [by apply (Hsame i j r)|].
    symmetry. apply (Hfields' j); [|done]. intros a Ha Hother Hidx.
    destruct (Hplace' a Ha) as (ra & Hra & Hcontent). rewrite Hidx in Hra.
    assert (ra = r) as -> by congruence.
    pose proof Hcontent as [= _ _ Hc _ _ _ _]. congruence.
  - apply processRecords_sales in Hrun as (Hkeep & _).
    apply processRecords_sales in Hrun' as (Hkeep' & _).
    rewrite (Hkeep i), (Hkeep' j); [by apply (Hinit i j r)| |].
    + intros a Ha Hsale Hidx. destruct (Hplace' a Ha) as (ra & Hra & Hcontent).
      rewrite Hidx in Hra. assert (ra = r) as -> by congruence.
      rewrite (sellWithCode_content r a) in Hsell by done. congruence.
    + intros a Ha Hsale Hidx. destruct (Hplace a Ha) as (ra & Hra & Hcontent).
      rewrite Hidx in Hra. assert (ra = r) as -> by congruence.
      rewrite (sellWithCode_content r a) in Hsell by done. congruence.
Qed.

(** C5. When no two records of one instrument share both their trade date
    and their tie-break value, and the host's collation orders the
    tie-break texts of the input strictly and totally (nothing is asked
    without a tie-break column), every reordering of the input has the same
    outcome: the run on one order succeeds exactly when the run on the
    other does, and then every record has the same profit/loss text at its
    place in either order. Records of different instruments may share
    their date and tie-break value. *)
Theorem distinct_keys_make_input_order_irrelevant {host : Host}
  (columnInfo : ColumnInfo) (records records' : list TradeRecord) :
  records ≡ₚ records' →
  tieBreaksCollate columnInfo records →
  instrumentKeysDistinct columnInfo records →
  ((∃ results, calculateProfitLossForRecords (reindex records) columnInfo = Ok results)
   ↔ ∃ results', calculateProfitLossForRecords (reindex records') columnInfo = Ok results') ∧
  ∀ results results',
    calculateProfitLossForRecords (reindex records) columnInfo = Ok results →
    calculateProfitLossForRecords (reindex records') columnInfo = Ok results' →
    ∀ (i j : nat) (r : TradeRecord),
      records !! i = Some r → records' !! j = Some r →
      JS.get results i = JS.get results' j.
Proof.
  intros Hperm Hstrict Hkeys. unfold calculateProfitLossForRecords, reindex.
  rewrite !length_imap. fold (reindex records) (reindex records').
  pose proof (tieBreaks_among columnInfo records) as Hamong.
  assert (Forall (tieBreakAmong columnInfo (tieBreak columnInfo <$> records)) records')
    as Hamong' by (by rewrite <- Hperm).
  assert (instrumentKeysDistinct columnInfo records') as Hkeys'.
  { intros code Hcode. rewrite <- Hperm. by apply Hkeys. }
  split; [split|].
  - intros [results Hrun].
    destruct (processRecords _ (sortRecords (reindex records) columnInfo))
      as [s|e] eqn:Hs; [|done].
    destruct (input_order_one_way columnInfo _ records records' s Hstrict Hperm Hamong
                Hkeys Hs) as (s' & -> & _).
    by eexists.
  - intros [results' Hrun'].
    destruct (processRecords _ (sortRecords (reindex records') columnInfo))
      as [s'|e] eqn:Hs'; [|done].
    destruct (input_order_one_way columnInfo _ records' records s' Hstrict
                (symmetry Hperm) Hamong' Hkeys' Hs') as (s & -> & _).
    by eexists.
  - intros results results' Hrun Hrun' i j r Hi Hj.
    destruct (processRecords _ (sortRecords (reindex records) columnInfo))
      as [s|e] eqn:Hs; [|done].
    destruct (input_order_one_way columnInfo _ records records' s Hstrict Hperm Hamong
                Hkeys Hs) as (s' & Hs' & Hsame).
    rewrite Hs' in Hrun'. injection Hrun as <-. injection Hrun' as <-.
    by apply (Hsame i j r).
Qed.

Lemma distinct_keys_make_input_order_irrelevant_witness :
  ∃ results results',
    calculateProfitLossForRecords (host := indifferentHost) (reindex twoInstruments)
      plainColumns = Ok results ∧
    calculateProfitLossForRecords (host := indifferentHost) (reindex twoInstrumentsReordered)
      plainColumns = Ok results' ∧
    JS.get results 3 = JS.get results' 4 ∧ JS.get results' 4 = Some "50.00" ∧
    JS.get results 4 = JS.get results' 1 ∧ JS.get results' 1 = Some "4.00".
Proof.
  destruct (calculateProfitLossForRecords (host := indifferentHost) (reindex twoInstruments)
              plainColumns) as [results|e] eqn:Hrun; [|vm_compute in Hrun; discriminate].
  destruct (calculateProfitLossForRecords (host := indifferentHost)
              (reindex twoInstrumentsReordered) plainColumns)
    as [results'|e] eqn:Hrun'; [|vm_compute in Hrun'; discriminate].
  destruct (distinct_keys_make_input_order_irrelevant (host := indifferentHost)
              plainColumns twoInstruments twoInstrumentsReordered) as [_ Hsame].
  - unfold twoInstruments, twoInstrumentsReordered. solve_Permutation.
  - intros Hcolumn. exfalso. by apply Hcolumn.
  - intros code _.
    destruct (decide (code = "AAA")) as [->|Haaa];
      [apply (bool_decide_unpack (NoDup _)); vm_compute; reflexivity|].
    destruct (decide (code = "BBB")) as [->|Hbbb];
      [apply (bool_decide_unpack (NoDup _)); vm_compute; reflexivity|].
    unfold twoInstruments.
    repeat (rewrite filter_cons, decide_False by (cbn; congruence)).
    rewrite filter_nil. constructor.
  - exists results, results'. split; [reflexivity|]. split; [reflexivity|].
    split; [by apply (Hsame results results' Hrun Hrun' 3 4 (trade 3 "AAA" "Sell" 3 25 5))|].
    split; [vm_compute in Hrun'; injection Hrun' as <-; reflexivity|].
    split; [by apply (Hsame results results' Hrun Hrun' 4 1 (trade 4 "BBB" "Sell" 2 6 4))|].
    vm_compute in Hrun'. injection Hrun' as <-. reflexivity.
Defined.

(** ** The lines of the input *)

Lemma trimEnd_cons (c : ascii) (s : string) :
  JS.trimEnd (String c s) =
  match JS.trimEnd s with
  | EmptyString => if JS.isWhiteSpace c then EmptyString else String c EmptyString
  | t => String c t
  end.
Proof. reflexivity. Qed.

Lemma splitLines_cons (c : ascii) (s : string) :
  JS.splitLines (String c s) =
  if Ascii.eqb c "010" then EmptyString :: JS.splitLines s
  else match s with
       | String c' _ =>
           if Ascii.eqb c "013" && Ascii.eqb c' "010" then JS.splitLines s
           else match JS.splitLines s with
                | f :: fs => String c f :: fs
                | [] => [String c EmptyString]
                end
       | EmptyString => [String c EmptyString]
       end.
Proof. reflexivity. Qed.

Lemma blank_trimStart (s : string) : blank (JS.trimStart s) = blank s.
Proof.
  induction s as [|c s IH]; [done|]. cbn [JS.trimStart blank].
  destruct (JS.isWhiteSpace c) eqn:Hc; [done|]. cbn [blank]. by rewrite Hc.
Qed.

Lemma blank_trimEnd (s : string) : blank (JS.trimEnd s) = blank s.
Proof.
  induction s as [|c s IH]; [done|]. rewrite trimEnd_cons. cbn [blank].
  destruct (JS.trimEnd s) as [|a t].
  - rewrite <- IH. cbn [blank]. destruct (JS.isWhiteSpace c) eqn:Hc; [done|].
    cbn [blank]. by rewrite Hc.
  - rewrite <- IH. reflexivity.
Qed.

Lemma trimEnd_nil (s : string) : JS.trimEnd s = EmptyString ↔ blank s = true.
Proof.
  split.
  - intros Hs. by rewrite <- blank_trimEnd, Hs.
  - induction s as [|c s IH]; [done|]. cbn [blank]. intros [Hc Hs]%andb_prop.
    rewrite trimEnd_cons, (IH Hs). by rewrite Hc.
Qed.

Lemma isBlank_blank (s : string) : isBlank s = blank s.
Proof.
  unfold isBlank, JS.trim. rewrite <- blank_trimStart.
  destruct (JS.trimEnd (JS.trimStart s)) as [|a t] eqn:Hu.
  - symmetry. by apply trimEnd_nil.
  - destruct (blank (JS.trimStart s)) eqn:Hb; [|done].
    apply trimEnd_nil in Hb. congruence.
Qed.

Lemma blank_splitLines (s : string) : forallb blank (JS.splitLines s) = blank s.
Proof.
  induction s as [|c s IH]; [done|]. rewrite splitLines_cons.
  destruct (Ascii.eqb c "010") eqn:Hn.
  { apply Ascii.eqb_eq in Hn as ->. cbn [forallb blank]. by rewrite IH. }
  destruct s as [|c' s]; [cbn; by rewrite !andb_true_r|].
  destruct (Ascii.eqb c "013" && Ascii.eqb c' "010") eqn:Hrn.
  { apply andb_prop in Hrn as [->%Ascii.eqb_eq ->%Ascii.eqb_eq]. by rewrite IH. }
  change (blank (String c (String c' s)))
    with (JS.isWhiteSpace c && blank (String c' s)).
  rewrite <- IH. destruct (JS.splitLines (String c' s)) as [|f fs].
  - cbn. by rewrite !andb_true_r.
  - cbn [forallb blank]. by rewrite andb_assoc.
Qed.

Lemma filter_isBlank_nil (lines : list string) :
  filter (λ l, isBlank l = false) lines = [] ↔ forallb blank lines = true.
Proof.
  induction lines as [|l lines IH]; [done|]. rewrite filter_cons. cbn [forallb].
  rewrite <- (isBlank_blank l).
  destruct (decide (isBlank l = false)) as [->|Hl]; [done|].
  apply not_false_is_true in Hl. by rewrite Hl.
Qed.

Lemma nonBlankLines_nil (inputCsv : string) :
  nonBlankLines inputCsv = [] ↔ isBlank inputCsv = true.
Proof.
  unfold nonBlankLines.
  by rewrite filter_isBlank_nil, blank_splitLines, blank_trimEnd, isBlank_blank.
Qed.

(** [calculateProfitLossCsv] by the lines it keeps. The first of its checks
    for an empty input decides: the second never fires. *)
Lemma calculateProfitLossCsv_lines {host : Host} (inputCsv : string) :
  calculateProfitLossCsv inputCsv =
  match nonBlankLines inputCsv with
  | [] => Throw EmptyInput
  | [_] => Throw NoDataRows
  | headerLine :: dataLines =>
      columnInfo ← ensureRequiredColumns (parseCsvLine headerLine);
      records ← parseRecords dataLines columnInfo;
      profitLossByIndex ← calculateProfitLossForRecords records columnInfo;
      Ok (buildOutputCsv headerLine records profitLossByIndex)
  end.
Proof.
  unfold calculateProfitLossCsv. fold (nonBlankLines inputCsv).
  destruct (isBlank inputCsv) eqn:Hblank.
  - apply nonBlankLines_nil in Hblank. by rewrite Hblank.
  - destruct (nonBlankLines inputCsv) as [|h [|row rows]]; done.
Qed.

(** ** The errors of a run, stage by stage *)

Lemma ensureRequiredColumns_Throw (headerCols : list string) (e : Error) :
  ensureRequiredColumns headerCols = Throw e → ∃ missing, e = MissingColumns missing.
Proof.
  destruct (ensureRequiredColumns_cases headerCols)
    as [(? & ? & ? & ? & ? & _ & _ & _ & _ & _ & ->)|(? & _ & _ & ->)]; [done|].
  intros [= <-]. by eexists.
Qed.

Lemma toNumber_Throw (value : option string) (e : Error) :
  toNumber value = Throw e → ∃ text, e = InvalidNumber text.
Proof.
  rewrite toNumber_unfold.
  destruct (JS.trim (JS.removeAll quote (default EmptyString value))) as [|c u]; [done|].
  cbv beta iota zeta. destruct (is_nan (JS.Number (String c u))); [|done]. intros [= <-]. by eexists.
Qed.

Lemma parseTradeDate_Throw {host : Host} (value : option string) (e : Error) :
  parseTradeDate value = Throw e → ∃ text, e = InvalidDate text.
Proof.
  rewrite parseTradeDate_unfold.
  destruct (JS.trim (default EmptyString value)) as [|c u]; [done|].
  cbv beta iota zeta. destruct (dateParse (String c u)); [done|]. intros [= <-]. by eexists.
Qed.

Lemma parseRecords_Throw {host : Host} (lines : list string) (columnInfo : ColumnInfo)
  (e : Error) :
  parseRecords lines columnInfo = Throw e →
  (∃ text, e = InvalidDate text) ∨ (∃ text, e = InvalidNumber text).
Proof.
  unfold parseRecords. intros (k & l & _ & Hrow & _)%parseRecordsFrom_Throw.
  apply parseRecord_Throw in Hrow
    as [Hd%parseTradeDate_Throw|[_ [Hp%toNumber_Throw|[_ Hq%toNumber_Throw]]]];
    [by left|by right..].
Qed.

Lemma processRecord_Throw (st : State) (r : TradeRecord) (e : Error) :
  processRecord st r = Throw e →
  ∃ code, asxCode r = Some code ∧
          (e = NonPositiveSellQuantity code ∨ e = NoExistingPosition code
           ∨ e = OversoldPosition code).
Proof.
  unfold processRecord. destruct (asxCode r) as [[|c code]|]; [done| |done].
  destruct (isBuy r); [done|]. destruct (isSell r); [|done].
  exists (String c code). split; [done|].
  destruct (quantity r <=? 0)%float; [left; congruence|].
  destruct (_ || _); [right; left; congruence|].
  destruct (quantityEpsilon <? _)%float; [right; right; congruence|done].
Qed.

Lemma calculateProfitLossForRecords_Throw {host : Host} (records : list TradeRecord)
  (columnInfo : ColumnInfo) (e : Error) :
  calculateProfitLossForRecords records columnInfo = Throw e →
  ∃ code, e = NonPositiveSellQuantity code ∨ e = NoExistingPosition code
          ∨ e = OversoldPosition code.
Proof.
  unfold calculateProfitLossForRecords.
  generalize (initialState (length records)). 
  induction (sortRecords records columnInfo) as [|r l IH]; intros st; [done|].
  cbn [processRecords]. unfold mbind, result_bind.
  destruct (processRecord st r) as [st'|e'] eqn:Hstep; [apply IH|].
  intros [= <-]. apply processRecord_Throw in Hstep as (code & _ & He). by exists code.
Qed.

(** X11. Every error of [calculateProfitLossCsv] tells the stage that
    raised it, and the stages run in a fixed order. The input is empty
    exactly when it is white space only (so the second check for an empty
    input never fires); rows are missing exactly when one line is not
    blank; a header error is raised whatever the rows hold; a row error
    only under a good header; an accounting error only when every row has
    been read. *)
Theorem errors_tell_the_stage {host : Host} (inputCsv : string) (e : Error) :
  calculateProfitLossCsv inputCsv = Throw e ↔
  match e with
  | EmptyInput => isBlank inputCsv = true
  | NoDataRows => ∃ headerLine, nonBlankLines inputCsv = [headerLine]
  | MissingColumns _ =>
      ∃ headerLine row rows,
        nonBlankLines inputCsv = headerLine :: row :: rows ∧
        ensureRequiredColumns (parseCsvLine headerLine) = Throw e
  | InvalidNumber _ | InvalidDate _ =>
      ∃ headerLine row rows columnInfo,
        nonBlankLines inputCsv = headerLine :: row :: rows ∧
        ensureRequiredColumns (parseCsvLine headerLine) = Ok columnInfo ∧
        parseRecords (row :: rows) columnInfo = Throw e
  | NonPositiveSellQuantity _ | NoExistingPosition _ | OversoldPosition _ =>
      ∃ headerLine row rows columnInfo records,
        nonBlankLines inputCsv = headerLine :: row :: rows ∧
        ensureRequiredColumns (parseCsvLine headerLine) = Ok columnInfo ∧
        parseRecords (row :: rows) columnInfo = Ok records ∧
        calculateProfitLossForRecords records columnInfo = Throw e
  end.
Proof.
  rewrite calculateProfitLossCsv_lines. split.
  - destruct (nonBlankLines inputCsv) as [|h [|row rows]] eqn:Hlines.
    { intros [= <-]. by apply nonBlankLines_nil. }
    { intros [= <-]. by exists h. }
    unfold mbind, result_bind.
    destruct (ensureRequiredColumns (parseCsvLine h)) as [columnInfo|e1] eqn:Hheader.
    2:{ intros [= <-]. destruct (ensureRequiredColumns_Throw _ _ Hheader) as [missing ->].
        by exists h, row, rows. }
    destruct (parseRecords (row :: rows) columnInfo) as [records|e2] eqn:Hrows.
    2:{ intros [= <-].
        destruct (parseRecords_Throw _ _ _ Hrows) as [[text ->]|[text ->]];
          by exists h, row, rows, columnInfo. }
    destruct (calculateProfitLossForRecords records columnInfo) as [results|e3] eqn:Hrun;
      [done|].
    intros [= <-].
    destruct (calculateProfitLossForRecords_Throw _ _ _ Hrun) as [code [->|[->| ->]]];
      by exists h, row, rows, columnInfo, records.
  - unfold mbind, result_bind.
    destruct e as [text|text|missing|code|code|code| |].
    + intros (h & row & rows & columnInfo & -> & -> & ->). done.
    + intros (h & row & rows & columnInfo & -> & -> & ->). done.
    + intros (h & row & rows & -> & ->). done.
    + intros (h & row & rows & columnInfo & records & -> & -> & -> & ->). done.
    + intros (h & row & rows & columnInfo & records & -> & -> & -> & ->). done.
    + intros (h & row & rows & columnInfo & records & -> & -> & -> & ->). done.
    + intros Hblank. apply nonBlankLines_nil in Hblank. by rewrite Hblank.
    + intros (h & ->). done.
Qed.

(** ** Blank lines and line endings *)

Lemma crlf_cons (c : ascii) (s : string) :
  ∃ a t, crlf (String c s) = String a t.
Proof. cbn [crlf]. destruct (Ascii.eqb c "010"); by eexists _, _. Qed.

Lemma trimEnd_crlf (s : string) : JS.trimEnd (crlf s) = crlf (JS.trimEnd s).
Proof.
  induction s as [|c s IH]; [done|]. cbn [crlf].
  destruct (Ascii.eqb c "010") eqn:Hn.
  - apply Ascii.eqb_eq in Hn as ->. rewrite !trimEnd_cons, IH.
    destruct (JS.trimEnd s) as [|a t]; [done|].
    destruct (crlf_cons a t) as (a' & t' & Hcrlf). rewrite Hcrlf.
    cbn [crlf]. change (Ascii.eqb "010" "010") with true. cbv iota.
    by rewrite <- Hcrlf.
  - rewrite !trimEnd_cons, IH. destruct (JS.trimEnd s) as [|a t].
    + cbn [crlf]. destruct (JS.isWhiteSpace c); [done|]. cbn [crlf]. by rewrite Hn.
    + destruct (crlf_cons a t) as (a' & t' & Hcrlf). rewrite Hcrlf.
      rewrite <- Hcrlf. set (u := String a t). cbn [crlf]. by rewrite Hn.
Qed.

Lemma contains_trimEnd (c : ascii) (s : string) :
  JS.contains c s = false → JS.contains c (JS.trimEnd s) = false.
Proof.
  induction s as [|a s IH]; [done|]. cbn [JS.contains].
  intros [Ha Hs]%orb_false_elim. rewrite trimEnd_cons.
  destruct (JS.trimEnd s) as [|b t].
  - destruct (JS.isWhiteSpace a); [done|]. cbn [JS.contains]. by rewrite Ha.
  - cbn [JS.contains] in *. by rewrite Ha, (IH Hs).
Qed.

Lemma splitLines_crlf (s : string) :
  JS.contains "013" s = false → JS.splitLines (crlf s) = JS.splitLines s.
Proof.
  induction s as [|c s IH]; [done|]. cbn [JS.contains].
  intros [Hr Hs]%orb_false_elim. specialize (IH Hs). cbn [crlf].
  destruct (Ascii.eqb c "010") eqn:Hn.
  - apply Ascii.eqb_eq in Hn as ->.
    rewrite (splitLines_cons "013"), (splitLines_cons "010" (crlf s)),
      (splitLines_cons "010" s).
    change (Ascii.eqb "013" "010") with false. change (Ascii.eqb "013" "013") with true.
    change (Ascii.eqb "010" "010") with true. cbv iota. cbn [andb]. by rewrite IH.
  - rewrite !(splitLines_cons c), Hn, Hr. cbn [andb].
    destruct s as [|c' s]; [done|].
    destruct (crlf_cons c' s) as (a & t & Hcrlf). rewrite Hcrlf, <- Hcrlf. by rewrite IH.
Qed.

Lemma nonBlankLines_crlf (s : string) :
  JS.contains "013" s = false → nonBlankLines (crlf s) = nonBlankLines s.
Proof.
  intros Hs. unfold nonBlankLines. rewrite trimEnd_crlf.
  by rewrite splitLines_crlf by (by apply contains_trimEnd).
Qed.

(** X12. What [calculateProfitLossCsv] returns depends on the lines of the
    input that are not blank, and on nothing else: blank lines anywhere,
    and white space at the end, change neither the output nor the error. *)
Theorem blank_lines_do_not_count {host : Host} (inputCsv inputCsv' : string) :
  nonBlankLines inputCsv = nonBlankLines inputCsv' →
  calculateProfitLossCsv inputCsv = calculateProfitLossCsv inputCsv'.
Proof. intros Hlines. by rewrite !calculateProfitLossCsv_lines, Hlines. Qed.

Lemma blank_lines_do_not_count_witness :
  calculateProfitLossCsv (host := ordinalHost) sampleCsvSpaced = Ok sampleOutput.
Proof.
  etrans.
  - apply (blank_lines_do_not_count (host := ordinalHost) sampleCsvSpaced sampleCsv).
    vm_compute. reflexivity.
  - vm_compute. reflexivity.
Defined.

(** X13. Line endings of carriage return and line feed are read as line
    feeds: an input without carriage returns gives the same output, or the
    same error, when each of its line feeds is preceded by a carriage
    return. The output ends its lines with line feeds in both cases. *)
Theorem line_endings_do_not_count {host : Host} (inputCsv : string) :
  JS.contains "013" inputCsv = false →
  calculateProfitLossCsv (crlf inputCsv) = calculateProfitLossCsv inputCsv.
Proof.
  intros Hs. by rewrite !calculateProfitLossCsv_lines, nonBlankLines_crlf.
Qed.

Lemma line_endings_do_not_count_witness :
  JS.contains "013" (crlf sampleCsv) = true ∧
  calculateProfitLossCsv (host := ordinalHost) (crlf sampleCsv) = Ok sampleOutput.
Proof.
  split; [vm_compute; reflexivity|]. etrans.
  - apply (line_endings_do_not_count (host := ordinalHost) sampleCsv).
    vm_compute. reflexivity.
  - vm_compute. reflexivity.
Defined.

(** ** The rows of the report *)

Lemma trimEnd_head (s : string) (a : ascii) (t : string) :
  JS.trimEnd s = String a t → ∃ s', s = String a s'.
Proof.
  destruct s as [|c s]; [done|]. rewrite trimEnd_cons.
  destruct (JS.trimEnd s); [destruct (JS.isWhiteSpace c)|]; intros [= <- _]; by eexists.
Qed.

Lemma splitLines_nonempty (s : string) : JS.splitLines s ≠ [].
Proof.
  induction s as [|c s IH]; [done|]. rewrite splitLines_cons.
  destruct (Ascii.eqb c "010"); [done|]. destruct s as [|c' s]; [done|].
  destruct (_ && _); [done|]. by destruct (JS.splitLines (String c' s)).
Qed.

(** The lines of an input trimmed at its end are the lines of the input
    up to one of them, which loses the white space it ends with; the lines
    after it are blank. *)
Lemma splitLines_trimEnd (s : string) :
  ∃ (kept : list string) (last pad : string) (rest : list string),
    JS.splitLines (JS.trimEnd s) = kept ++ [last] ∧
    JS.splitLines s = kept ++ (last +:+ pad) :: rest ∧
    blank pad = true ∧ forallb blank rest = true.
Proof.
  induction s as [|c s IH].
  { exists [], EmptyString, EmptyString, []. done. }
  destruct IH as (kept & last & pad & rest & Htrim & Hraw & Hpad & Hrest).
  rewrite trimEnd_cons. destruct (JS.trimEnd s) as [|a t] eqn:Hs.
  - assert (blank s = true) as Hblank by (by apply trimEnd_nil).
    destruct (JS.isWhiteSpace c) eqn:Hc.
    + pose proof (blank_splitLines (String c s)) as Hall.
      cbn [blank] in Hall. rewrite Hc, Hblank in Hall.
      destruct (JS.splitLines (String c s)) as [|l ls] eqn:Hlines.
      { by apply splitLines_nonempty in Hlines. }
      cbn [forallb] in Hall. apply andb_prop in Hall as [Hl Hls].
      by exists [], EmptyString, l, ls.
    + assert (Ascii.eqb c "010" = false) as Hn.
      { destruct (Ascii.eqb_spec c "010") as [->|]; [done|done]. }
      assert (Ascii.eqb c "013" = false) as Hr.
      { destruct (Ascii.eqb_spec c "013") as [->|]; [done|done]. }
      pose proof (blank_splitLines s) as Hall. rewrite Hblank in Hall.
      rewrite (splitLines_cons c EmptyString), (splitLines_cons c s), !Hn, Hr. cbn [andb].
      destruct s as [|c' s]; [by exists [], (String c EmptyString), EmptyString, []|].
      destruct (JS.splitLines (String c' s)) as [|l ls].
      * by exists [], (String c EmptyString), EmptyString, [].
      * cbn [forallb] in Hall. apply andb_prop in Hall as [Hl Hls].
        by exists [], (String c EmptyString), l, ls.
  - destruct (trimEnd_head s a t Hs) as [s' ->].
    rewrite (splitLines_cons c (String a t)), (splitLines_cons c (String a s')).
    destruct (Ascii.eqb c "010").
    { exists (EmptyString :: kept), last, pad, rest. by rewrite Htrim, Hraw. }
    destruct (Ascii.eqb c "013" && Ascii.eqb a "010").
    { by exists kept, last, pad, rest. }
    rewrite Htrim, Hraw. destruct kept as [|k kept].
    + by exists [], (String c last), pad, rest.
    + by exists (String c k :: kept), last, pad, rest.
Qed.

(** The last row of [paddedCsv] ends with a blank, which is the end of its
    last field: the output has the row without it. *)
Lemma last_row_loses_trailing_blank :
  calculateProfitLossCsv (host := ordinalHost) paddedCsv = Ok sampleOutput ∧
  JS.split "010" paddedCsv
  = [baseHeader; buildRow "AAA" "1" "Buy" "2024-01-01" "10" "10";
     buildRow "AAA" "2" "Sell" "2024-01-02" "12" "4" +:+ " "; EmptyString] ∧
  JS.split "010" sampleOutput
  = [baseHeader +:+ ",ProfitLoss"; buildRow "AAA" "1" "Buy" "2024-01-01" "10" "10" +:+ ",";
     buildRow "AAA" "2" "Sell" "2024-01-02" "12" "4" +:+ ",8.00"; EmptyString] ∧
  parseCsvLine (buildRow "AAA" "2" "Sell" "2024-01-02" "12" "4" +:+ " ") !! 20 = Some "0 " ∧
  parseCsvLine (buildRow "AAA" "2" "Sell" "2024-01-02" "12" "4" +:+ ",8.00") !! 20 = Some "0".
Proof. repeat split; vm_compute; reflexivity. Qed.

(** C6. When the calculator accepts an input, its output is, line by
    line, the header with the column name ProfitLoss added, then one line
    for each data row, in the order of the input: the row, a comma, and one
    field, which is the result stored for the row's original position or
    else empty. Read as comma-separated fields, each line has the fields of
    the row and one more. The header and the rows are the lines of the
    input that are not blank, as the calculator reads them: it drops the
    white space at the end of the whole input first, so that every line is
    as it was given but for the last one that is kept, which loses the
    white space it ends with. *)
Theorem report_keeps_rows_and_appends_one_field {host : Host} (inputCsv output : string) :
  calculateProfitLossCsv inputCsv = Ok output →
  ∃ (headerLine : string) (dataLines fields : list string),
    filter (λ l, isBlank l = false) (JS.splitLines (JS.trimEnd inputCsv))
    = headerLine :: dataLines ∧
    (∃ (kept : list string) (last pad : string) (rest : list string),
       JS.splitLines (JS.trimEnd inputCsv) = kept ++ [last] ∧
       JS.splitLines inputCsv = kept ++ (last +:+ pad) :: rest ∧
       blank pad = true ∧ forallb blank rest = true) ∧
    length fields = length dataLines ∧
    JS.split "010" output
    = ((headerLine +:+ ",ProfitLoss")
       :: zip_with (λ l f, l +:+ "," +:+ f) dataLines fields) ++ [EmptyString] ∧
    parseCsvLine (headerLine +:+ ",ProfitLoss") = parseCsvLine headerLine ++ ["ProfitLoss"] ∧
    (∀ i l f, dataLines !! i = Some l → fields !! i = Some f →
              parseCsvLine (l +:+ "," +:+ f) = parseCsvLine l ++ [f]) ∧
    ∃ (columnInfo : ColumnInfo) (records : list TradeRecord)
      (profitLoss : list (option string)),
      ensureRequiredColumns (parseCsvLine headerLine) = Ok columnInfo ∧
      parseRecords dataLines columnInfo = Ok records ∧
      calculateProfitLossForRecords records columnInfo = Ok profitLoss ∧
      ∀ i f, fields !! i = Some f → f = default EmptyString (JS.get profitLoss i).
Proof.
  unfold calculateProfitLossCsv. destruct (isBlank inputCsv); [done|].
  pose proof (splitLines_no_newline (JS.trimEnd inputCsv)) as Hnl.
  destruct (filter _ (JS.splitLines (JS.trimEnd inputCsv)))
    as [|headerLine dataLines] eqn:Hlines; [done|].
  assert (Forall (λ l, JS.contains "010" l = false) (headerLine :: dataLines)) as Hclean.
  { rewrite <- Hlines. rewrite Forall_forall in Hnl |- *.
    intros l [_ Hl]%list_elem_of_filter. by apply Hnl. }
  apply Forall_cons in Hclean as [Hheader Hdata].
  assert (match dataLines with
          | [] => Throw NoDataRows
          | _ =>
              columnInfo ← ensureRequiredColumns (parseCsvLine headerLine);
              records ← parseRecords dataLines columnInfo;
              profitLossByIndex ← calculateProfitLossForRecords records columnInfo;
              Ok (buildOutputCsv headerLine records profitLossByIndex)
          end = Ok output →
          (columnInfo ← ensureRequiredColumns (parseCsvLine headerLine);
           records ← parseRecords dataLines columnInfo;
           profitLossByIndex ← calculateProfitLossForRecords records columnInfo;
           Ok (buildOutputCsv headerLine records profitLossByIndex)) = Ok output) as Hrows
    by (by destruct dataLines).
  intros Hrun%Hrows. clear Hrows. unfold mbind, result_bind in Hrun.
  destruct (ensureRequiredColumns _) as [columnInfo|] eqn:Hcols; [|done].
  destruct (parseRecords dataLines columnInfo) as [records|] eqn:Hparse; [|done].
  destruct (calculateProfitLossForRecords records columnInfo) as [pl|] eqn:Hcalc; [|done].
  injection Hrun as <-.
  destruct (parseRecordsFrom_lines 0 dataLines columnInfo records Hparse) as [Hline Hidx].
  pose proof (calculateProfitLossForRecords_numericCells records columnInfo pl Hcalc) as Hpl.
  assert (∀ f, f ∈ appendedField pl <$> records →
               JS.contains "," f = false ∧ JS.contains "010" f = false) as Hfields.
  { intros f (r & -> & _)%list_elem_of_fmap.
    by apply numeric_no_separator, appendedField_numeric. }
  exists headerLine, dataLines, (appendedField pl <$> records).
  split; [done|]. split; [apply splitLines_trimEnd|].
  split; [by rewrite length_fmap, <- Hline, length_fmap|]. split.
  { unfold buildOutputCsv. rewrite outputLines_rows, Hline.
    apply split_join_terminated; [done|]. constructor.
    - by rewrite contains_app, Hheader.
    - rewrite Forall_forall. intros x (l & f & -> & Hl & Hf)%elem_of_zip_with.
      rewrite !contains_app. rewrite Forall_forall in Hdata.
      by rewrite (Hdata l Hl), (proj2 (Hfields f Hf)). }
  split; [by apply (split_append_field "," headerLine "ProfitLoss")|]. split.
  { intros i l f _ Hf. apply (split_append_field "," l f).
    apply Hfields. by eapply list_elem_of_lookup_2. }
  exists columnInfo, records, pl. repeat split; [done..|].
  intros i f (r & -> & Hr)%list_lookup_fmap_Some. unfold appendedField.
  assert (originalIndex r = i) as ->; [|done].
  assert ((originalIndex <$> records) !! i = Some (originalIndex r)) as Hi
    by (by rewrite list_lookup_fmap, Hr).
  rewrite Hidx in Hi. apply lookup_seq in Hi as [-> _]. done.
Qed.

Lemma report_keeps_rows_and_appends_one_field_witness :
  ∃ (headerLine : string) (dataLines fields : list string),
    filter (λ l, isBlank l = false) (JS.splitLines (JS.trimEnd paddedCsv))
    = headerLine :: dataLines ∧
    (∃ (kept : list string) (last pad : string) (rest : list string),
       JS.splitLines (JS.trimEnd paddedCsv) = kept ++ [last] ∧
       JS.splitLines paddedCsv = kept ++ (last +:+ pad) :: rest ∧
       blank pad = true ∧ forallb blank rest = true) ∧
    length fields = length dataLines ∧
    JS.split "010" sampleOutput
    = ((headerLine +:+ ",ProfitLoss")
       :: zip_with (λ l f, l +:+ "," +:+ f) dataLines fields) ++ [EmptyString] ∧
    parseCsvLine (headerLine +:+ ",ProfitLoss") = parseCsvLine headerLine ++ ["ProfitLoss"] ∧
    (∀ i l f, dataLines !! i = Some l → fields !! i = Some f →
              parseCsvLine (l +:+ "," +:+ f) = parseCsvLine l ++ [f]) ∧
    ∃ (columnInfo : ColumnInfo) (records : list TradeRecord)
      (profitLoss : list (option string)),
      ensureRequiredColumns (parseCsvLine headerLine) = Ok columnInfo ∧
      parseRecords (host := ordinalHost) dataLines columnInfo = Ok records ∧
      calculateProfitLossForRecords (host := ordinalHost) records columnInfo = Ok profitLoss ∧
      ∀ i f, fields !! i = Some f → f = default EmptyString (JS.get profitLoss i).
Proof.
  apply (report_keeps_rows_and_appends_one_field (host := ordinalHost) paddedCsv sampleOutput).
  vm_compute. reflexivity.
Defined.

(** ** The header, as the script reads it *)

Lemma indexOf_spec (l : list string) (x : string) :
  (indexOf l x = (-1)%Z ∧ (x ∉ l))
  ∨ ∃ i, indexOf l x = Z.of_nat i ∧ firstOccurrence l x i.
Proof.
  unfold indexOf. destruct (list_find (λ y, y = x) l) as [[i y]|] eqn:Hfind.
  - right. exists i. split; [done|].
    apply list_find_Some in Hfind as (Hi & -> & Hfirst). split; [done|].
    intros j Hj Hlookup. by apply (Hfirst j x).
  - left. split; [done|]. apply list_find_None in Hfind.
    rewrite Forall_forall in Hfind. intros Hx. by apply (Hfind x).
Qed.

Lemma indexOf_missing (l : list string) (x : string) :
  (indexOf l x =? -1)%Z = true ↔ (x ∉ l).
Proof.
  rewrite Z.eqb_eq. destruct (indexOf_spec l x) as [[-> Hx]|(i & -> & Hi & _)].
  - done.
  - split; [lia|]. intros Hx. exfalso. apply Hx. by eapply list_elem_of_lookup_2.
Qed.

Lemma mainColumns_None (header : list string) :
  mainColumns header = None ↔ ∃ name, name ∈ requiredColumns ∧ (name ∉ header).
Proof.
  unfold mainColumns. cbv zeta. cbn [existsb].
  destruct (indexOf header "AsxCode" =? -1)%Z eqn:H1.
  { split; [|done]. intros _. exists "AsxCode". rewrite requiredColumns_elem.
    split; [tauto|]. by apply indexOf_missing. }
  destruct (indexOf header "Order Type" =? -1)%Z eqn:H2.
  { split; [|done]. intros _. exists "Order Type". rewrite requiredColumns_elem.
    split; [tauto|]. by apply indexOf_missing. }
  destruct (indexOf header "Trade Date" =? -1)%Z eqn:H3.
  { split; [|done]. intros _. exists "Trade Date". rewrite requiredColumns_elem.
    split; [tauto|]. by apply indexOf_missing. }
  destruct (indexOf header "Avg Price" =? -1)%Z eqn:H4.
  { split; [|done]. intros _. exists "Avg Price". rewrite requiredColumns_elem.
    split; [tauto|]. by apply indexOf_missing. }
  destruct (indexOf header "Quantity" =? -1)%Z eqn:H5.
  { split; [|done]. intros _. exists "Quantity". rewrite requiredColumns_elem.
    split; [tauto|]. by apply indexOf_missing. }
  cbn [orb]. split; [done|]. intros (name & Hname & Hmissing).
  apply indexOf_missing in Hmissing. apply requiredColumns_elem in Hname.
  destruct Hname as [->|[->|[->|[->| ->]]]]; congruence.
Qed.

Lemma first_is_last (header : list string) (name : string) (i j : nat) :
  (∀ i j, header !! i = Some name → header !! j = Some name → i = j) →
  firstOccurrence header name i → lastOccurrence header name j → i = j.
Proof. intros Honce [Hi _] [Hj _]. by apply Honce. Qed.

Lemma indexOf_last (header : list string) (name : string) (j : nat) :
  (∀ i j, header !! i = Some name → header !! j = Some name → i = j) →
  lastOccurrence header name j → indexOf header name = Z.of_nat j.
Proof.
  intros Honce Hj. destruct (indexOf_spec header name) as [[_ Hx]|(i & -> & Hi)].
  - exfalso. apply Hx. destruct Hj as [Hj _]. by eapply list_elem_of_lookup_2.
  - by rewrite (first_is_last header name i j).
Qed.

(** X14. The script and the module accept the same headers: both ask for
    the five required names. The script takes the first column of a name,
    the module the last; where none of the names they look up is repeated
    in the header, they read the same columns. *)
Theorem script_and_module_read_the_header (header : list string) :
  (mainColumns header = None ↔ ∃ e, ensureRequiredColumns header = Throw e) ∧
  (∀ columns, mainColumns header = Some columns →
     ∃ asx orderType tradeDate avgPrice qty,
       mainAsxIdx columns = Z.of_nat asx ∧ firstOccurrence header "AsxCode" asx ∧
       mainOrderTypeIdx columns = Z.of_nat orderType ∧
       firstOccurrence header "Order Type" orderType ∧
       mainTradeDateIdx columns = Z.of_nat tradeDate ∧
       firstOccurrence header "Trade Date" tradeDate ∧
       mainAvgPriceIdx columns = Z.of_nat avgPrice ∧
       firstOccurrence header "Avg Price" avgPrice ∧
       mainQtyIdx columns = Z.of_nat qty ∧ firstOccurrence header "Quantity" qty) ∧
  (∀ columns columnInfo,
     mainColumns header = Some columns →
     ensureRequiredColumns header = Ok columnInfo →
     (∀ name i j, name ∈ trackedColumns →
                  header !! i = Some name → header !! j = Some name → i = j) →
     mainAsxIdx columns = Z.of_nat (asxIdx columnInfo) ∧
     mainOrderTypeIdx columns = Z.of_nat (orderTypeIdx columnInfo) ∧
     mainTradeDateIdx columns = Z.of_nat (tradeDateIdx columnInfo) ∧
     mainAvgPriceIdx columns = Z.of_nat (avgPriceIdx columnInfo) ∧
     mainQtyIdx columns = Z.of_nat (qtyIdx columnInfo) ∧
     mainConfirmationIdx columns = confirmationIdx columnInfo).
Proof.
  split; [|split].
  - rewrite mainColumns_None.
    destruct (ensureRequiredColumns_cases header)
      as [(a & o & d & p & q & Ha & Ho & Hd & Hp & Hq & Hok)|(name & Hname & Hmiss & Hthrow)].
    + rewrite Hok. split; [|by intros [e ?]].
      intros (name & Hname & Hmiss). exfalso. apply Hmiss.
      apply requiredColumns_elem in Hname.
      destruct Hname as [->|[->|[->|[->| ->]]]];
        [destruct Ha as [Hl _]|destruct Ho as [Hl _]|destruct Hd as [Hl _]
        |destruct Hp as [Hl _]|destruct Hq as [Hl _]];
        by eapply list_elem_of_lookup_2.
    + split; [intros _; by eexists|]. intros _. by exists name.
  - intros columns Hcolumns.
    assert (mainColumns header ≠ None) as Hsome by congruence.
    rewrite mainColumns_None in Hsome.
    assert (∀ name, name ∈ requiredColumns →
                    ∃ i, indexOf header name = Z.of_nat i ∧ firstOccurrence header name i)
      as Hfirst.
    { intros name Hname. destruct (indexOf_spec header name) as [[_ Hmiss]|Hi]; [|done].
      exfalso. apply Hsome. by exists name. }
    destruct (Hfirst "AsxCode") as (a & Ha & Ha'); [rewrite requiredColumns_elem; tauto|].
    destruct (Hfirst "Order Type") as (o & Ho & Ho'); [rewrite requiredColumns_elem; tauto|].
    destruct (Hfirst "Trade Date") as (d & Hd & Hd'); [rewrite requiredColumns_elem; tauto|].
    destruct (Hfirst "Avg Price") as (p & Hp & Hp'); [rewrite requiredColumns_elem; tauto|].
    destruct (Hfirst "Quantity") as (q & Hq & Hq'); [rewrite requiredColumns_elem; tauto|].
    exists a, o, d, p, q. unfold mainColumns in Hcolumns. cbv zeta in Hcolumns.
    destruct (existsb _ _); [done|]. injection Hcolumns as <-.
    cbn [mainAsxIdx mainOrderTypeIdx mainTradeDateIdx mainAvgPriceIdx mainQtyIdx].
    repeat (split; [assumption|]). assumption.
  - intros columns columnInfo Hcolumns Hok Honce.
    unfold mainColumns in Hcolumns. cbv zeta in Hcolumns.
    destruct (existsb _ _); [done|]. injection Hcolumns as <-.
    cbn [mainAsxIdx mainOrderTypeIdx mainTradeDateIdx mainAvgPriceIdx mainQtyIdx
         mainConfirmationIdx].
    destruct (ensureRequiredColumns_cases header)
      as [(a & o & d & p & q & Ha & Ho & Hd & Hp & Hq & Hok')|(name & _ & _ & Hthrow)];
      [|congruence].
    rewrite Hok' in Hok. injection Hok as <-.
    cbn [asxIdx orderTypeIdx tradeDateIdx avgPriceIdx qtyIdx confirmationIdx].
    assert (∀ name, name ∈ trackedColumns →
                    ∀ i j, header !! i = Some name → header !! j = Some name → i = j)
      as Honce' by (intros name Hname i j; by apply Honce).
    repeat split;
      try (apply indexOf_last; [apply Honce'; unfold trackedColumns;
                                rewrite elem_of_cons, requiredColumns_elem; tauto|done]).
    destruct (indexColumns 0 header ∅ !! "Confirmation Number") as [c|] eqn:Hc.
    + apply header_index_Some in Hc. apply indexOf_last; [|done]. apply Honce'. by left.
    + apply header_index_None in Hc.
      by destruct (indexOf_spec header "Confirmation Number")
        as [[-> _]|(i & _ & Hi%list_elem_of_lookup_2 & _)].
Qed.

Example repeated_header_divides :
  mainQtyIdx <$> mainColumns repeatedHeader = Some 0%Z ∧
  qtyIdx <$> ensureRequiredColumns repeatedHeader = Ok 5.
Proof. split; vm_compute; reflexivity. Qed.
